(** * LyricSync Pro: the LRC timestamp index and playback synchronisation

    A shallow embedding of the index and highlight logic of
    [src/lyricsync_pro/app.py] ([MainWindow.rebuild_lrc_index],
    [update_lrc_highlight], [_scroll_both_to_line],
    [_scroll_editor_view_to_line], [_sync_scroll_from], [load_audio]).

    Modelling conventions.
    - A Python [str] is a [list ascii]: a sequence of code points below
      256.  On that range [\d] is exactly ['0'..'9'] and the line
      boundaries of [str.splitlines] are the nine characters of
      [is_linebreak] (with CR LF counted once).
    - A Python [float] is a binary64 value ([float] of [PrimFloat]), with
      the IEEE 754 operations and comparisons of the kernel; [float(n)] of
      a small [int] is [of_nat].
    - [re.finditer] is a backtracking matcher ([rmatch]) run at every start
      position from the left ([search]); the loop body ends in [break], so
      only the first match is consumed.
    - [list.sort(key=...)] is a stable comparison sort on [<] of the keys
      ([list_sort], and [sort_by] for integer keys).

    Beyond the index, the development covers the time label
    ([update_time_label]), the stored flags ([_to_bool]), the tag written by
    [insert_timestamp_line], and the download path: [_format_mmss_cc],
    [build_lrc_header], [search_songs], [get_lyric_by_id], [auto_pick_song]
    and [download_lrc] of [src/lyricsync_pro/downloader.py], with
    [download_lyric_auto] and the search of [manual_search_dialog].
    - An [int] is a [Z]; [//] and [%] are [Z.div] and [Z.modulo].
    - The body of a response is a [json] value; the requests themselves are
      parameters ([search_get], [lyric_get]), and a request that raises is
      [Failed].
    - A call that may raise returns an [option] ([None] when it raises) or
      a [result]. *)

From Stdlib Require Import List Ascii String ZArith Bool Arith Lia Floats.
From Stdlib Require Import Sorting.Sorted Sorting.Permutation.
Import ListNotations.

Open Scope nat_scope.

(* Decimal literals such as 0.1 denote the nearest binary64 value, as they
   do in Python. *)
Set Warnings "-inexact-float".

(** ** Strings *)

Definition str : Type := list ascii.

Definition py (s : string) : str := list_ascii_of_string s.

Definition LF : ascii := ascii_of_nat 10.
Definition CR : ascii := ascii_of_nat 13.

(** The line boundaries of [str.splitlines] among code points below 256:
    LF, VT, FF, CR, FS, GS, RS and NEL (CR LF is handled in [splitlines_from]). *)
Definition is_linebreak (c : ascii) : bool :=
  let n := nat_of_ascii c in
  (n =? 10) || (n =? 11) || (n =? 12) || (n =? 13) ||
  (n =? 28) || (n =? 29) || (n =? 30) || (n =? 133).

(** [splitlines_from cur s]: [cur] is the current line, reversed. *)
Fixpoint splitlines_from (cur : str) (s : str) : list str :=
  match s with
  | [] => match cur with [] => [] | _ => [rev cur] end
  | c :: s' =>
      if Ascii.eqb c CR then
        match s' with
        | d :: s'' =>
            if Ascii.eqb d LF then rev cur :: splitlines_from [] s''
            else rev cur :: splitlines_from [] s'
        | [] => rev cur :: splitlines_from [] s'
        end
      else if is_linebreak c then rev cur :: splitlines_from [] s'
      else splitlines_from (c :: cur) s'
  end.

Definition splitlines (text : str) : list str := splitlines_from [] text.

(** [enumerate] *)
Fixpoint enumerate_from {A : Type} (i : nat) (l : list A) : list (nat * A) :=
  match l with
  | [] => []
  | x :: l' => (i, x) :: enumerate_from (S i) l'
  end.

Definition enumerate {A : Type} (l : list A) : list (nat * A) := enumerate_from 0 l.

(** ** Regular expressions *)

Definition is_digit (c : ascii) : bool :=
  let n := nat_of_ascii c in (48 <=? n) && (n <=? 57).

Inductive regex : Type :=
| Chr (c : ascii)                     (* an escaped literal, as in \[ *)
| Digit                               (* \d *)
| Seq (r1 r2 : regex)
| Rep (lo hi : nat) (r : regex)       (* r{lo,hi}, greedy *)
| Opt (r : regex)                     (* (?:r)?, greedy *)
| Grp (i : nat) (r : regex).          (* the i-th capturing group *)

(** Captured groups: group number and captured text.  A group that did not
    take part in the match has no binding ([m.group(i)] is [None]). *)
Definition groups : Type := list (nat * str).

Fixpoint group (i : nat) (g : groups) : option str :=
  match g with
  | [] => None
  | (j, s) :: g' => if j =? i then Some s else group i g'
  end.

(** The text consumed between the input [s] and its suffix [s']. *)
Definition consumed (s s' : str) : str := firstn (List.length s - List.length s') s.

(** Backtracking match of [r] at the head of [s], in continuation-passing
    style: [k] receives the rest of the input and the groups, and a [None]
    from [k] makes the matcher try its next alternative. *)
Fixpoint rmatch {A : Type} (r : regex) (s : str) (g : groups)
  (k : str -> groups -> option A) {struct r} : option A :=
  match r with
  | Chr c =>
      match s with
      | x :: s' => if Ascii.eqb x c then k s' g else None
      | [] => None
      end
  | Digit =>
      match s with
      | x :: s' => if is_digit x then k s' g else None
      | [] => None
      end
  | Seq r1 r2 => rmatch r1 s g (fun s1 g1 => rmatch r2 s1 g1 k)
  | Rep lo hi r1 =>
      (fix rep (lo hi : nat) (s : str) (g : groups) {struct hi} : option A :=
         match hi with
         | 0 => match lo with 0 => k s g | S _ => None end
         | S hi' =>
             match rmatch r1 s g (fun s1 g1 => rep (pred lo) hi' s1 g1) with
             | Some a => Some a
             | None => match lo with 0 => k s g | S _ => None end
             end
         end) lo hi s g
  | Opt r1 =>
      match rmatch r1 s g k with
      | Some a => Some a
      | None => k s g
      end
  | Grp i r1 => rmatch r1 s g (fun s1 g1 => k s1 ((i, consumed s s1) :: g1))
  end.

(** A match object: the groups, and the input left after the match. *)
Definition match_at (r : regex) (s : str) : option (groups * str) :=
  rmatch r s [] (fun rest g => Some (g, rest)).

(** The first match that [re.finditer] yields: the leftmost start position
    at which the pattern matches. *)
Fixpoint search (r : regex) (s : str) : option (groups * str) :=
  match match_at r s with
  | Some m => Some m
  | None =>
      match s with
      | [] => None
      | _ :: s' => search r s'
      end
  end.

(** [r"\[(\d{1,2}):(\d{2})(?:\.(\d{1,3}))?\]"] *)
Definition TAG : regex :=
  Seq (Chr "[")
 (Seq (Grp 1 (Rep 1 2 Digit))
 (Seq (Chr ":")
 (Seq (Grp 2 (Rep 2 2 Digit))
 (Seq (Opt (Seq (Chr ".") (Grp 3 (Rep 1 3 Digit))))
      (Chr "]"))))).

(** ** Numbers *)

Definition digit_value (c : ascii) : nat := nat_of_ascii c - 48.

(** [int(s)] on a string of decimal digits (the only strings the groups of
    [TAG] can hold, see [match_at_TAG_sound]). *)
Definition int (s : str) : nat :=
  fold_left (fun n c => 10 * n + digit_value c) s 0.

(** [float(n)] for a non-negative [int] below 2^63. *)
Definition of_nat (n : nat) : float := PrimFloat.of_uint63 (Uint63.of_Z (Z.of_nat n)).

(** ** The index *)

Definition entry : Type := (float * nat)%type.   (* (time_sec, block_index) *)

(** The body of the inner loop of [rebuild_lrc_index] for one match. *)
Definition offset_of_match (g : groups) : float :=
  let mm := int (match group 1 g with Some s => s | None => [] end) in
  let ss := int (match group 2 g with Some s => s | None => [] end) in
  let frac := match group 3 g with Some (c :: s) => c :: s | _ => py "0" end in
  let frac_sec :=
    if List.length frac =? 1 then (of_nat (int frac) / 10)%float
    else if List.length frac =? 2 then (of_nat (int frac) / 100)%float
    else (of_nat (int (firstn 3 frac)) / 1000)%float in
  (of_nat (mm * 60 + ss) + frac_sec)%float.

(** What one line appends to the index: the entry of its first match. *)
Definition line_entry (i : nat) (line : str) : list entry :=
  match search TAG line with
  | Some (g, _) => [(offset_of_match g, i)]
  | None => []
  end.

(** The appends of the outer loop, in scan order. *)
Fixpoint collect (ls : list (nat * str)) (acc : list entry) : list entry :=
  match ls with
  | [] => acc
  | (i, line) :: ls' => collect ls' (acc ++ line_entry i line)
  end.

(** Stable insertion: [x] goes before the first element whose key is
    strictly greater. *)
Fixpoint insert_by_key (x : entry) (l : list entry) : list entry :=
  match l with
  | [] => [x]
  | y :: l' =>
      if (fst x <? fst y)%float then x :: y :: l'
      else y :: insert_by_key x l'
  end.

(** [l.sort(key=lambda x: x[0])] *)
Definition list_sort (l : list entry) : list entry :=
  fold_left (fun acc x => insert_by_key x acc) l [].

(** The entries appended for [text], before the sort. *)
Definition scan_entries (text : str) : list entry :=
  collect (enumerate (splitlines text)) [].

(** The value of [self._lrc_index] when [rebuild_lrc_index] returns. *)
Definition rebuild_index (text : str) : list entry :=
  list_sort (scan_entries text).

(** ** Lookup: the first half of [update_lrc_highlight] *)

(** The [for j, (t, _) in enumerate(self._lrc_index)] loop: [idx] is the
    running answer, [j] the position of the head of [l]. *)
Fixpoint scan_idx (current_sec : float) (idx j : nat) (l : list entry) : nat :=
  match l with
  | [] => idx
  | (t, _) :: l' =>
      if (t <=? current_sec)%float then scan_idx current_sec j (S j) l'
      else idx
  end.

(** The line that a time update resolves: [None] is the early [return] on
    an empty index, otherwise [self._lrc_index[idx][1]]. *)
Definition lookup (index : list entry) (current_sec : float) : option nat :=
  match index with
  | [] => None
  | _ :: _ =>
      let idx := scan_idx current_sec 0 0 index in
      option_map snd (nth_error index idx)
  end.

Definition NL : string := String LF EmptyString.

Definition scenario_A : str := py ("[00:01.500]Hello" ++ NL ++ "[00:03.000]World").

(** ** The rebuild, statement by statement

    [self._lrc_index] holds a reference to a list object; [append] and
    [sort] mutate the object it refers to.  The store maps an address (a
    position) to the contents of the list object allocated there. *)

Record pystate : Type := mkPy {
  heap : list (list entry);
  lrc_ref : nat                      (* the value of the attribute self._lrc_index *)
}.

Definition deref (h : list (list entry)) (r : nat) : list entry := nth r h [].

(** What a reader of [self._lrc_index] sees. *)
Definition observable (st : pystate) : list entry := deref (heap st) (lrc_ref st).

Fixpoint update_at (r : nat) (f : list entry -> list entry) (h : list (list entry))
  : list (list entry) :=
  match h, r with
  | [], _ => []
  | l :: h', 0 => f l :: h'
  | l :: h', S r' => l :: update_at r' f h'
  end.

(** [self._lrc_index = []] *)
Definition assign_fresh (st : pystate) : pystate :=
  mkPy (heap st ++ [[]]) (List.length (heap st)).

(** One iteration of the outer loop: [self._lrc_index.append((t, i))] when
    the line has a match. *)
Definition append_in_place (es : list entry) (st : pystate) : pystate :=
  mkPy (update_at (lrc_ref st) (fun l => l ++ es) (heap st)) (lrc_ref st).

(** [self._lrc_index.sort(key=lambda x: x[0])] *)
Definition sort_in_place (st : pystate) : pystate :=
  mkPy (update_at (lrc_ref st) list_sort (heap st)) (lrc_ref st).

(** The states after each iteration of the loop over the lines. *)
Fixpoint loop_trace (ls : list (nat * str)) (st : pystate) : list pystate :=
  match ls with
  | [] => []
  | (i, line) :: ls' =>
      let st' := append_in_place (line_entry i line) st in
      st' :: loop_trace ls' st'
  end.

(** The states that [rebuild_lrc_index] passes through after its first
    statement, in order; the last one is the state on return. *)
Definition rebuild_trace (text : str) (st : pystate) : list pystate :=
  let st1 := assign_fresh st in
  let body := loop_trace (enumerate (splitlines text)) st1 in
  st1 :: body ++ [sort_in_place (last body st1)].

(** A list is a prefix of another. *)
Definition prefix_of (l l' : list entry) : Prop := exists r, l' = l ++ r.

(** ** The window: fields, widgets and handlers *)

Inductive view : Type := editor_original | editor.

(** The pairing made by the two [valueChanged] connections of [_build_ui]. *)
Definition other (v : view) : view :=
  match v with editor_original => editor | editor => editor_original end.

Inductive align : Type := top | center | bottom.

(** [self._highlight_format] and [self._highlight_format2]. *)
Inductive char_format : Type := _highlight_format | _highlight_format2.

Record QTextEdit : Type := mkEdit {
  plainText : str;
  scrollValue : Z;                          (* verticalScrollBar().value() *)
  extraSelection : option (nat * char_format)
}.

(** Calls made on the two views: [sb.setValue(v)] and
    [setExtraSelections([sel])] with [sel] spanning one line. *)
Inductive command : Type :=
| Scroll (v : view) (value : Z)
| Highlight (v : view) (line_no : nat) (fmt : char_format).

Record MainWindow : Type := mkWindow {
  w_editor_original : QTextEdit;
  w_editor : QTextEdit;
  _lrc_index : list entry;
  _current_line_no : Z;
  _sync_lock : bool;
  issued : list command                    (* commands issued so far, oldest first *)
}.

Definition widget (v : view) (w : MainWindow) : QTextEdit :=
  match v with editor_original => w_editor_original w | editor => w_editor w end.

Definition set_widget (v : view) (e : QTextEdit) (w : MainWindow) : MainWindow :=
  match v with
  | editor_original =>
      mkWindow e (w_editor w) (_lrc_index w) (_current_line_no w) (_sync_lock w) (issued w)
  | editor =>
      mkWindow (w_editor_original w) e (_lrc_index w) (_current_line_no w) (_sync_lock w) (issued w)
  end.

Definition set_lrc_index (ix : list entry) (w : MainWindow) : MainWindow :=
  mkWindow (w_editor_original w) (w_editor w) ix (_current_line_no w) (_sync_lock w) (issued w).

Definition set_current_line_no (n : Z) (w : MainWindow) : MainWindow :=
  mkWindow (w_editor_original w) (w_editor w) (_lrc_index w) n (_sync_lock w) (issued w).

Definition set_sync_lock (b : bool) (w : MainWindow) : MainWindow :=
  mkWindow (w_editor_original w) (w_editor w) (_lrc_index w) (_current_line_no w) b (issued w).

Definition issue (c : command) (w : MainWindow) : MainWindow :=
  mkWindow (w_editor_original w) (w_editor w) (_lrc_index w) (_current_line_no w)
           (_sync_lock w) (issued w ++ [c]).

(** The runtime state set up at the end of [_build_ui]. *)
Definition build_ui : MainWindow :=
  mkWindow (mkEdit [] 0 None) (mkEdit [] 0 None) [] (-1) false [].

(** What a Python call raises: an [Exception], which [except Exception]
    catches, or another [BaseException], which it does not. *)
Inductive raised : Type := PyException | PyBaseException.

Inductive result (A : Type) : Type :=
| Ok (a : A)
| Raise (e : raised).
Arguments Ok {A} a.
Arguments Raise {A} e.

(** A handler: it transforms the window and returns or raises; [None] is a
    run cut short by the bound on nested notifications. *)
Definition M (A : Type) : Type := MainWindow -> option (result A * MainWindow).

Definition ret {A : Type} (a : A) : M A := fun w => Some (Ok a, w).

Definition bind {A B : Type} (m : M A) (f : A -> M B) : M B :=
  fun w =>
    match m w with
    | None => None
    | Some (Ok a, w') => f a w'
    | Some (Raise e, w') => Some (Raise e, w')
    end.

Definition modify (f : MainWindow -> MainWindow) : M unit := fun w => Some (Ok tt, f w).

Definition get {A : Type} (f : MainWindow -> A) : M A := fun w => Some (Ok (f w), w).

Definition raise {A : Type} (e : raised) : M A := fun w => Some (Raise e, w).

Definition out_of_fuel {A : Type} : M A := fun _ => None.

(** [try: body finally: fin] *)
Definition try_finally {A : Type} (body : M A) (fin : MainWindow -> MainWindow) : M A :=
  fun w =>
    match body w with
    | None => None
    | Some (r, w') => Some (r, fin w')
    end.

(** [try: body except Exception: pass] *)
Definition try_except_pass (body : M unit) : M unit :=
  fun w =>
    match body w with
    | Some (Raise PyException, w') => Some (Ok tt, w')
    | r => r
    end.

Notation "x <- m ;; k" := (bind m (fun x => k))
  (at level 61, m at next level, right associativity).
Notation "m ;;; k" := (bind m (fun _ => k))
  (at level 61, right associativity).

(** [rebuild_lrc_index] as a whole: the index on return is [rebuild_index]
    of the text of the editable view (see [rebuild_trace_final]). *)
Definition rebuild_lrc_index (w : MainWindow) : MainWindow :=
  set_lrc_index (rebuild_index (plainText (w_editor w))) w.

Definition set_scroll (v : view) (y : Z) (w : MainWindow) : MainWindow :=
  let e := widget v w in
  set_widget v (mkEdit (plainText e) y (extraSelection e)) w.

Definition set_text (v : view) (content : str) (w : MainWindow) : MainWindow :=
  let e := widget v w in
  set_widget v (mkEdit content (scrollValue e) (extraSelection e)) w.

Definition set_selection (v : view) (line_no : nat) (fmt : char_format)
  (w : MainWindow) : MainWindow :=
  let e := widget v w in
  set_widget v (mkEdit (plainText e) (scrollValue e) (Some (line_no, fmt))) w.

(** A view layer with one pixel per line, used to run the handlers on
    concrete windows. *)
Definition flat_blockCount (e : QTextEdit) : nat :=
  Nat.max 1 (List.length (splitlines (plainText e))).
Definition flat_scroll_target (e : QTextEdit) (line_no : nat) (a : align) : Z + raised :=
  inl (Z.of_nat line_no).
Definition flat_top_block (e : QTextEdit) : Z + raised := inl (scrollValue e).
Definition flat_relayout (e : QTextEdit) : Z := 0%Z.

(** A view layer in which finding the top visible line fails. *)
Definition failing_top_block (e : QTextEdit) : Z + raised := inr PyException.

Definition song_one : str :=
  py ("[00:01.00]one" ++ NL ++ "[00:02.00]two" ++ NL ++ "[00:03.00]three").
Definition song_two : str :=
  py ("[ti:other]" ++ NL ++ "[00:10.00]first" ++ NL ++ "[00:20.00]second").
Definition out_of_order : str := py ("[00:05]late" ++ NL ++ "[00:01]early").

Section ViewLayer.

(** The view layer (Qt), out of the scope of the index logic:
    - [blockCount e]: [e.document().blockCount()]; [findBlockByNumber(n)] is
      valid exactly when [n] is below it;
    - [scroll_target e n a]: the value [v] that [_scroll_editor_view_to_line]
      passes to [sb.setValue], computed from the layout of block [n], the
      viewport height and the scroll range, or what a Qt call raised;
    - [top_block e]: [e.cursorForPosition(QPoint(0, 1)).blockNumber()], or
      what a Qt call raised;
    - [relayout e]: the scroll bar value Qt settles on after the document of
      [e] was replaced. *)
Variable blockCount : QTextEdit -> nat.
Variable scroll_target : QTextEdit -> nat -> align -> Z + raised.
Variable top_block : QTextEdit -> Z + raised.
Variable relayout : QTextEdit -> Z.

(** [sb.setValue(y)]: the scroll bar emits [valueChanged] only when the value
    changes; [slot v] is what [_build_ui] connected to the bar of [v]. *)
Definition setValue (slot : view -> M unit) (v : view) (y : Z) : M unit :=
  modify (issue (Scroll v y)) ;;;
  old <- get (fun w => scrollValue (widget v w)) ;;
  if (y =? old)%Z then ret tt
  else modify (set_scroll v y) ;;; slot v.

Definition _scroll_editor_view_to_line (slot : view -> M unit)
  (v : view) (line_no : nat) (a : align) : M unit :=
  try_except_pass
    (e <- get (widget v) ;;
     if negb (line_no <? blockCount e) then ret tt
     else match scroll_target e line_no a with
          | inr ex => raise ex
          | inl y => setValue slot v y
          end).

Fixpoint _sync_scroll_from (fuel : nat) (src dst : view) {struct fuel} : M unit :=
  match fuel with
  | 0 => out_of_fuel
  | S fuel' =>
      locked <- get _sync_lock ;;
      if locked then ret tt
      else
        modify (set_sync_lock true) ;;;
        try_finally
          (e <- get (widget src) ;;
           match top_block e with
           | inr ex => raise ex
           | inl bn =>
               d <- get (widget dst) ;;
               let bn := Z.max 0 (Z.min bn (Z.of_nat (blockCount d) - 1)) in
               _scroll_editor_view_to_line
                 (fun v => _sync_scroll_from fuel' v (other v))
                 dst (Z.to_nat bn) top
           end)
          (set_sync_lock false)
  end.

(** The two lambdas connected to [valueChanged] in [_build_ui]. *)
Definition on_value_changed (fuel : nat) (v : view) : M unit :=
  _sync_scroll_from fuel v (other v).

Definition _scroll_both_to_line (fuel : nat) (line_no : nat) : M unit :=
  locked <- get _sync_lock ;;
  if locked then ret tt
  else
    modify (set_sync_lock true) ;;;
    try_finally
      (_scroll_editor_view_to_line (on_value_changed fuel) editor_original line_no center ;;;
       _scroll_editor_view_to_line (on_value_changed fuel) editor line_no center)
      (set_sync_lock false).

Definition _apply_line_highlight (v : view) (line_no : nat) (fmt : char_format) : M unit :=
  e <- get (widget v) ;;
  if negb (line_no <? blockCount e) then ret tt
  else modify (fun w => issue (Highlight v line_no fmt) (set_selection v line_no fmt w)).

Definition update_lrc_highlight (fuel : nat) (current_sec : float) : M unit :=
  index <- get _lrc_index ;;
  match lookup index current_sec with
  | None => ret tt
  | Some line_no =>
      cur <- get _current_line_no ;;
      if (Z.of_nat line_no =? cur)%Z then ret tt
      else
        modify (set_current_line_no (Z.of_nat line_no)) ;;;
        _scroll_both_to_line fuel line_no ;;;
        _apply_line_highlight editor line_no _highlight_format ;;;
        _apply_line_highlight editor_original line_no _highlight_format2
  end.

(** [v.setPlainText(content)]: the document is replaced; [textChanged] is
    connected to [rebuild_lrc_index] for the editable view only; the scroll
    bar may move, which notifies the scroll coupling. *)
Definition setPlainText (fuel : nat) (v : view) (content : str) : M unit :=
  modify (set_text v content) ;;;
  match v with
  | editor => modify rebuild_lrc_index
  | editor_original => ret tt
  end ;;;
  e <- get (widget v) ;;
  if (relayout e =? scrollValue e)%Z then ret tt
  else modify (set_scroll v (relayout e)) ;;; on_value_changed fuel v.

(** The lyric part of [load_audio]: [lrc] is the content of the [.lrc] file
    next to the audio file, when that file exists. *)
Definition load_audio (fuel : nat) (lrc : option str) : M unit :=
  match lrc with
  | Some content =>
      setPlainText fuel editor_original content ;;;
      setPlainText fuel editor content ;;;
      modify rebuild_lrc_index
  | None =>
      setPlainText fuel editor_original [] ;;;
      setPlainText fuel editor [] ;;;
      modify (set_lrc_index [])
  end.

(** The commands issued by a run that started in [w] and ended in [w']. *)
Definition emitted (w w' : MainWindow) : list command :=
  skipn (List.length (issued w)) (issued w').

End ViewLayer.

(** ** The timestamp grammar, as the specification words it

    [[] minutes (1-2 digits) [:] seconds (2 digits), an optional [.] and
    fraction (1-3 digits), []]. *)

Record time_tag : Type := mkTag {
  minutes : str;
  seconds : str;
  fraction : option str
}.

Definition digits (s : str) : Prop := Forall (fun c => is_digit c = true) s.

Definition well_formed (t : time_tag) : Prop :=
  digits (minutes t) /\ 1 <= List.length (minutes t) <= 2 /\
  digits (seconds t) /\ List.length (seconds t) = 2 /\
  match fraction t with
  | None => True
  | Some f => digits f /\ 1 <= List.length f <= 3
  end.

Definition tag_text (t : time_tag) : str :=
  py "[" ++ minutes t ++ py ":" ++ seconds t ++
  match fraction t with None => [] | Some f => py "." ++ f end ++ py "]".

(** The text of [t] stands in [line] at position [p]. *)
Definition tag_at (line : str) (p : nat) (t : time_tag) : Prop :=
  well_formed t /\ exists pre post,
    line = pre ++ tag_text t ++ post /\ List.length pre = p.

(** [t] at [p] is the leftmost tag of [line]. *)
Definition leftmost_tag (line : str) (p : nat) (t : time_tag) : Prop :=
  tag_at line p t /\ forall p' t', p' < p -> ~ tag_at line p' t'.

(** The fraction normalisation of the specification: 1 digit is tenths
    (times 0.1), 2 digits hundredths (times 0.01), 3 digits milliseconds
    (times 0.001). *)
Definition fraction_value (t : time_tag) : float :=
  match fraction t with
  | None => 0%float
  | Some f =>
      match List.length f with
      | 1 => (of_nat (int f) * 0.1)%float
      | 2 => (of_nat (int f) * 0.01)%float
      | _ => (of_nat (int f) * 0.001)%float
      end
  end.

(** [offset_seconds = minutes*60 + seconds + fraction_value], evaluated as
    Python evaluates that expression: the integers exactly, then one
    binary64 addition. *)
Definition offset_seconds (t : time_tag) : float :=
  (of_nat (int (minutes t) * 60 + int (seconds t)) + fraction_value t)%float.

(** Two values agree within the tolerance 1e-6. *)
Definition within_tolerance (a b : float) : Prop :=
  (abs (a - b) <=? 1e-6)%float = true.

(** The groups that a match of [TAG] on the text of [t] binds; group 3 is
    bound only when the fraction is present. *)
Definition groups_of (t : time_tag) : groups :=
  match fraction t with
  | None => []
  | Some f => [(3, f)]
  end ++ [(2, seconds t); (1, minutes t)].

(** The offset that the code computes for the tag [t]. *)
Definition parsed_offset (t : time_tag) : float := offset_of_match (groups_of t).

(** The quotients [int(frac) / 10.0], [/ 100.0] and [/ 1000.0] of every
    fraction of one, two or three digits, each beside the product by 0.1,
    0.01 or 0.001 that the specification writes for it. *)
Definition fraction_table : list (float * float) :=
  map (fun k => (of_nat k / 10, of_nat k * 0.1)%float) (seq 0 10) ++
  map (fun k => (of_nat k / 100, of_nat k * 0.01)%float) (seq 0 100) ++
  map (fun k => (of_nat k / 1000, of_nat k * 0.001)%float) (seq 0 1000).

(** For [n] whole seconds and every fraction of the table: the offset
    [float(n) + quotient] is not negative (so it is a number), and it is
    within the tolerance of [float(n) + product]. *)
Definition offsets_ok (table : list (float * float)) (n : nat) : bool :=
  let fn := of_nat n in
  forallb (fun p => ((0 <=? fn + fst p) &&
                     (abs ((fn + fst p) - (fn + snd p)) <=? 1e-6))%float)
          table.

(** ** Orders on entries *)

Definition by_offset (a b : entry) : Prop := (fst a <=? fst b)%float = true.

Definition by_offset_then_line (a b : entry) : Prop :=
  (fst a <? fst b)%float = true \/
  ((fst a =? fst b)%float = true /\ snd a < snd b).

(** Ascending line numbers. *)
Definition line_lt (a b : entry) : Prop := snd a < snd b.

(** An entry whose offset is a number, not a NaN: it compares with itself. *)
Definition is_number (e : entry) : Prop := (fst e <=? fst e)%float = true.

(** The appends of the scan as one list. *)
Definition entries_of (ls : list (nat * str)) : list entry :=
  flat_map (fun p => line_entry (fst p) (snd p)) ls.

(** The number of leading entries of the index whose offset is at most [t]. *)
Fixpoint leading (t : float) (l : list entry) : nat :=
  match l with
  | [] => 0
  | e :: l' => if (fst e <=? t)%float then S (leading t l') else 0
  end.

(** ** States of a rebuild, windows and commands *)

(** The state in which [rebuild_lrc_index] returns. *)
Definition rebuild_final (text : str) (st : pystate) : pystate :=
  last (rebuild_trace text st) st.

(** The reading of "atomic" that the specification gives: every state a
    rebuild passes through shows the complete old or the complete new
    index. *)
Definition old_or_new (text : str) (st s : pystate) : Prop :=
  observable s = observable st \/ observable s = rebuild_index text.

(** The fields that scroll coupling has no business with. *)
Definition same_fields (w w' : MainWindow) : Prop :=
  _lrc_index w' = _lrc_index w /\
  _current_line_no w' = _current_line_no w /\
  plainText (w_editor w') = plainText (w_editor w) /\
  plainText (w_editor_original w') = plainText (w_editor_original w).

(** At most one [Scroll] command, on view [v]. *)
Definition at_most_one_scroll (v : view) (l : list command) : Prop :=
  l = [] \/ exists y, l = [Scroll v y].

(** The window a handler leaves (the window itself when the run is cut short). *)
Definition run (m : M unit) (w : MainWindow) : MainWindow :=
  match m w with
  | Some (_, w') => w'
  | None => w
  end.

(** ** Concrete states *)

(** A store whose only list object is an index left by an earlier text. *)
Definition stale_state : pystate := mkPy [[(9%float, 7)]] 0.

(** A window showing [text] in both views, its index rebuilt. *)
Definition window_of (text : str) : MainWindow :=
  rebuild_lrc_index (set_text editor text (set_text editor_original text build_ui)).

(** Song one at 2.5 seconds: line 1 is current. *)
Definition playing_song_one : MainWindow :=
  run (update_lrc_highlight flat_blockCount flat_scroll_target flat_top_block 1 2.5)
      (window_of song_one).

(** Then the audio file of song two is selected. *)
Definition switched_to_song_two : MainWindow :=
  run (load_audio flat_blockCount flat_scroll_target flat_top_block flat_relayout 2
         (Some song_two))
      playing_song_one.

(** * Beyond the index: labels, headers and downloads

    ** Decimal formatting *)

(** The decimal digits of [n], most significant first, put before [acc];
    [fuel] above [n] is enough. *)
Fixpoint digits_from (fuel n : nat) (acc : str) : str :=
  match fuel with
  | 0 => acc
  | S fuel' =>
      let acc' := ascii_of_nat (48 + n mod 10) :: acc in
      if n <? 10 then acc' else digits_from fuel' (n / 10) acc'
  end.

(** [str(n)] for a non-negative [int]. *)
Definition str_of_nat (n : nat) : str := digits_from (S n) n [].

(** Padding with zeros on the left up to [width] characters. *)
Definition zero_pad (width : nat) (s : str) : str :=
  repeat (ascii_of_nat 48) (width - List.length s) ++ s.

(** [format(z, "0<width>d")]: the sign, then the digits padded with zeros so
    that sign and digits fill [width] characters. *)
Definition format_d (width : nat) (z : Z) : str :=
  if (z <? 0)%Z then py "-" ++ zero_pad (width - 1) (str_of_nat (Z.to_nat (- z)))
  else zero_pad width (str_of_nat (Z.to_nat z)).

(** ** The time label: [update_time_label] and its local function [fmt]

    Both arguments are [int]s (the position and duration that the player
    reports, or the slider value), on which [dur_ms or 0] is the identity,
    [//] is the floor division and [int] changes nothing. *)

Definition fmt (ms : Z) : str :=
  let s := Z.max 0 (ms / 1000) in
  let mm := (s / 60)%Z in
  let ss := (s mod 60)%Z in
  format_d 2 mm ++ py ":" ++ format_d 2 ss.

(** The text that [update_time_label] sets on [lbl_time]. *)
Definition update_time_label (pos_ms dur_ms : Z) : str :=
  fmt pos_ms ++ py " / " ++ fmt dur_ms.

(** ** Numbers: [int] and [float] arguments *)

(** A numeric argument: an [int] or a [float]. *)
Inductive number : Type :=
| PyInt (z : Z)
| PyFloat (f : float).

(** [int(f)] for a [float]: the value truncated toward zero; [None] when
    the call raises (on a NaN or an infinity). *)
Definition int_of_float (f : float) : option Z :=
  match Prim2SF f with
  | S754_zero _ => Some 0%Z
  | S754_finite s m e =>
      let v := if (0 <=? e)%Z then (Zpos m * 2 ^ e)%Z else (Zpos m / 2 ^ (- e))%Z in
      Some (if s then (- v)%Z else v)
  | _ => None
  end.

(** [round(f)] for a [float]: the nearest integer, a tie going to the even
    one; [None] when the call raises (on a NaN or an infinity). *)
Definition round (f : float) : option Z :=
  match Prim2SF f with
  | S754_zero _ => Some 0%Z
  | S754_finite s m e =>
      let v :=
        if (0 <=? e)%Z then (Zpos m * 2 ^ e)%Z
        else
          let d := (2 ^ (- e))%Z in
          let q := (Zpos m / d)%Z in
          let r := (Zpos m mod d)%Z in
          if (2 * r <? d)%Z then q
          else if (d <? 2 * r)%Z then (q + 1)%Z
          else if Z.even q then q else (q + 1)%Z in
      Some (if s then (- v)%Z else v)
  | _ => None
  end.

(** [float(z)] as the mixed operation [seconds - s] converts its [int]
    operand: the nearest binary64 value, a tie going to the even one. *)
Definition float_of_int (z : Z) : float :=
  SF2Prim (binary_normalize prec emax z 0 false).

(** ** The header of a downloaded lyric: [downloader.py] *)

(** The return statement of [_format_mmss_cc]:
    [f"{mm:02d}:{ss:02d}.{cc:02d}"] from the whole seconds [s] and the
    milliseconds [ms]. *)
Definition mmss_cc (s ms : Z) : str :=
  let mm := (s / 60)%Z in
  let ss := (s mod 60)%Z in
  let cc := if (ms =? 0)%Z then 0%Z else (ms / 10)%Z in
  format_d 2 mm ++ py ":" ++ format_d 2 ss ++ py "." ++ format_d 2 cc.

(** [_format_mmss_cc(seconds)]; [None] when [int] or [round] raises. *)
Definition _format_mmss_cc (seconds : number) : option str :=
  match seconds with
  | PyInt s => Some (mmss_cc s 0)
  | PyFloat f =>
      match int_of_float f with
      | None => None
      | Some s =>
          match round ((f - float_of_int s) * 1000)%float with
          | None => None
          | Some ms => Some (mmss_cc s ms)
          end
      end
  end.

(** [sep.join(parts)] *)
Fixpoint join (sep : str) (parts : list str) : str :=
  match parts with
  | [] => []
  | [p] => p
  | p :: ps => p ++ sep ++ join sep ps
  end.

(** The truth value of a [str]: it is not empty. *)
Definition nonempty (s : str) : bool :=
  match s with [] => false | _ :: _ => true end.

(** The list [parts] of [build_lrc_header], given the text of the length
    line when there is one. *)
Definition header_parts (title artist : str) (length : option str) (match_tag : str)
  : list str :=
  (if nonempty title then [py "[ti:" ++ title ++ py "]"] else []) ++
  (if nonempty artist then [py "[ar:" ++ artist ++ py "]"] else []) ++
  match length with
  | Some l => [py "[length:" ++ l ++ py "]"]
  | None => []
  end ++
  [py "[by:LyricSync Pro]"; py "[match:" ++ match_tag ++ py "]"].

(** [build_lrc_header(title, artist, length_sec, match_tag)]; [None] when
    formatting the length raises. *)
Definition build_lrc_header (title artist : str) (length_sec : option number)
  (match_tag : str) : option str :=
  match length_sec with
  | None => Some (join (py NL) (header_parts title artist None match_tag))
  | Some n =>
      match _format_mmss_cc n with
      | None => None
      | Some l => Some (join (py NL) (header_parts title artist (Some l) match_tag))
      end
  end.

(** [full_lrc = header + "\n" + lrc], as [download_lyric_auto] and
    [manual_search_dialog] put it in both views. *)
Definition full_lrc (header lrc : str) : str := header ++ py NL ++ lrc.

(** A field that holds no line boundary and no opening bracket. *)
Definition plain (s : str) : Prop :=
  Forall (fun c => is_linebreak c = false /\ c <> "["%char) s.

(** The index entry [e] with its line number moved down by [n] lines. *)
Definition shift_line (n : nat) (e : entry) : entry := (fst e, n + snd e).

(** A field that holds no line boundary. *)
Definition no_linebreak (s : str) : Prop := Forall (fun c => is_linebreak c = false) s.

(** The characters that a formatted length can hold. *)
Definition length_char (c : ascii) : Prop :=
  is_digit c = true \/ c = "-"%char \/ c = ":"%char \/ c = "."%char.

(** The header of a song of 203.5 seconds matched by its tags. *)
Definition song_header : str :=
  py ("[ti:Song]" ++ NL ++ "[ar:Me]" ++ NL ++ "[length:03:23.50]" ++ NL ++
      "[by:LyricSync Pro]" ++ NL ++ "[match:id3]").

(** ** JSON values and the search service: [downloader.py] *)

(** What [r.json()] returns: [None], a [bool], an [int], a [float], a
    [str], a [list] or a [dict] (its items in an association list, a key
    bound once). *)
Set Warnings "-register-all".

Inductive json : Type :=
| JNull
| JBool (b : bool)
| JInt (z : Z)
| JFloat (f : float)
| JStr (s : str)
| JArr (l : list json)
| JObj (kv : list (str * json)).

(** The truth value of a Python object. *)
Definition truthy (v : json) : bool :=
  match v with
  | JNull => false
  | JBool b => b
  | JInt z => negb (z =? 0)%Z
  | JFloat f => negb (f =? 0)%float
  | JStr s => nonempty s
  | JArr l => match l with [] => false | _ :: _ => true end
  | JObj kv => match kv with [] => false | _ :: _ => true end
  end.

(** [v or d] *)
Definition or_else (v d : json) : json := if truthy v then v else d.

Fixpoint str_eqb (a b : str) : bool :=
  match a, b with
  | [], [] => true
  | x :: a', y :: b' => Ascii.eqb x y && str_eqb a' b'
  | _, _ => false
  end.

Fixpoint assoc (k : str) (kv : list (str * json)) : option json :=
  match kv with
  | [] => None
  | (k', v) :: kv' => if str_eqb k k' then Some v else assoc k kv'
  end.

(** [d.get(k, default)]; [None] is the [AttributeError] raised when [d] is
    not a [dict]. *)
Definition dict_get (d : json) (k : string) (default : json) : option json :=
  match d with
  | JObj kv => Some (match assoc (py k) kv with Some v => v | None => default end)
  | _ => None
  end.

(** The items that a [for] loop draws from [v]: the elements of a list,
    the keys of a dict, the characters of a string; [None] is the
    [TypeError] raised on anything else. *)
Definition iterate (v : json) : option (list json) :=
  match v with
  | JArr l => Some l
  | JObj kv => Some (map (fun p => JStr (fst p)) kv)
  | JStr s => Some (map (fun c => JStr [c]) s)
  | _ => None
  end.

(** A computation that may raise an [Exception]: [None] when it does. *)
Definition and_then {A B : Type} (m : option A) (f : A -> option B) : option B :=
  match m with
  | Some a => f a
  | None => None
  end.

(** A loop whose body may raise: the results in order, or [None] as soon as
    one iteration raises. *)
Fixpoint for_each {A B : Type} (body : A -> option B) (l : list A) : option (list B) :=
  match l with
  | [] => Some []
  | x :: l' =>
      and_then (body x) (fun y =>
      and_then (for_each body l') (fun ys => Some (y :: ys)))
  end.

(** An element of the list that [search_songs] returns: the dict
    [{"id": sid, "name": name, "artists": arts, "duration_ms": dur}]. *)
Record song : Type := mkSong {
  id : json;
  name : json;
  artists : str;
  duration_ms : json          (* an [int], a [bool] or [None] *)
}.

(** The operand [a.get("name", "")] of [", ".join]; [join] raises a
    [TypeError] on an item that is not a [str]. *)
Definition artist_name (a : json) : option str :=
  match dict_get a "name" (JStr []) with
  | Some (JStr s) => Some s
  | _ => None
  end.

(** The body of the loop of [search_songs] for one entry [s]. *)
Definition song_record (s : json) : option song :=
  and_then (dict_get s "id" JNull) (fun sid =>
  and_then (dict_get s "name" JNull) (fun n =>
  let name := or_else n (JStr []) in
  and_then (dict_get s "artists" JNull) (fun a =>
  and_then (iterate (or_else a (JArr []))) (fun items =>
  and_then (for_each artist_name items) (fun names =>
  let arts := join (py ", ") names in
  and_then (dict_get s "duration" JNull) (fun d =>
  let dur := match d with JInt _ | JBool _ => d | _ => JNull end in
  Some (mkSong sid name arts dur))))))).

(** The songs listed in the body [data] of a search response. *)
Definition songs_of (data : json) : option json :=
  and_then (dict_get (or_else data (JObj [])) "result" (JObj [])) (fun result =>
  and_then (dict_get (or_else result (JObj [])) "songs" (JArr [])) (fun songs =>
  Some (or_else songs (JArr [])))).

(** What a request gives: it fails (the connection, the status or the
    decoding raises), or it has a JSON body. *)
Inductive response : Type :=
| Failed
| Json (data : json).

(** The value of [x or 0] for [x] an [int], a [bool] or [None]. *)
Definition int_or_0 (x : json) : Z :=
  match x with
  | JInt z => z
  | JBool true => 1%Z
  | _ => 0%Z
  end.

(** Stable insertion by an integer key, and [l.sort(key=key)]. *)
Fixpoint insert_by {A : Type} (key : A -> Z) (x : A) (l : list A) : list A :=
  match l with
  | [] => [x]
  | y :: l' => if (key x <? key y)%Z then x :: y :: l' else y :: insert_by key x l'
  end.

Definition sort_by {A : Type} (key : A -> Z) (l : list A) : list A :=
  fold_left (fun acc x => insert_by key x acc) l [].

(** The sort key of [auto_pick_song] and of [do_search]:
    [abs((x.get("duration_ms") or 0) - target_ms)]. *)
Definition distance (target_ms : Z) (x : song) : Z :=
  Z.abs (int_or_0 (duration_ms x) - target_ms).

Section Downloader.

(** The service: the response to a search for [keywords] with a limit, and
    the response to a lyric request for a song id. *)
Variable search_get : str -> Z -> response.
Variable lyric_get : json -> response.

Definition search_songs (keywords : str) (limit : Z) : list song :=
  match search_get keywords (Z.max 1 (Z.min limit 50)) with
  | Failed => []
  | Json data =>
      match and_then (songs_of data) (fun songs =>
            and_then (iterate songs) (for_each song_record)) with
      | Some results => results
      | None => []                               (* except Exception: return [] *)
      end
  end.

Definition get_lyric_by_id (song_id : json) : json :=
  match lyric_get song_id with
  | Failed => JNull
  | Json data =>
      match and_then (dict_get (or_else data (JObj [])) "lrc" (JObj [])) (fun lrc =>
            dict_get (or_else lrc (JObj [])) "lyric" JNull) with
      | Some lyric => lyric
      | None => JNull                            (* except Exception: return None *)
      end
  end.

Definition auto_pick_song (keyword : str) (local_duration_sec : option float)
  : result (option song) :=
  match search_songs keyword 20 with
  | [] => Ok None
  | first :: rest =>
      match local_duration_sec with
      | None => Ok (Some first)
      | Some d =>
          match int_of_float (d * 1000)%float with
          | None => Raise PyException
          | Some target_ms =>
              Ok (hd_error (sort_by (distance target_ms) (first :: rest)))
          end
      end
  end.

Definition download_lrc (title_only : str) (local_duration_sec : option float)
  : result (json * option song) :=
  match auto_pick_song title_only local_duration_sec with
  | Raise e => Raise e
  | Ok None => Ok (JNull, None)
  | Ok (Some chosen) =>
      Ok (if truthy (id chosen) then get_lyric_by_id (id chosen) else JNull, Some chosen)
  end.

(** The view layer, as in [ViewLayer]. *)
Variable blockCount : QTextEdit -> nat.
Variable scroll_target : QTextEdit -> nat -> align -> Z + raised.
Variable top_block : QTextEdit -> Z + raised.
Variable relayout : QTextEdit -> Z.

(** [download_lyric_auto] up to the two [setPlainText] calls; the file
    write and the snapshot that follow touch no field of the window.
    [current_audio] is [None] when no audio file is selected, else what
    [extract_metadata] returned for it: title, artist, duration and whether
    the title was guessed from the file name. *)
Definition download_lyric_auto (fuel : nat)
  (current_audio : option (str * str * option float * bool)) : M unit :=
  match current_audio with
  | None => ret tt
  | Some (title, artist, duration, fuzzy) =>
      if negb (nonempty title) then ret tt
      else
        let used_match_tag := if fuzzy then py "fuzzy" else py "id3" in
        match download_lrc title duration with
        | Raise PyException => ret tt            (* except Exception: ...; return *)
        | Raise PyBaseException => raise PyBaseException
        | Ok (_, None) => ret tt
        | Ok (lrc, Some chosen) =>
            if negb (truthy lrc) then ret tt
            else
              match build_lrc_header title artist (option_map PyFloat duration)
                      used_match_tag with
              | None => raise PyException
              | Some header =>
                  match or_else lrc (JStr []) with
                  | JStr l =>
                      setPlainText blockCount scroll_target top_block relayout fuel
                        editor_original (full_lrc header l) ;;;
                      setPlainText blockCount scroll_target top_block relayout fuel
                        editor (full_lrc header l)
                  | _ => raise PyException       (* str + non-str: TypeError *)
                  end
              end
        end
  end.

End Downloader.

(** ** A concrete service *)

Definition entry_of (sid : Z) (title artist : string) (duration : json) : json :=
  JObj [(py "id", JInt sid); (py "name", JStr (py title));
        (py "artists", JArr [JObj [(py "name", JStr (py artist))]]);
        (py "duration", duration)].

(** A search response that lists three songs, of 250, 203 and 204 seconds. *)
Definition three_songs : json :=
  JObj [(py "result",
         JObj [(py "songs",
                JArr [entry_of 5 "Song (live)" "Me" (JInt 250000);
                      entry_of 7 "Song" "Me" (JInt 203000);
                      entry_of 9 "Song" "You" (JInt 204000)])])].

(** The same list with an entry that is not a dict. *)
Definition three_songs_and_null : json :=
  JObj [(py "result",
         JObj [(py "songs",
                JArr [entry_of 5 "Song (live)" "Me" (JInt 250000);
                      entry_of 7 "Song" "Me" (JInt 203000);
                      JNull;
                      entry_of 9 "Song" "You" (JInt 204000)])])].

Definition searching (data : json) (keywords : str) (limit : Z) : response := Json data.

(** A lyric service that has the lyric of song 7 only. *)
Definition lyric_of_7 (song_id : json) : response :=
  match song_id with
  | JInt 7 => Json (JObj [(py "lrc", JObj [(py "lyric", JStr scenario_A)])])
  | _ => Json (JObj [(py "nolyric", JBool true)])
  end.

(** ** Stored flags: [_to_bool] *)

(** A stored setting as [QSettings.value] hands it back: nothing, a
    [bool], a [str] or an [int]. *)
Inductive setting : Type :=
| SNone
| SBool (b : bool)
| SStr (s : str)
| SInt (z : Z).

(** [str.isspace] on code points below 256. *)
Definition is_space (c : ascii) : bool :=
  let n := nat_of_ascii c in
  ((9 <=? n) && (n <=? 13)) || ((28 <=? n) && (n <=? 32)) || (n =? 133) || (n =? 160).

Fixpoint lstrip (s : str) : str :=
  match s with
  | [] => []
  | c :: s' => if is_space c then lstrip s' else s
  end.

(** [s.strip()] *)
Definition strip (s : str) : str := rev (lstrip (rev (lstrip s))).

(** [str.lower] on one code point below 256: the letters A to Z, and the
    accented capitals 192 to 222 but for the multiplication sign. *)
Definition lower_char (c : ascii) : ascii :=
  let n := nat_of_ascii c in
  if ((65 <=? n) && (n <=? 90)) || ((192 <=? n) && (n <=? 222) && negb (n =? 215))
  then ascii_of_nat (n + 32) else c.

(** [s.lower()] *)
Definition lower (s : str) : str := map lower_char s.

(** [str(v)] *)
Definition str_of (v : setting) : str :=
  match v with
  | SNone => py "None"
  | SBool true => py "True"
  | SBool false => py "False"
  | SStr s => s
  | SInt z => format_d 0 z
  end.

Definition _to_bool (v : setting) (default : bool) : bool :=
  match v with
  | SNone => default
  | SBool b => b
  | _ =>
      let s := lower (strip (str_of v)) in
      existsb (str_eqb s) [py "true"; py "1"; py "yes"; py "y"; py "t"]
  end.

(** Two texts that differ in letter case only. *)
Definition same_but_case (a b : str) : Prop := lower a = lower b.

(** ** What a highlight update shows *)

(** The format that [update_lrc_highlight] gives each view. *)
Definition format_of (v : view) : char_format :=
  match v with
  | editor => _highlight_format
  | editor_original => _highlight_format2
  end.

(** The view that a command addresses. *)
Definition command_view (c : command) : view :=
  match c with
  | Scroll v _ => v
  | Highlight v _ _ => v
  end.

(** A command of an update that resolved [line_no]: a scroll, or the
    highlight of that line in the format of its view. *)
Definition command_for (line_no : nat) (c : command) : Prop :=
  match c with
  | Scroll _ _ => True
  | Highlight v l f => l = line_no /\ f = format_of v
  end.

(** The index is the one rebuilt from the text of the editable view. *)
Definition in_sync (w : MainWindow) : Prop :=
  _lrc_index w = rebuild_index (plainText (w_editor w)).

(** ** The manual search: [do_search] of [manual_search_dialog] *)

Section ManualSearch.

Variable search_get : str -> Z -> response.
Variable lyric_get : json -> response.



End ManualSearch.


(** ** Stamping: the tag of [insert_timestamp_line]

    [mm], [ss] and [ms] are the integers that the function computes from
    the position of the player, [int(sec // 60)], [int(sec % 60)] and
    [int(round((sec - int(sec)) * 1000))]; what follows is the carry of a
    full thousand of milliseconds and the text of the tag. *)
Definition timestamp_tag (mm ss ms : Z) : str :=
  let '(mm, ss, ms) :=
    if (1000 <=? ms)%Z then
      let ms := (ms - 1000)%Z in
      let ss := (ss + 1)%Z in
      if (60 <=? ss)%Z then ((mm + 1)%Z, (ss - 60)%Z, ms) else (mm, ss, ms)
    else (mm, ss, ms) in
  py "[" ++ format_d 2 mm ++ py ":" ++ format_d 2 ss ++ py "." ++ format_d 3 ms ++ py "]".

(** * Properties *)

(** ** The matcher on the timestamp pattern *)

Lemma consumed_app (pre rest : str) : consumed (pre ++ rest) rest = pre.
Proof.
  unfold consumed. rewrite length_app.
  replace (List.length pre + List.length rest - List.length rest)
    with (List.length pre + 0) by lia.
  rewrite firstn_app_2. cbn. apply app_nil_r.
Qed.

Lemma consumed_1 (a : ascii) (r : str) : consumed (a :: r) r = [a].
Proof. exact (consumed_app [a] r). Qed.

Lemma consumed_2 (a b : ascii) (r : str) : consumed (a :: b :: r) r = [a; b].
Proof. exact (consumed_app [a; b] r). Qed.

Lemma consumed_3 (a b c : ascii) (r : str) : consumed (a :: b :: c :: r) r = [a; b; c].
Proof. exact (consumed_app [a; b; c] r). Qed.

Arguments consumed : simpl never.

Arguments is_digit : simpl never.

Lemma is_digit_colon : is_digit ":" = false.
Proof. reflexivity. Qed.

Lemma is_digit_dot : is_digit "." = false.
Proof. reflexivity. Qed.

Lemma is_digit_close : is_digit "]" = false.
Proof. reflexivity. Qed.

Lemma digits_cons (c : ascii) (s : str) :
  digits (c :: s) <-> is_digit c = true /\ digits s.
Proof.
  unfold digits. split.
  - intros H. inversion H; subst. auto.
  - intros [H1 H2]. constructor; assumption.
Qed.

Lemma digits_nil : digits [].
Proof. constructor. Qed.

(** Unpack [digits] of a list of known length into facts on its characters. *)
Ltac digit_facts :=
  repeat match goal with
  | H : digits (_ :: _) |- _ =>
      apply digits_cons in H; let H1 := fresh "Hd" in destruct H as (H1 & H)
  | H : digits [] |- _ => clear H
  end.

(** Run the matcher on an input whose characters are known to be digits or
    are literal. *)
Ltac run_matcher :=
  unfold match_at, TAG;
  repeat (cbn;
          repeat match goal with
          | H : is_digit ?c = _ |- context [is_digit ?c] => rewrite H
          end;
          rewrite ?is_digit_colon, ?is_digit_dot, ?is_digit_close);
  rewrite ?consumed_1, ?consumed_2, ?consumed_3.

(** Every well-formed tag is matched where it starts, whatever follows it,
    and the groups are its three fields. *)
Lemma match_at_TAG_complete (t : time_tag) (rest : str) :
  well_formed t -> match_at TAG (tag_text t ++ rest) = Some (groups_of t, rest).
Proof.
  destruct t as [mm ss fr]. unfold well_formed, tag_text, groups_of.
  cbn [minutes seconds fraction].
  intros (Hm & Hml & Hs & Hsl & Hf).
  destruct ss as [|c [|d [|? ?]]]; cbn in Hsl; try lia.
  destruct mm as [|a [|b [|? ?]]]; cbn in Hml; try lia;
    (destruct fr as [f|];
     [ destruct Hf as (Hf & Hfl);
       destruct f as [|e [|f1 [|f2 [|? ?]]]]; cbn in Hfl; try lia
     | ]);
    digit_facts; run_matcher; reflexivity.
Qed.

Ltac split_input H :=
  match type of H with
  | context [if Ascii.eqb ?c ?l then _ else _] =>
      let E := fresh "E" in
      destruct (Ascii.eqb c l) eqn:E;
      [apply Ascii.eqb_eq in E; subst c | try discriminate H]
  | context [if is_digit ?c then _ else _] =>
      let E := fresh "D" in
      destruct (is_digit c) eqn:E; try discriminate E; try discriminate H
  | context [match ?s with [] => _ | _ :: _ => _ end] =>
      is_var s; destruct s; [try discriminate H|]
  end.

Lemma digits_intro_1 (a : ascii) : is_digit a = true -> digits [a].
Proof. intros. apply digits_cons. split; [assumption | apply digits_nil]. Qed.

Lemma digits_intro_2 (a b : ascii) :
  is_digit a = true -> is_digit b = true -> digits [a; b].
Proof. intros. apply digits_cons. split; [assumption | now apply digits_intro_1]. Qed.

Lemma digits_intro_3 (a b c : ascii) :
  is_digit a = true -> is_digit b = true -> is_digit c = true -> digits [a; b; c].
Proof. intros. apply digits_cons. split; [assumption | now apply digits_intro_2]. Qed.

(** Conversely, a match of the pattern is the text of a well-formed tag. *)
Lemma match_at_TAG_sound (s : str) (g : groups) (rest : str) :
  match_at TAG s = Some (g, rest) ->
  exists t, well_formed t /\ s = tag_text t ++ rest /\ g = groups_of t.
Proof.
  unfold match_at, TAG. intros H. cbn in H.
  repeat (split_input H; cbn in H).
  all: try discriminate H.
  all: rewrite ?consumed_1, ?consumed_2, ?consumed_3 in H.
  all: injection H as <- <-.
  all: match goal with
       | |- exists t, _ /\ _ /\ [(3, ?f); (2, ?s); (1, ?m)] = _ =>
           exists (mkTag m s (Some f))
       | |- exists t, _ /\ _ /\ [(2, ?s); (1, ?m)] = _ =>
           exists (mkTag m s None)
       end.
  all: unfold well_formed, tag_text, groups_of; cbn.
  all: repeat split;
       auto using digits_intro_1, digits_intro_2, digits_intro_3; lia.
Qed.

Lemma groups_of_inj (t t' : time_tag) : groups_of t = groups_of t' -> t = t'.
Proof.
  destruct t as [m s [f|]], t' as [m' s' [f'|]]; unfold groups_of; cbn;
    intros H; inversion H; subst; reflexivity.
Qed.

(** At a given position a line holds at most one tag. *)
Lemma tag_at_unique (line : str) (p : nat) (t t' : time_tag) :
  tag_at line p t -> tag_at line p t' -> t = t'.
Proof.
  intros (Hw & pre & post & E & L) (Hw' & pre' & post' & E' & L').
  assert (pre' = pre /\ tag_text t' ++ post' = tag_text t ++ post) as [-> E2].
  { rewrite E' in E. apply app_eq_app in E.
    destruct E as [l [[E1 E2] | [E1 E2]]];
      assert (l = []) by
        (apply (f_equal (@List.length ascii)) in E1; rewrite length_app in E1;
         apply length_zero_iff_nil; lia);
      subst l; rewrite app_nil_r in E1; cbn in E2; subst; auto. }
  pose proof (match_at_TAG_complete t post Hw) as M.
  pose proof (match_at_TAG_complete t' post' Hw') as M'.
  rewrite E2 in M'. rewrite M in M'. injection M' as G _.
  symmetry. now apply groups_of_inj.
Qed.

(** [search] returns the leftmost tag of the line. *)
Lemma search_TAG_some (line : str) (g : groups) (rest : str) :
  search TAG line = Some (g, rest) ->
  exists pre t,
    leftmost_tag line (List.length pre) t /\ g = groups_of t /\
    line = pre ++ tag_text t ++ rest.
Proof.
  revert g rest. induction line as [|c line IH]; intros g rest H.
  - cbn [search] in H. destruct (match_at TAG []) as [[g' r']|] eqn:M; [|discriminate].
    discriminate M.
  - cbn [search] in H. destruct (match_at TAG (c :: line)) as [[g' r']|] eqn:M.
    + injection H as -> ->.
      apply match_at_TAG_sound in M. destruct M as (t & Hw & E & G).
      exists [], t. split; [split|split]; auto.
      * split; [assumption|]. exists [], rest. auto.
      * cbn. intros p' t' Hp. lia.
    + apply IH in H. destruct H as (pre & t & ((Hw & pre0 & post0 & E0 & L0) & Hmin) & G & E).
      exists (c :: pre), t. split; [split|split]; auto.
      * split; [assumption|]. exists (c :: pre), rest. cbn. rewrite E at 1. auto.
      * cbn [List.length]. intros p' t' Hp (Hw' & pre' & post' & E' & L').
        destruct pre' as [|c' pre'].
        { change (c :: line = tag_text t' ++ post') in E'.
          rewrite E', (match_at_TAG_complete t' post' Hw') in M. discriminate M. }
        change (c :: line = c' :: (pre' ++ tag_text t' ++ post')) in E'.
        injection E' as -> E'.
        apply (Hmin (List.length pre') t').
        { cbn in L'. lia. }
        split; [assumption|]. exists pre', post'. auto.
      * cbn. now rewrite E at 1.
Qed.

Lemma search_TAG_none (line : str) :
  search TAG line = None -> forall p t, ~ tag_at line p t.
Proof.
  induction line as [|c line IH]; intros H p t (Hw & pre & post & E & L).
  - destruct pre; [|discriminate E]. cbn in E.
    destruct t as [m s f]; discriminate E.
  - cbn [search] in H. destruct (match_at TAG (c :: line)) as [[g' r']|] eqn:M; [discriminate|].
    destruct pre as [|c' pre].
    + change (c :: line = tag_text t ++ post) in E.
      rewrite E, (match_at_TAG_complete t post Hw) in M. discriminate M.
    + change (c :: line = c' :: (pre ++ tag_text t ++ post)) in E.
      injection E as -> E.
      apply (IH H (List.length pre) t). split; [assumption|]. exists pre, post. auto.
Qed.

Lemma search_TAG_leftmost (line : str) (p : nat) (t : time_tag) :
  leftmost_tag line p t -> exists rest, search TAG line = Some (groups_of t, rest).
Proof.
  intros [Ht Hmin].
  destruct (search TAG line) as [[g rest]|] eqn:S.
  - apply search_TAG_some in S. destruct S as (pre & t' & [Ht' Hmin'] & G & E).
    assert (List.length pre = p) as L.
    { destruct (Nat.lt_trichotomy (List.length pre) p) as [Lt | [Eq | Gt]]; auto.
      - exfalso. exact (Hmin _ _ Lt Ht').
      - exfalso. exact (Hmin' _ _ Gt Ht). }
    rewrite L in Ht'. rewrite (tag_at_unique line p t t' Ht Ht'), G. eauto.
  - exfalso. exact (search_TAG_none line S p t Ht).
Qed.

(** ** Order of binary64 values

    The comparisons of [PrimFloat] are those of [SFcompare] on the decoded
    values; a value compares with itself exactly when it is not a NaN. *)

Lemma SFleb_trans (a b c : spec_float) :
  SFleb a b = true -> SFleb b c = true -> SFleb a c = true.
Proof.
  unfold SFleb.
  destruct a as [sa|sa| |sa ma ea], b as [sb|sb| |sb mb eb], c as [sc|sc| |sc mc ec];
    cbn; try discriminate; try reflexivity;
    repeat match goal with s : bool |- _ => destruct s end;
    cbn; try discriminate; try reflexivity.
  all: rewrite ?Pos.compare_cont_spec; cbn.
  all: destruct (Z.compare_spec ea eb); destruct (Z.compare_spec eb ec);
       destruct (Z.compare_spec ea ec); try discriminate; try reflexivity; try lia; subst.
  all: destruct (Pos.compare_spec ma mb); destruct (Pos.compare_spec mb mc);
       destruct (Pos.compare_spec ma mc); cbn; try discriminate; try reflexivity; try lia.
Qed.

Lemma SFltb_leb_trans (a b c : spec_float) :
  SFltb a b = true -> SFleb b c = true -> SFltb a c = true.
Proof.
  unfold SFleb, SFltb.
  destruct a as [sa|sa| |sa ma ea], b as [sb|sb| |sb mb eb], c as [sc|sc| |sc mc ec];
    cbn; try discriminate; try reflexivity;
    repeat match goal with s : bool |- _ => destruct s end;
    cbn; try discriminate; try reflexivity.
  all: rewrite ?Pos.compare_cont_spec; cbn.
  all: destruct (Z.compare_spec ea eb); destruct (Z.compare_spec eb ec);
       destruct (Z.compare_spec ea ec); try discriminate; try reflexivity; try lia; subst.
  all: destruct (Pos.compare_spec ma mb); destruct (Pos.compare_spec mb mc);
       destruct (Pos.compare_spec ma mc); cbn; try discriminate; try reflexivity; try lia.
Qed.

Lemma SFcompare_total (a b : spec_float) :
  SFleb a a = true -> SFleb b b = true -> SFltb a b = false -> SFleb b a = true.
Proof.
  unfold SFleb, SFltb.
  destruct a as [sa|sa| |sa ma ea], b as [sb|sb| |sb mb eb];
    cbn; try discriminate; try reflexivity;
    repeat match goal with s : bool |- _ => destruct s end;
    cbn; try discriminate; try reflexivity.
  all: rewrite ?Pos.compare_cont_spec; cbn.
  all: intros _ _; destruct (Z.compare_spec ea eb); destruct (Z.compare_spec eb ea);
       try discriminate; try reflexivity; try lia; subst.
  all: destruct (Pos.compare_spec ma mb); destruct (Pos.compare_spec mb ma);
       cbn; try discriminate; try reflexivity; try lia.
Qed.

Lemma SFleb_ltb_false (a b : spec_float) : SFleb a b = true -> SFltb b a = false.
Proof.
  unfold SFleb, SFltb.
  destruct a as [sa|sa| |sa ma ea], b as [sb|sb| |sb mb eb];
    cbn; try discriminate; try reflexivity;
    repeat match goal with s : bool |- _ => destruct s end;
    cbn; try discriminate; try reflexivity.
  all: rewrite ?Pos.compare_cont_spec; cbn.
  all: destruct (Z.compare_spec ea eb); destruct (Z.compare_spec eb ea);
       try discriminate; try reflexivity; try lia; subst.
  all: destruct (Pos.compare_spec ma mb); destruct (Pos.compare_spec mb ma);
       cbn; try discriminate; try reflexivity; try lia.
Qed.

Lemma SFleb_refl_l (a b : spec_float) : SFleb a b = true -> SFleb a a = true.
Proof.
  unfold SFleb.
  destruct a as [sa|sa| |sa ma ea], b as [sb|sb| |sb mb eb];
    cbn; try discriminate; try reflexivity;
    repeat match goal with s : bool |- _ => destruct s end;
    cbn; try discriminate; try reflexivity.
  all: intros _; rewrite ?Pos.compare_cont_spec, Z.compare_refl, Pos.compare_refl; reflexivity.
Qed.

Section FloatOrder.

Local Open Scope float_scope.

Lemma leb_trans (a b c : float) : (a <=? b) = true -> (b <=? c) = true -> (a <=? c) = true.
Proof. rewrite !leb_spec. apply SFleb_trans. Qed.

Lemma ltb_leb_trans (a b c : float) : (a <? b) = true -> (b <=? c) = true -> (a <? c) = true.
Proof. rewrite !ltb_spec, leb_spec. apply SFltb_leb_trans. Qed.

Lemma ltb_leb (a b : float) : (a <? b) = true -> (a <=? b) = true.
Proof.
  rewrite ltb_spec, leb_spec. unfold SFltb, SFleb.
  destruct (SFcompare (Prim2SF a) (Prim2SF b)) as [[]|]; auto.
Qed.

Lemma eqb_leb (a b : float) : (a =? b) = true -> (a <=? b) = true.
Proof.
  rewrite eqb_spec, leb_spec. unfold SFeqb, SFleb.
  destruct (SFcompare (Prim2SF a) (Prim2SF b)) as [[]|]; auto.
Qed.

Lemma leb_cases (a b : float) : (a <=? b) = true -> (a <? b) = true \/ (a =? b) = true.
Proof.
  rewrite eqb_spec, leb_spec, ltb_spec. unfold SFeqb, SFleb, SFltb.
  destruct (SFcompare (Prim2SF a) (Prim2SF b)) as [[]|]; auto.
Qed.

(** Two numbers are comparable one way or the other. *)
Lemma ltb_false_leb (a b : float) :
  (a <=? a) = true -> (b <=? b) = true -> (a <? b) = false -> (b <=? a) = true.
Proof. rewrite !leb_spec, ltb_spec. apply SFcompare_total. Qed.

Lemma leb_ltb_false (a b : float) : (a <=? b) = true -> (b <? a) = false.
Proof. rewrite leb_spec, ltb_spec. apply SFleb_ltb_false. Qed.

Lemma leb_number_r (a b : float) : (a <=? b) = true -> (b <=? b) = true.
Proof.
  intros H. destruct (b <? a) eqn:E.
  - pose proof (leb_ltb_false _ _ H). congruence.
  - rewrite leb_spec in *. revert H. unfold SFleb.
    destruct (Prim2SF a) as [sa|sa| |sa ma ea], (Prim2SF b) as [sb|sb| |sb mb eb];
      cbn; try discriminate; try reflexivity;
      repeat match goal with s : bool |- _ => destruct s end;
      cbn; try discriminate; try reflexivity.
    all: intros _; rewrite ?Pos.compare_cont_spec, Z.compare_refl, Pos.compare_refl; reflexivity.
Qed.

End FloatOrder.

(** ** Offsets *)

Lemma digit_value_le (c : ascii) : is_digit c = true -> digit_value c <= 9.
Proof.
  unfold is_digit, digit_value. intros H. apply andb_prop in H. destruct H as [_ H].
  apply Nat.leb_le in H. lia.
Qed.

Lemma fold_int_bound (s : str) (a : nat) :
  digits s ->
  fold_left (fun n c => 10 * n + digit_value c) s a < (a + 1) * 10 ^ List.length s.
Proof.
  revert a. induction s as [|c s IH]; intros a D; cbn [fold_left List.length Nat.pow].
  - lia.
  - apply digits_cons in D. destruct D as [Dc D].
    pose proof (digit_value_le c Dc) as Lc. specialize (IH (10 * a + digit_value c) D).
    nia.
Qed.

(** A string of [n] digits reads as a number below [10^n]. *)
Lemma int_bound (s : str) : digits s -> int s < 10 ^ List.length s.
Proof. intros D. pose proof (fold_int_bound s 0 D). unfold int. lia. Qed.

(** The table covers every offset the pattern can produce: two digits of
    minutes and two of seconds give 0 to 99*60 + 99 whole seconds. *)
Lemma offsets_ok_all : forallb (offsets_ok fraction_table) (seq 0 (99 * 60 + 100)) = true.
Proof. vm_compute. reflexivity. Qed.

(** The offset computed from the groups of a tag, and the offset that the
    specification assigns to the tag, as entries of the table. *)
Lemma tag_offsets_in_table (t : time_tag) :
  well_formed t ->
  exists n p, n < 99 * 60 + 100 /\ In p fraction_table /\
              offset_of_match (groups_of t) = (of_nat n + fst p)%float /\
              offset_seconds t = (of_nat n + snd p)%float.
Proof.
  destruct t as [m s fr]. unfold well_formed, offset_of_match, offset_seconds,
    fraction_value, groups_of. cbn [minutes seconds fraction].
  intros (Hm & Hml & Hs & Hsl & Hf).
  pose proof (int_bound m Hm) as Bm. pose proof (int_bound s Hs) as Bs.
  assert (int m < 100) as Bm'.
  { destruct Hml as [L1 L2]. destruct (List.length m) as [|[|[|?]]]; cbn in Bm; lia. }
  assert (int s < 100) as Bs' by (rewrite Hsl in Bs; cbn in Bs; lia).
  exists (int m * 60 + int s).
  destruct fr as [f|].
  - destruct Hf as (Hf & Hl). pose proof (int_bound f Hf) as Bf.
    destruct f as [|e [|f1 [|f2 [|? ?]]]]; cbn [List.length] in Hl, Bf; try lia;
      cbn [group app Nat.eqb List.length firstn].
    + exists ((of_nat (int [e]) / 10)%float, (of_nat (int [e]) * 0.1)%float).
      split; [lia|]. split; [|split; reflexivity].
      unfold fraction_table. apply in_or_app. left.
      apply in_map_iff. exists (int [e]). split; [reflexivity|].
      apply in_seq. cbn [Nat.pow Nat.mul Nat.add] in Bf. lia.
    + exists ((of_nat (int [e; f1]) / 100)%float, (of_nat (int [e; f1]) * 0.01)%float).
      split; [lia|]. split; [|split; reflexivity].
      unfold fraction_table. apply in_or_app. right. apply in_or_app. left.
      apply in_map_iff. exists (int [e; f1]). split; [reflexivity|].
      apply in_seq. cbn [Nat.pow Nat.mul Nat.add] in Bf. lia.
    + exists ((of_nat (int [e; f1; f2]) / 1000)%float, (of_nat (int [e; f1; f2]) * 0.001)%float).
      split; [lia|]. split; [|split; reflexivity].
      unfold fraction_table. apply in_or_app. right. apply in_or_app. right.
      apply in_map_iff. exists (int [e; f1; f2]). split; [reflexivity|].
      apply in_seq. cbn [Nat.pow Nat.mul Nat.add] in Bf. lia.
  - exists ((of_nat 0 / 10)%float, (of_nat 0 * 0.1)%float).
    split; [lia|]. split; [|split; reflexivity].
    unfold fraction_table. apply in_or_app. left.
    apply in_map_iff. exists 0. split; [reflexivity|]. apply in_seq. lia.
Qed.

(** The offset of a tag is not negative, hence a number, and it is within
    the tolerance of the offset that the specification assigns to the tag. *)
Lemma tag_offset_facts (t : time_tag) :
  well_formed t ->
  (0 <=? offset_of_match (groups_of t))%float = true /\
  within_tolerance (offset_of_match (groups_of t)) (offset_seconds t).
Proof.
  intros W. destruct (tag_offsets_in_table t W) as (n & p & Ln & Ip & -> & ->).
  pose proof offsets_ok_all as A. rewrite forallb_forall in A.
  assert (In n (seq 0 (99 * 60 + 100))) as In_n by (apply in_seq; lia).
  specialize (A n In_n). unfold offsets_ok in A. rewrite forallb_forall in A.
  specialize (A p Ip). apply andb_prop in A. exact A.
Qed.

Lemma line_entry_leftmost (i : nat) (line : str) (p : nat) (t : time_tag) :
  leftmost_tag line p t -> line_entry i line = [(offset_of_match (groups_of t), i)].
Proof.
  intros H. unfold line_entry.
  destruct (search_TAG_leftmost line p t H) as [rest ->]. reflexivity.
Qed.

Lemma line_entry_inv (i : nat) (line : str) (e : entry) :
  In e (line_entry i line) ->
  exists p t, leftmost_tag line p t /\ e = (offset_of_match (groups_of t), i).
Proof.
  unfold line_entry. destruct (search TAG line) as [[g rest]|] eqn:S; [|intros []].
  intros [<- | []]. apply search_TAG_some in S.
  destruct S as (pre & t & L & -> & _). eauto.
Qed.

Lemma line_entry_length (i : nat) (line : str) : List.length (line_entry i line) <= 1.
Proof. unfold line_entry. destruct (search TAG line) as [[g rest]|]; cbn; lia. Qed.

Lemma line_entry_snd (i : nat) (line : str) (e : entry) :
  In e (line_entry i line) -> snd e = i.
Proof.
  unfold line_entry. destruct (search TAG line) as [[g rest]|]; [|intros []].
  intros [<- | []]. reflexivity.
Qed.

(** ** The scan over the lines *)

Lemma collect_flat_map (ls : list (nat * str)) (acc : list entry) :
  collect ls acc = acc ++ entries_of ls.
Proof.
  revert acc. induction ls as [|[i line] ls IH]; intros acc; cbn.
  - now rewrite app_nil_r.
  - rewrite IH, <- app_assoc. reflexivity.
Qed.

Lemma scan_entries_flat_map (text : str) :
  scan_entries text = entries_of (enumerate (splitlines text)).
Proof. unfold scan_entries. now rewrite collect_flat_map. Qed.

Lemma In_entries_of_enumerate (e : entry) (lines : list str) (k : nat) :
  In e (entries_of (enumerate_from k lines)) <->
  exists i line, nth_error lines i = Some line /\ In e (line_entry (k + i) line).
Proof.
  revert k. induction lines as [|l lines IH]; intros k; cbn.
  - split; [intros [] | intros (i & line & H & _); destruct i; discriminate H].
  - rewrite in_app_iff, IH. split.
    + intros [H | (i & line & H1 & H2)].
      * exists 0, l. rewrite Nat.add_0_r. auto.
      * exists (S i), line. rewrite Nat.add_succ_r. auto.
    + intros (i & line & H1 & H2). destruct i as [|i]; cbn in H1.
      * injection H1 as ->. rewrite Nat.add_0_r in H2. auto.
      * right. exists i, line. rewrite Nat.add_succ_r in H2. auto.
Qed.

(** The entries are appended in ascending order of line number. *)
Lemma entries_of_enumerate_ascending (lines : list str) (k : nat) :
  StronglySorted line_lt (entries_of (enumerate_from k lines)) /\
  Forall (fun e => k <= snd e) (entries_of (enumerate_from k lines)).
Proof.
  revert k. induction lines as [|l lines IH]; intros k; cbn.
  - split; constructor.
  - destruct (IH (S k)) as [IH1 IH2]. unfold line_entry at 1 3.
    destruct (search TAG l) as [[g rest]|]; cbn.
    + split.
      * constructor; [assumption|]. eapply Forall_impl; [|exact IH2].
        intros e He. cbn in He. unfold line_lt. cbn. lia.
      * constructor; [cbn; lia|]. eapply Forall_impl; [|exact IH2].
        intros e He. cbn in He. lia.
    + split; [assumption|]. eapply Forall_impl; [|exact IH2].
      intros e He. cbn in He. lia.
Qed.

Lemma scan_entries_ascending (text : str) : StronglySorted line_lt (scan_entries text).
Proof. rewrite scan_entries_flat_map. apply entries_of_enumerate_ascending. Qed.

(** ** The sort *)

Lemma insert_by_key_perm (x : entry) (l : list entry) :
  Permutation (insert_by_key x l) (x :: l).
Proof.
  induction l as [|y l IH]; cbn; [reflexivity|].
  destruct (fst x <? fst y)%float; [reflexivity|].
  rewrite IH. apply perm_swap.
Qed.

Lemma fold_insert_perm (l acc : list entry) :
  Permutation (fold_left (fun acc x => insert_by_key x acc) l acc) (acc ++ l).
Proof.
  revert acc. induction l as [|x l IH]; intros acc; cbn.
  - now rewrite app_nil_r.
  - rewrite IH, insert_by_key_perm. apply Permutation_middle.
Qed.

Lemma list_sort_perm (l : list entry) : Permutation (list_sort l) l.
Proof. unfold list_sort. apply (fold_insert_perm l []). Qed.

Lemma by_offset_then_line_le (a b : entry) : by_offset_then_line a b -> by_offset a b.
Proof.
  unfold by_offset_then_line, by_offset. intros [H | [H _]].
  - now apply ltb_leb.
  - now apply eqb_leb.
Qed.

(** Inserting an entry whose line number exceeds all those present keeps
    the list ordered by offset, then by line number. *)
Lemma insert_by_key_sorted (x : entry) (l : list entry) :
  is_number x -> Forall is_number l ->
  StronglySorted by_offset_then_line l ->
  Forall (fun y => line_lt y x) l ->
  StronglySorted by_offset_then_line (insert_by_key x l).
Proof.
  intros Nx. induction l as [|y l IH]; intros Nl S F; cbn.
  - repeat constructor.
  - inversion S as [|? ? S' Fy]; subst. inversion F as [|? ? Lyx F']; subst.
    inversion Nl as [|? ? Ny Nl']; subst.
    destruct (fst x <? fst y)%float eqn:E.
    + constructor; [assumption|].
      constructor; [left; assumption|].
      eapply Forall_impl; [|exact Fy]. intros z Hz. left.
      apply by_offset_then_line_le in Hz. unfold by_offset in Hz.
      eapply ltb_leb_trans; eassumption.
    + constructor; [now apply IH|].
      eapply Permutation_Forall; [symmetry; apply insert_by_key_perm|].
      constructor; [|assumption].
      pose proof (ltb_false_leb _ _ Nx Ny E) as Le.
      destruct (leb_cases _ _ Le) as [Lt | Eq]; [left; assumption|].
      right. split; assumption.
Qed.

Lemma fold_insert_sorted (l acc : list entry) :
  Forall is_number acc -> Forall is_number l ->
  StronglySorted by_offset_then_line acc ->
  StronglySorted line_lt l ->
  Forall (fun y => Forall (fun x => line_lt y x) l) acc ->
  StronglySorted by_offset_then_line (fold_left (fun acc x => insert_by_key x acc) l acc).
Proof.
  revert acc. induction l as [|x l IH]; intros acc Na Nl Sa Sl F; cbn; [assumption|].
  inversion Sl as [|? ? Sl' Fx]; subst. inversion Nl as [|? ? Nx Nl']; subst.
  apply IH; [| assumption | | assumption |].
  - eapply Permutation_Forall; [symmetry; apply insert_by_key_perm|].
    constructor; assumption.
  - apply insert_by_key_sorted; try assumption.
    eapply Forall_impl; [|exact F]. intros y Hy. now inversion Hy.
  - eapply Permutation_Forall; [symmetry; apply insert_by_key_perm|].
    constructor; [assumption|].
    eapply Forall_impl; [|exact F]. intros y Hy. now inversion Hy.
Qed.

Lemma list_sort_sorted (l : list entry) :
  Forall is_number l -> StronglySorted line_lt l ->
  StronglySorted by_offset_then_line (list_sort l).
Proof.
  intros N H. unfold list_sort.
  apply fold_insert_sorted; [constructor | assumption | constructor | assumption | constructor].
Qed.

(** Every offset the scan appends is a number. *)
Lemma scan_entries_numbers (text : str) : Forall is_number (scan_entries text).
Proof.
  apply Forall_forall. intros e H.
  rewrite scan_entries_flat_map in H. apply In_entries_of_enumerate in H.
  destruct H as (i & line & _ & H). apply line_entry_inv in H.
  destruct H as (p & t & [[W _] _] & ->). unfold is_number. cbn [fst].
  eapply leb_number_r. apply (tag_offset_facts t W).
Qed.

Lemma StronglySorted_impl {A : Type} (R R' : A -> A -> Prop) (l : list A) :
  (forall a b, R a b -> R' a b) -> StronglySorted R l -> StronglySorted R' l.
Proof.
  intros HR. induction 1 as [|a l S IH F]; constructor; [assumption|].
  eapply Forall_impl; [|exact F]. intros b. apply HR.
Qed.

(** ** The rebuild, statement by statement *)

Lemma update_at_length (r : nat) (f : list entry -> list entry) (h : list (list entry)) :
  List.length (update_at r f h) = List.length h.
Proof.
  revert r. induction h as [|l h IH]; intros [|r]; cbn; auto.
Qed.

Lemma deref_update_at_same (r : nat) (f : list entry -> list entry) (h : list (list entry)) :
  r < List.length h -> deref (update_at r f h) r = f (deref h r).
Proof.
  unfold deref. revert r. induction h as [|l h IH]; intros [|r] L; cbn in *; try lia; auto.
  apply IH. lia.
Qed.

Lemma deref_update_at_other (r r' : nat) (f : list entry -> list entry) (h : list (list entry)) :
  r' <> r -> deref (update_at r f h) r' = deref h r'.
Proof.
  unfold deref. revert r r'. induction h as [|l h IH]; intros [|r] [|r'] N; cbn; auto; try lia.
Qed.

Lemma observable_assign_fresh (st : pystate) : observable (assign_fresh st) = [].
Proof.
  unfold observable, assign_fresh, deref. cbn.
  rewrite app_nth2, Nat.sub_diag by lia. reflexivity.
Qed.

Lemma deref_assign_fresh (st : pystate) (r : nat) :
  r < List.length (heap st) -> deref (heap (assign_fresh st)) r = deref (heap st) r.
Proof. intros L. unfold assign_fresh, deref. cbn. now rewrite app_nth1. Qed.

Lemma observable_append_in_place (es : list entry) (st : pystate) :
  lrc_ref st < List.length (heap st) ->
  observable (append_in_place es st) = observable st ++ es.
Proof. intros V. unfold observable, append_in_place. cbn. now apply deref_update_at_same. Qed.

Lemma length_append_in_place (es : list entry) (st : pystate) :
  List.length (heap (append_in_place es st)) = List.length (heap st).
Proof. apply update_at_length. Qed.

Lemma deref_append_in_place_other (es : list entry) (st : pystate) (r' : nat) :
  r' <> lrc_ref st -> deref (heap (append_in_place es st)) r' = deref (heap st) r'.
Proof. intros N. unfold append_in_place. cbn. now apply deref_update_at_other. Qed.

Lemma last_cons_default {A : Type} (a : A) (l : list A) (d : A) :
  last (a :: l) d = last l a.
Proof.
  revert a d. induction l as [|b l IH]; intros a d; [reflexivity|].
  change (last (b :: l) d = last (b :: l) a). now rewrite !IH.
Qed.

(** What the loop leaves in the list object, and what it leaves alone. *)
Lemma loop_trace_spec (ls : list (nat * str)) (st : pystate) :
  lrc_ref st < List.length (heap st) ->
  observable (last (loop_trace ls st) st) = observable st ++ entries_of ls /\
  lrc_ref (last (loop_trace ls st) st) = lrc_ref st /\
  List.length (heap (last (loop_trace ls st) st)) = List.length (heap st) /\
  Forall (fun s => lrc_ref s = lrc_ref st /\
                   List.length (heap s) = List.length (heap st) /\
                   (exists r, observable st ++ entries_of ls = observable s ++ r) /\
                   (exists r, observable s = observable st ++ r) /\
                   forall r', r' <> lrc_ref st -> deref (heap s) r' = deref (heap st) r')
         (loop_trace ls st).
Proof.
  revert st. induction ls as [|[i line] ls IH]; intros st V.
  - cbn. rewrite app_nil_r. auto.
  - cbn [loop_trace].
    pose proof (observable_append_in_place (line_entry i line) st V) as O.
    pose proof (length_append_in_place (line_entry i line) st) as L.
    pose proof (deref_append_in_place_other (line_entry i line) st) as U.
    assert (lrc_ref (append_in_place (line_entry i line) st) = lrc_ref st) as R by reflexivity.
    remember (append_in_place (line_entry i line) st) as st' eqn:Est. clear Est.
    destruct (IH st') as (I1 & I2 & I3 & I4); [rewrite R, L; exact V|].
    rewrite last_cons_default.
    change (entries_of ((i, line) :: ls)) with (line_entry i line ++ entries_of ls).
    split; [rewrite I1, O, <- app_assoc; reflexivity|].
    split; [congruence|]. split; [congruence|].
    constructor.
    + split; [assumption|]. split; [assumption|]. split.
      * exists (entries_of ls). rewrite O, <- app_assoc. reflexivity.
      * split; [eexists; exact O | assumption].
    + eapply Forall_impl; [|exact I4].
      intros s (S1 & S2 & (r1 & S3) & (r2 & S4) & S5).
      split; [congruence|]. split; [congruence|]. split.
      * exists r1. rewrite <- S3, O, <- app_assoc. reflexivity.
      * split.
        -- exists (line_entry i line ++ r2). rewrite S4, O, <- app_assoc. reflexivity.
        -- intros r' N. rewrite S5 by congruence. now apply U.
Qed.

(** The index on return is the sorted scan of the text, whatever the state
    before. *)
Lemma rebuild_final_observable (text : str) (st : pystate) :
  observable (rebuild_final text st) = rebuild_index text.
Proof.
  unfold rebuild_final, rebuild_trace.
  set (st1 := assign_fresh st). set (ls := enumerate (splitlines text)).
  assert (lrc_ref st1 < List.length (heap st1)) as V
      by (unfold st1, assign_fresh; cbn; rewrite length_app; cbn; lia).
  destruct (loop_trace_spec ls st1 V) as (O & R & L & _).
  change (st1 :: loop_trace ls st1 ++ [sort_in_place (last (loop_trace ls st1) st1)])
    with ((st1 :: loop_trace ls st1) ++ [sort_in_place (last (loop_trace ls st1) st1)]).
  rewrite last_last. unfold observable at 1, sort_in_place. cbn [heap lrc_ref].
  rewrite deref_update_at_same by (rewrite L, R; exact V).
  fold (observable (last (loop_trace ls st1) st1)). rewrite O.
  unfold st1. rewrite observable_assign_fresh. cbn [app].
  unfold rebuild_index. now rewrite scan_entries_flat_map.
Qed.

Lemma line_lt_NoDup (l : list entry) : StronglySorted line_lt l -> NoDup (map snd l).
Proof.
  induction 1 as [|a l S IH F]; cbn; constructor; [|assumption].
  intros In. apply in_map_iff in In. destruct In as (b & E & Hb).
  rewrite Forall_forall in F. specialize (F b Hb). unfold line_lt in F. lia.
Qed.

Lemma leftmost_well_formed (line : str) (p : nat) (t : time_tag) :
  leftmost_tag line p t -> well_formed t.
Proof. intros [[H _] _]. exact H. Qed.

(** Membership in the rebuilt index, in terms of the lines of the text. *)
Lemma In_rebuild_index (e : entry) (text : str) :
  In e (rebuild_index text) <->
  exists i line, nth_error (splitlines text) i = Some line /\ In e (line_entry i line).
Proof.
  unfold rebuild_index. split.
  - intros H. apply (Permutation_in _ (list_sort_perm _)) in H.
    rewrite scan_entries_flat_map in H. apply In_entries_of_enumerate in H. exact H.
  - intros H. apply (Permutation_in _ (Permutation_sym (list_sort_perm _))).
    rewrite scan_entries_flat_map. apply In_entries_of_enumerate. exact H.
Qed.

(** ** Contents and order of the rebuilt index *)

(** C3. After a rebuild on text T from any earlier state, the index holds an
    entry (q, i) only if line i of T has a tag, q being the offset parsed from
    the leftmost tag of that line; every line with a tag has that entry; and
    no line number occurs twice.  Nothing else is in the index, in particular
    nothing of the index that the earlier state held. *)
Theorem C3_rebuild_contents (text : str) (st : pystate) :
  let ix := observable (rebuild_final text st) in
  (forall q i, In (q, i) ix ->
     exists line p t, nth_error (splitlines text) i = Some line /\
                      leftmost_tag line p t /\ q = parsed_offset t) /\
  (forall i line p t, nth_error (splitlines text) i = Some line ->
     leftmost_tag line p t -> In (parsed_offset t, i) ix) /\
  NoDup (map snd ix).
Proof.
  cbv zeta. rewrite rebuild_final_observable. split; [|split].
  - intros q i H. apply In_rebuild_index in H. destruct H as (j & line & N & H).
    pose proof (line_entry_snd _ _ _ H) as E. cbn in E. subst j.
    apply line_entry_inv in H. destruct H as (p & t & L & E).
    injection E as ->. exists line, p, t. auto.
  - intros i line p t N L.
    apply In_rebuild_index. exists i, line. split; [assumption|].
    rewrite (line_entry_leftmost i line p t L). now left.
  - unfold rebuild_index.
    eapply Permutation_NoDup.
    + apply Permutation_map. symmetry. apply list_sort_perm.
    + apply line_lt_NoDup. apply scan_entries_ascending.
Qed.

Lemma leftmost_tag_unique (line : str) (p p' : nat) (t t' : time_tag) :
  leftmost_tag line p t -> leftmost_tag line p' t' -> p = p' /\ t = t'.
Proof.
  intros [H Hmin] [H' Hmin'].
  assert (p = p') as <-.
  { destruct (Nat.lt_trichotomy p p') as [Lt | [Eq | Gt]]; auto.
    - exfalso. exact (Hmin' _ _ Lt H).
    - exfalso. exact (Hmin _ _ Gt H'). }
  split; [reflexivity|]. eapply tag_at_unique; eassumption.
Qed.

(** C4. The offset indexed for a line is the one parsed from its leftmost
    tag, and no other.  It is not negative, and it is within the tolerance
    1e-6 of minutes*60 + seconds + fraction, the fraction scaled by 0.1, 0.01
    or 0.001 for 1, 2 or 3 digits ([offset_seconds]); seconds are not
    range-checked. *)
Theorem C4_offset_value (text : str) (i : nat) (line : str) (p : nat) (t : time_tag) :
  nth_error (splitlines text) i = Some line ->
  leftmost_tag line p t ->
  In (parsed_offset t, i) (rebuild_index text) /\
  (forall q, In (q, i) (rebuild_index text) -> q = parsed_offset t) /\
  within_tolerance (parsed_offset t) (offset_seconds t) /\
  (0 <=? parsed_offset t)%float = true.
Proof.
  intros N L. split; [|split].
  - apply In_rebuild_index. exists i, line. split; [assumption|].
    rewrite (line_entry_leftmost i line p t L). now left.
  - intros q H. apply In_rebuild_index in H. destruct H as (j & line' & N' & H).
    pose proof (line_entry_snd _ _ _ H) as E. cbn in E. subst j.
    rewrite N in N'. injection N' as <-.
    apply line_entry_inv in H. destruct H as (p' & t' & L' & E).
    injection E as ->.
    destruct (leftmost_tag_unique _ _ _ _ _ L L') as [_ <-]. reflexivity.
  - destruct (tag_offset_facts t (leftmost_well_formed _ _ _ L)) as [H0 HT]. auto.
Qed.

Lemma leftmost_tag_at_start (t : time_tag) (post : str) :
  well_formed t -> leftmost_tag (tag_text t ++ post) 0 t.
Proof.
  intros W. split.
  - split; [assumption|]. exists [], post. auto.
  - intros p' t' Lt. lia.
Qed.

(** Seconds above 59 are taken as they stand: [01:75] is 135 seconds. *)
Lemma C4_offset_value_witness :
  nth_error (splitlines (py "[01:75]late")) 0 = Some (py "[01:75]late") /\
  leftmost_tag (py "[01:75]late") 0 (mkTag (py "01") (py "75") None) /\
  In (parsed_offset (mkTag (py "01") (py "75") None), 0)
     (rebuild_index (py "[01:75]late")) /\
  (forall q, In (q, 0) (rebuild_index (py "[01:75]late")) ->
             q = parsed_offset (mkTag (py "01") (py "75") None)) /\
  within_tolerance (parsed_offset (mkTag (py "01") (py "75") None))
                   (offset_seconds (mkTag (py "01") (py "75") None)) /\
  (0 <=? parsed_offset (mkTag (py "01") (py "75") None))%float = true.
Proof.
  assert (leftmost_tag (py "[01:75]late") 0 (mkTag (py "01") (py "75") None)) as L.
  { apply (leftmost_tag_at_start (mkTag (py "01") (py "75") None) (py "late")).
    unfold well_formed. cbn. repeat split; try lia; repeat constructor. }
  split; [reflexivity|]. split; [exact L|].
  apply (C4_offset_value (py "[01:75]late") 0 (py "[01:75]late") 0
           (mkTag (py "01") (py "75") None)); [reflexivity | exact L].
Defined.

Example offset_01_75 : rebuild_index (py "[01:75]late") = [(135%float, 0)].
Proof. vm_compute. reflexivity. Qed.

(** Scenario A of the specification. *)
Example scenario_A_index : rebuild_index scenario_A = [(1.5%float, 0); (3%float, 1)].
Proof. vm_compute. reflexivity. Qed.

(** The three spellings of one and a half seconds index the same offset. *)
Example fraction_variants :
  rebuild_index (py ("[00:01.5]a" ++ NL ++ "[00:01.50]b" ++ NL ++ "[00:01.500]c"))
  = [(1.5%float, 0); (1.5%float, 1); (1.5%float, 2)].
Proof. vm_compute. reflexivity. Qed.

(** Two tags on one line: the first wins. *)
Example first_tag_wins : rebuild_index (py "[00:01][00:05]Hi") = [(1%float, 0)].
Proof. vm_compute. reflexivity. Qed.

(** The quotient and the product of a fraction need not be the same
    binary64 value: 3 / 10.0 is 0.3 and 3 * 0.1 is 0.30000000000000004. *)
Example quotient_and_product_differ :
  parsed_offset (mkTag (py "00") (py "00") (Some (py "3"))) = 0.3%float /\
  offset_seconds (mkTag (py "00") (py "00") (Some (py "3"))) = 0.30000000000000004%float.
Proof. split; vm_compute; reflexivity. Qed.

(** C5. A fraction of more than three digits: the pattern asks for the
    closing bracket after at most three digits, so the tag does not match
    and the line is not indexed; the truncation [frac[:3]] is never reached
    with a longer fraction. *)
Theorem C5_long_fraction_not_indexed :
  search TAG (py "[00:01.1234]Hello") = None /\
  rebuild_index (py "[00:01.1234]Hello") = [].
Proof. split; vm_compute; reflexivity. Qed.

(** C6. After a rebuild from any text and any earlier state, the index is
    non-decreasing in offset, and of two entries with equal offsets the
    earlier one has the smaller line number. *)
Theorem C6_index_sorted (text : str) (st : pystate) :
  let ix := observable (rebuild_final text st) in
  StronglySorted by_offset ix /\ StronglySorted by_offset_then_line ix.
Proof.
  cbv zeta. rewrite rebuild_final_observable.
  assert (StronglySorted by_offset_then_line (rebuild_index text)) as H
      by (apply list_sort_sorted; [apply scan_entries_numbers | apply scan_entries_ascending]).
  split; [|exact H].
  eapply StronglySorted_impl; [|exact H]. apply by_offset_then_line_le.
Qed.

(** ** The rebuild is done in place *)

Lemma In_last {A : Type} (l : list A) (d : A) : l <> [] -> In (last l d) l.
Proof.
  induction l as [|a l IH]; intros N; [congruence|].
  destruct l as [|b l]; [now left|]. right. apply IH. discriminate.
Qed.

(** C7, as stated, fails: right after its first statement a rebuild shows an
    empty index, which is neither the old nor the new one. *)
Lemma C7_not_atomic :
  ~ (forall text st, lrc_ref st < List.length (heap st) ->
       Forall (old_or_new text st) (rebuild_trace text st)).
Proof.
  intros H. specialize (H scenario_A stale_state).
  assert (lrc_ref stale_state < List.length (heap stale_state)) as V by (cbn; lia).
  specialize (H V). unfold rebuild_trace in H. inversion H as [|s l Hs _]; subst.
  unfold old_or_new in Hs. rewrite observable_assign_fresh in Hs.
  destruct Hs as [Hs | Hs]; [discriminate Hs|].
  vm_compute in Hs. discriminate Hs.
Qed.

(** C7, amended.  A rebuild binds the attribute to a fresh list object, then
    fills and sorts that object in place.  In every state it passes through
    the attribute refers to the fresh object, the list object of the old
    index is as it was, and the observable index is a scan-order prefix of
    the new entries or the complete sorted index.  It starts empty and ends
    as the complete new index. *)
Theorem C7_rebuild_in_place (text : str) (st : pystate) :
  lrc_ref st < List.length (heap st) ->
  Forall (fun s => lrc_ref s = List.length (heap st) /\
                   deref (heap s) (lrc_ref st) = observable st /\
                   (prefix_of (observable s) (scan_entries text) \/
                    observable s = rebuild_index text))
         (rebuild_trace text st) /\
  observable (hd st (rebuild_trace text st)) = [] /\
  observable (rebuild_final text st) = rebuild_index text.
Proof.
  intros V. split; [|split].
  - unfold rebuild_trace.
    set (st1 := assign_fresh st). set (ls := enumerate (splitlines text)).
    assert (lrc_ref st1 = List.length (heap st)) as R1 by reflexivity.
    assert (lrc_ref st1 < List.length (heap st1)) as V1
        by (unfold st1, assign_fresh; cbn; rewrite length_app; cbn; lia).
    assert (deref (heap st1) (lrc_ref st) = observable st) as D1
        by (unfold st1; now rewrite deref_assign_fresh).
    assert (observable st1 = []) as O1 by apply observable_assign_fresh.
    destruct (loop_trace_spec ls st1 V1) as (O & R & L & F).
    constructor; [|apply Forall_app; split].
    + split; [assumption|]. split; [assumption|]. left. rewrite O1. now exists (scan_entries text).
    + eapply Forall_impl; [|exact F].
      intros s (S1 & S2 & (r1 & S3) & _ & S5). split; [congruence|]. split.
      * rewrite S5 by lia. exact D1.
      * left. exists r1. rewrite scan_entries_flat_map. fold ls.
        rewrite O1 in S3. exact S3.
    + constructor; [|constructor]. split; [cbn; congruence|]. split.
      * unfold sort_in_place. cbn [heap lrc_ref].
        rewrite deref_update_at_other by lia.
        destruct (loop_trace ls st1) as [|a l] eqn:El; [exact D1|].
        assert (In (last (a :: l) st1) (a :: l)) as I by (apply In_last; discriminate).
        rewrite Forall_forall in F. destruct (F _ I) as (_ & _ & _ & _ & S5).
        rewrite S5 by lia. exact D1.
      * right. pose proof (rebuild_final_observable text st) as E.
        unfold rebuild_final, rebuild_trace in E. fold st1 ls in E.
        change (st1 :: loop_trace ls st1 ++ [sort_in_place (last (loop_trace ls st1) st1)])
          with ((st1 :: loop_trace ls st1) ++ [sort_in_place (last (loop_trace ls st1) st1)]) in E.
        rewrite last_last in E. exact E.
  - apply observable_assign_fresh.
  - apply rebuild_final_observable.
Qed.

Lemma C7_rebuild_in_place_witness :
  lrc_ref stale_state < List.length (heap stale_state) /\
  (Forall (fun s => lrc_ref s = List.length (heap stale_state) /\
                    deref (heap s) (lrc_ref stale_state) = observable stale_state /\
                    (prefix_of (observable s) (scan_entries scenario_A) \/
                     observable s = rebuild_index scenario_A))
          (rebuild_trace scenario_A stale_state) /\
   observable (hd stale_state (rebuild_trace scenario_A stale_state)) = [] /\
   observable (rebuild_final scenario_A stale_state) = rebuild_index scenario_A).
Proof.
  split; [cbn; lia | apply (C7_rebuild_in_place scenario_A stale_state); cbn; lia].
Defined.

(** ** Lookup *)

Lemma scan_idx_leading (t : float) (l : list entry) (idx j : nat) :
  scan_idx t idx j l = match leading t l with 0 => idx | S k => j + k end.
Proof.
  revert idx j. induction l as [|[o n] l IH]; intros idx j; cbn; [reflexivity|].
  destruct (o <=? t)%float; [|reflexivity].
  rewrite IH. destruct (leading t l); lia.
Qed.

Lemma leading_le_length (t : float) (l : list entry) : leading t l <= List.length l.
Proof.
  induction l as [|e l IH]; cbn; [lia|]. destruct (fst e <=? t)%float; lia.
Qed.

(** The position that [update_lrc_highlight] reads is inside the index: the
    subscript never raises. *)
Lemma lookup_position (index : list entry) (t : float) :
  lookup index t =
  match index with
  | [] => None
  | _ :: _ => option_map snd (nth_error index (pred (leading t index)))
  end.
Proof.
  destruct index as [|e l]; [reflexivity|]. unfold lookup.
  rewrite scan_idx_leading. destruct (leading t (e :: l)); reflexivity.
Qed.

(** No line is resolved exactly when the index is empty. *)
Lemma lookup_none (index : list entry) (t : float) : lookup index t = None <-> index = [].
Proof.
  rewrite lookup_position. destruct index as [|e l]; [tauto|].
  split; [|discriminate]. intros H.
  pose proof (leading_le_length t (e :: l)) as L. cbn [List.length] in L.
  destruct (nth_error (e :: l) (pred (leading t (e :: l)))) eqn:N; [discriminate H|].
  apply nth_error_None in N. cbn [List.length] in N. lia.
Qed.

Lemma leading_mono (t1 t2 : float) (l : list entry) :
  (t1 <=? t2)%float = true -> leading t1 l <= leading t2 l.
Proof.
  intros Le. induction l as [|e l IH]; cbn; [lia|].
  destruct (fst e <=? t1)%float eqn:E1; [|lia].
  rewrite (leb_trans _ _ _ E1 Le). lia.
Qed.

(** Before the first offset the loop leaves [idx] at 0: the first entry is
    resolved. *)
Lemma lookup_before_first (e : entry) (l : list entry) (t : float) :
  (fst e <=? t)%float = false -> lookup (e :: l) t = Some (snd e).
Proof.
  intros Lt. rewrite lookup_position. cbn [leading]. rewrite Lt. reflexivity.
Qed.

Lemma leading_split (t : float) (l : list entry) :
  Forall (fun e => (fst e <=? t)%float = true) (firstn (leading t l) l) /\
  match nth_error l (leading t l) with
  | Some e => (fst e <=? t)%float = false
  | None => True
  end.
Proof.
  induction l as [|e l [IH1 IH2]]; cbn; [auto|].
  destruct (fst e <=? t)%float eqn:E; cbn; auto.
Qed.

Lemma StronglySorted_nth {A : Type} (R : A -> A -> Prop) (l : list A) (i j : nat) (a b : A) :
  StronglySorted R l -> i < j -> nth_error l i = Some a -> nth_error l j = Some b -> R a b.
Proof.
  intros HS. revert i j. induction HS as [|x l HS IH F]; intros i j Lt Ni Nj.
  - destruct i; discriminate Ni.
  - destruct j as [|j]; [lia|]. cbn in Nj. destruct i as [|i]; cbn in Ni.
    + injection Ni as ->. rewrite Forall_forall in F. apply F.
      eapply nth_error_In; eassumption.
    + apply (IH i j); [lia|assumption|assumption].
Qed.

(** On a sorted index, when some offset is at most [t], the resolved entry is
    the last one in the index whose offset is at most [t]. *)
Lemma lookup_greatest (index : list entry) (t : float) (k : nat) (e : entry) :
  StronglySorted by_offset index ->
  nth_error index k = Some e -> (fst e <=? t)%float = true ->
  exists k' e', k <= k' /\ nth_error index k' = Some e' /\
                (fst e' <=? t)%float = true /\
                lookup index t = Some (snd e') /\
                forall j e'', k' < j -> nth_error index j = Some e'' ->
                              (fst e'' <=? t)%float = false.
Proof.
  intros HS N Le. rewrite lookup_position.
  destruct index as [|e0 l]; [destruct k; discriminate N|].
  destruct (leading_split t (e0 :: l)) as [F B].
  remember (e0 :: l) as index eqn:Ei.
  assert (forall j b c, nth_error index j = Some b -> (fst b <=? t)%float = false ->
                        by_offset b c -> (fst c <=? t)%float = false) as Above.
  { intros j b c _ Fb R. destruct (fst c <=? t)%float eqn:Ec; [|reflexivity].
    unfold by_offset in R. rewrite (leb_trans _ _ _ R Ec) in Fb. discriminate Fb. }
  assert (k < leading t index) as Lk.
  { destruct (Nat.lt_ge_cases k (leading t index)) as [|Ge]; [assumption|]. exfalso.
    destruct (nth_error index (leading t index)) as [b|] eqn:Nb.
    - apply Nat.lt_eq_cases in Ge. destruct Ge as [Lt | Eq].
      + pose proof (StronglySorted_nth _ _ _ _ _ _ HS Lt Nb N) as R.
        rewrite (Above _ _ _ Nb B R) in Le. discriminate Le.
      + rewrite Eq, N in Nb. injection Nb as ->. congruence.
    - apply nth_error_None in Nb. assert (nth_error index k <> None) as NN by congruence.
      apply nth_error_Some in NN. lia. }
  pose proof (leading_le_length t index) as Ll.
  destruct (leading t index) as [|m] eqn:Em; [lia|]. cbn [pred].
  destruct (nth_error index m) as [e'|] eqn:Ne';
    [|apply nth_error_None in Ne'; lia].
  exists m, e'. split; [lia|]. split; [exact Ne'|]. split.
  - rewrite Forall_forall in F. apply F.
    assert (nth_error (firstn (S m) index) m = Some e') as Nf
        by (rewrite nth_error_firstn; destruct (Nat.ltb_spec m (S m)); [assumption|lia]).
    eapply nth_error_In; exact Nf.
  - split; [reflexivity|]. intros j e'' Lt Nj.
    destruct (nth_error index (S m)) as [b|] eqn:Nb.
    + apply Nat.lt_eq_cases in Lt. destruct Lt as [Lt | Eq].
      * pose proof (StronglySorted_nth _ _ _ _ _ _ HS Lt Nb Nj) as R.
        exact (Above _ _ _ Nb B R).
      * rewrite <- Eq, Nb in Nj. injection Nj as <-. exact B.
    + apply nth_error_None in Nb. assert (nth_error index j <> None) as NN by congruence.
      apply nth_error_Some in NN. lia.
Qed.

(** C1. The text of scenario A and time 0.0, which is before its first
    offset 1.5: the loop of [update_lrc_highlight] leaves [idx] at its
    initial 0, so line 0 is resolved, scrolled to and highlighted, where the
    specification has no match and no command. *)
Theorem C1_first_line_before_first_offset :
  lookup (rebuild_index scenario_A) 0 = Some 0 /\
  exists w',
    update_lrc_highlight flat_blockCount flat_scroll_target flat_top_block 1 0
      (window_of scenario_A) = Some (Ok tt, w') /\
    _current_line_no w' = 0%Z /\
    emitted (window_of scenario_A) w' =
      [Scroll editor_original 0; Scroll editor 0;
       Highlight editor 0 _highlight_format;
       Highlight editor_original 0 _highlight_format2].
Proof.
  split; [vm_compute; reflexivity|].
  eexists. split; [vm_compute; reflexivity|]. split; vm_compute; reflexivity.
Qed.

(** ** Monotonicity *)

Lemma insert_by_key_at_end (x : entry) (acc : list entry) :
  Forall (fun y => by_offset y x) acc -> insert_by_key x acc = acc ++ [x].
Proof.
  induction 1 as [|y acc Hy F IH]; cbn; [reflexivity|].
  rewrite (leb_ltb_false _ _ Hy), IH. reflexivity.
Qed.

Lemma StronglySorted_app_before {A : Type} (R : A -> A -> Prop) (acc : list A) (x : A)
  (l : list A) :
  StronglySorted R (acc ++ x :: l) -> Forall (fun y => R y x) acc.
Proof.
  induction acc as [|a acc IH]; cbn; intros H; [constructor|].
  inversion H as [|? ? H' F]; subst. constructor; [|now apply IH].
  rewrite Forall_forall in F. apply F. apply in_elt.
Qed.

Lemma fold_insert_sorted_id (l acc : list entry) :
  StronglySorted by_offset (acc ++ l) ->
  fold_left (fun acc x => insert_by_key x acc) l acc = acc ++ l.
Proof.
  revert acc. induction l as [|x l IH]; intros acc H; cbn.
  - now rewrite app_nil_r.
  - rewrite insert_by_key_at_end by (eapply StronglySorted_app_before; exact H).
    rewrite IH; rewrite <- app_assoc; [reflexivity | exact H].
Qed.

(** Sorting entries that are already in order of offset changes nothing. *)
Lemma list_sort_sorted_id (l : list entry) : StronglySorted by_offset l -> list_sort l = l.
Proof. intros H. unfold list_sort. now rewrite fold_insert_sorted_id. Qed.

(** C2, as stated, fails: with the tags out of document order the index is
    ordered by time and the resolved line number goes down. *)
Lemma C2_not_monotone :
  ~ (forall text t1 t2 l1 l2, (t1 <? t2)%float = true ->
       lookup (rebuild_index text) t1 = Some l1 ->
       lookup (rebuild_index text) t2 = Some l2 -> l1 <= l2).
Proof.
  intros H.
  assert (1 <= 0) as A; [|lia].
  apply (H out_of_order 2%float 6%float 1 0); vm_compute; reflexivity.
Qed.

(** C2, amended.  When the offsets of the tagged lines do not decrease from
    one tagged line to the next in the text, the line resolved at the
    earlier of two times is at most the line resolved at the later one. *)
Theorem C2_monotone_in_document_order (text : str) (t1 t2 : float) (l1 l2 : nat) :
  StronglySorted by_offset (scan_entries text) ->
  (t1 <? t2)%float = true ->
  lookup (rebuild_index text) t1 = Some l1 ->
  lookup (rebuild_index text) t2 = Some l2 ->
  l1 <= l2.
Proof.
  intros HS Lt. unfold rebuild_index. rewrite (list_sort_sorted_id _ HS).
  pose proof (scan_entries_ascending text) as Asc.
  rewrite !lookup_position.
  destruct (scan_entries text) as [|e l] eqn:E; [discriminate|].
  rewrite <- E in *. clear E.
  pose proof (leading_mono t1 t2 (scan_entries text) (ltb_leb _ _ Lt)) as M.
  destruct (nth_error (scan_entries text) (pred (leading t1 (scan_entries text))))
    as [a|] eqn:Na; [|discriminate].
  destruct (nth_error (scan_entries text) (pred (leading t2 (scan_entries text))))
    as [b|] eqn:Nb; [|discriminate].
  cbn. intros [= <-] [= <-].
  destruct (Nat.eq_dec (pred (leading t1 (scan_entries text)))
                       (pred (leading t2 (scan_entries text)))) as [Eq | Ne].
  - rewrite Eq, Nb in Na. injection Na as ->. lia.
  - assert (pred (leading t1 (scan_entries text)) < pred (leading t2 (scan_entries text)))
      as L by lia.
    pose proof (StronglySorted_nth _ _ _ _ _ _ Asc L Na Nb) as R. unfold line_lt in R. lia.
Qed.

Lemma C2_monotone_in_document_order_witness :
  StronglySorted by_offset (scan_entries scenario_A) /\
  (2 <? 3.5)%float = true /\
  lookup (rebuild_index scenario_A) 2 = Some 0 /\
  lookup (rebuild_index scenario_A) 3.5 = Some 1 /\
  0 <= 1.
Proof.
  assert (StronglySorted by_offset (scan_entries scenario_A)) as HS.
  { let l := eval vm_compute in (scan_entries scenario_A) in
    change (scan_entries scenario_A) with l.
    repeat constructor. }
  split; [exact HS|]. split; [reflexivity|].
  split; [vm_compute; reflexivity|]. split; [vm_compute; reflexivity|].
  apply (C2_monotone_in_document_order scenario_A 2 3.5 0 1 HS); vm_compute; reflexivity.
Defined.

(** ** Scroll coupling *)

Lemma emitted_app (w w' : MainWindow) (l : list command) :
  issued w' = issued w ++ l -> emitted w w' = l.
Proof.
  intros E. unfold emitted. rewrite E, skipn_app, Nat.sub_diag, skipn_all. reflexivity.
Qed.

Lemma emitted_refl (w : MainWindow) : emitted w w = [].
Proof. apply emitted_app. now rewrite app_nil_r. Qed.

Lemma same_fields_refl (w : MainWindow) : same_fields w w.
Proof. repeat split. Qed.

Lemma same_fields_trans (w1 w2 w3 : MainWindow) :
  same_fields w1 w2 -> same_fields w2 w3 -> same_fields w1 w3.
Proof. unfold same_fields. intuition congruence. Qed.

Section Coupling.

Variable blockCount : QTextEdit -> nat.
Variable scroll_target : QTextEdit -> nat -> align -> Z + raised.
Variable top_block : QTextEdit -> Z + raised.
Variable relayout : QTextEdit -> Z.

Local Abbreviation sync_scroll_from := (_sync_scroll_from blockCount scroll_target top_block).
Local Abbreviation value_changed := (on_value_changed blockCount scroll_target top_block).
Local Abbreviation scroll_view := (_scroll_editor_view_to_line blockCount scroll_target).
Local Abbreviation scroll_both := (_scroll_both_to_line blockCount scroll_target top_block).
Local Abbreviation update_highlight := (update_lrc_highlight blockCount scroll_target top_block).
Local Abbreviation set_plain_text := (setPlainText blockCount scroll_target top_block relayout).
Local Abbreviation load := (load_audio blockCount scroll_target top_block relayout).

(** While the lock is held, user-scroll mirroring returns at once. *)
Lemma sync_scroll_from_locked (fuel : nat) (src dst : view) (w : MainWindow) :
  _sync_lock w = true -> sync_scroll_from (S fuel) src dst w = Some (Ok tt, w).
Proof.
  intros L. cbn. unfold bind, get. rewrite L. reflexivity.
Qed.

(** While the lock is held, auto-follow returns at once. *)
Lemma scroll_both_locked (fuel : nat) (line_no : nat) (w : MainWindow) :
  _sync_lock w = true -> scroll_both fuel line_no w = Some (Ok tt, w).
Proof.
  intros L. unfold _scroll_both_to_line, bind, get. rewrite L. reflexivity.
Qed.

(** One scroll adjustment made while the lock is held: the notification it
    causes is ignored, so it issues its own [setValue] and nothing more. *)
Lemma scroll_view_locked (fuel : nat) (v : view) (line_no : nat) (a : align)
  (w : MainWindow) :
  _sync_lock w = true ->
  exists r w',
    scroll_view (value_changed (S fuel)) v line_no a w = Some (r, w') /\
    _sync_lock w' = true /\ same_fields w w' /\
    (exists l, issued w' = issued w ++ l /\ at_most_one_scroll v l) /\
    (r = Ok tt \/ r = Raise PyBaseException).
Proof.
  intros L. unfold _scroll_editor_view_to_line, try_except_pass, bind, get.
  destruct (negb (line_no <? blockCount (widget v w))).
  - cbn. exists (Ok tt), w. repeat split; auto.
    exists []. rewrite app_nil_r. split; [reflexivity | now left].
  - destruct (scroll_target (widget v w) line_no a) as [y | [|]].
    + unfold setValue, bind, modify, get, ret.
      assert (scrollValue (widget v (issue (Scroll v y) w)) = scrollValue (widget v w)) as ->
          by (destruct v; reflexivity).
      destruct (y =? scrollValue (widget v w))%Z.
      * exists (Ok tt), (issue (Scroll v y) w). repeat split; auto.
        exists [Scroll v y]. split; [reflexivity | right; eauto].
      * unfold on_value_changed. rewrite sync_scroll_from_locked by (destruct v; exact L).
        exists (Ok tt), (set_scroll v y (issue (Scroll v y) w)).
        split; [reflexivity|]. split; [destruct v; exact L|].
        split; [destruct v; repeat split|]. split; [|now left].
        exists [Scroll v y]. split; [destruct v; reflexivity | right; eauto].
    + cbn. exists (Ok tt), w. repeat split; auto.
      exists []. rewrite app_nil_r. split; [reflexivity | now left].
    + cbn. exists (Raise PyBaseException), w. repeat split; auto.
      exists []. rewrite app_nil_r. split; [reflexivity | now left].
Qed.

Lemma sync_scroll_from_S (fuel : nat) (src dst : view) :
  sync_scroll_from (S fuel) src dst =
  (locked <- get _sync_lock ;;
   if locked then ret tt
   else
     modify (set_sync_lock true) ;;;
     try_finally
       (e <- get (widget src) ;;
        match top_block e with
        | inr ex => raise ex
        | inl bn =>
            d <- get (widget dst) ;;
            let bn := Z.max 0 (Z.min bn (Z.of_nat (blockCount d) - 1)) in
            scroll_view (value_changed fuel) dst (Z.to_nat bn) top
        end)
       (set_sync_lock false)).
Proof. reflexivity. Qed.

(** A top-level run of user-scroll mirroring: it returns (or raises), the
    lock is released either way, and it issues at most one [setValue], on
    the destination view. *)
Lemma sync_scroll_from_unlocked (fuel : nat) (src dst : view) (w : MainWindow) :
  _sync_lock w = false ->
  exists r w',
    sync_scroll_from (S (S fuel)) src dst w = Some (r, w') /\
    _sync_lock w' = false /\ same_fields w w' /\
    exists l, issued w' = issued w ++ l /\ at_most_one_scroll dst l.
Proof.
  intros L. rewrite sync_scroll_from_S. unfold bind at 1. unfold get at 1. rewrite L.
  unfold bind at 1. unfold modify at 1. unfold try_finally.
  set (w1 := set_sync_lock true w).
  assert (_sync_lock w1 = true) as L1 by reflexivity.
  assert (same_fields w w1) as F1 by (repeat split).
  assert (issued w1 = issued w) as I1 by reflexivity.
  unfold bind at 1. unfold get at 1.
  destruct (top_block (widget src w1)) as [bn | ex].
  - unfold bind at 1. unfold get at 1.
    destruct (scroll_view_locked fuel dst
                (Z.to_nat (Z.max 0 (Z.min bn (Z.of_nat (blockCount (widget dst w1)) - 1))))
                top w1 L1) as (r & w2 & E & L2 & F2 & (l & I2 & A) & _).
    cbv zeta. rewrite E.
    exists r, (set_sync_lock false w2). split; [reflexivity|]. split; [reflexivity|].
    split.
    + eapply same_fields_trans; [exact F1|]. destruct F2 as (? & ? & ? & ?). repeat split; assumption.
    + exists l. split; [|exact A]. cbn. rewrite I2, I1. reflexivity.
  - unfold raise. exists (Raise ex), (set_sync_lock false w1).
    split; [reflexivity|]. split; [reflexivity|]. split; [repeat split|].
    exists []. rewrite app_nil_r. split; [reflexivity | now left].
Qed.

(** Whatever the lock, a notification from a scroll bar returns, leaves the
    lock as it found it and keeps out of the index and the highlight state. *)
Lemma value_changed_frame (fuel : nat) (v : view) (w : MainWindow) :
  exists r w',
    value_changed (S (S fuel)) v w = Some (r, w') /\
    _sync_lock w' = _sync_lock w /\ same_fields w w'.
Proof.
  unfold on_value_changed. destruct (_sync_lock w) eqn:L.
  - rewrite sync_scroll_from_locked by exact L.
    exists (Ok tt), w. repeat split. exact L.
  - destruct (sync_scroll_from_unlocked fuel v (other v) w L) as (r & w' & E & L' & F & _).
    exists r, w'. auto.
Qed.

(** A top-level run of auto-follow: it returns (or raises), the lock is
    released either way, and it issues at most one [setValue] per view. *)
Lemma scroll_both_unlocked (fuel : nat) (line_no : nat) (w : MainWindow) :
  _sync_lock w = false ->
  exists r w',
    scroll_both (S fuel) line_no w = Some (r, w') /\
    _sync_lock w' = false /\ same_fields w w' /\
    exists l1 l2, issued w' = issued w ++ l1 ++ l2 /\
                  at_most_one_scroll editor_original l1 /\ at_most_one_scroll editor l2.
Proof.
  intros L. unfold _scroll_both_to_line. unfold bind at 1. unfold get at 1. rewrite L.
  unfold bind at 1. unfold modify at 1. unfold try_finally.
  set (w1 := set_sync_lock true w).
  assert (_sync_lock w1 = true) as L1 by reflexivity.
  assert (same_fields w w1) as F1 by (repeat split).
  assert (issued w1 = issued w) as I1 by reflexivity.
  unfold bind at 1.
  destruct (scroll_view_locked fuel editor_original line_no center w1 L1)
    as (r2 & w2 & E2 & L2 & F2 & (l1 & I2 & A1) & R2).
  rewrite E2. destruct R2 as [-> | ->].
  - destruct (scroll_view_locked fuel editor line_no center w2 L2)
      as (r3 & w3 & E3 & L3 & F3 & (l2 & I3 & A2) & _).
    rewrite E3. exists r3, (set_sync_lock false w3).
    split; [reflexivity|]. split; [reflexivity|]. split.
    + eapply same_fields_trans; [exact F1|]. eapply same_fields_trans; [exact F2|].
      destruct F3 as (? & ? & ? & ?). repeat split; assumption.
    + exists l1, l2. split; [|split; assumption]. cbn.
      rewrite I3, I2, I1, app_assoc. reflexivity.
  - exists (Raise PyBaseException), (set_sync_lock false w2).
    split; [reflexivity|]. split; [reflexivity|]. split.
    + eapply same_fields_trans; [exact F1|]. destruct F2 as (? & ? & ? & ?). repeat split; assumption.
    + exists l1, []. split; [|split; [assumption | now left]].
      cbn. rewrite I2, I1, app_nil_r. reflexivity.
Qed.

(** C9. Scroll coupling does not recurse.  With the lock held, mirroring and
    auto-follow return at once and leave the window as it is.  With the lock
    free, each of them returns or raises with the lock free again, and the
    commands it issued are its own [setValue] calls only: at most one on the
    destination view for mirroring, at most one per view for auto-follow.
    The notifications those calls cause add nothing. *)
Theorem C9_coupling_does_not_recurse :
  (forall fuel src dst w, _sync_lock w = true ->
     sync_scroll_from (S fuel) src dst w = Some (Ok tt, w)) /\
  (forall fuel line_no w, _sync_lock w = true ->
     scroll_both fuel line_no w = Some (Ok tt, w)) /\
  (forall fuel src dst w, _sync_lock w = false ->
     exists r w', sync_scroll_from (S (S fuel)) src dst w = Some (r, w') /\
                  _sync_lock w' = false /\
                  at_most_one_scroll dst (emitted w w')) /\
  (forall fuel line_no w, _sync_lock w = false ->
     exists r w' l1 l2, scroll_both (S fuel) line_no w = Some (r, w') /\
                        _sync_lock w' = false /\
                        emitted w w' = l1 ++ l2 /\
                        at_most_one_scroll editor_original l1 /\
                        at_most_one_scroll editor l2).
Proof.
  split; [|split; [|split]].
  - intros. now apply sync_scroll_from_locked.
  - intros. now apply scroll_both_locked.
  - intros fuel src dst w L.
    destruct (sync_scroll_from_unlocked fuel src dst w L) as (r & w' & E & L' & _ & l & I & A).
    exists r, w'. rewrite (emitted_app _ _ _ I). auto.
  - intros fuel line_no w L.
    destruct (scroll_both_unlocked fuel line_no w L)
      as (r & w' & E & L' & _ & l1 & l2 & I & A1 & A2).
    exists r, w', l1, l2. rewrite (emitted_app _ _ _ I). auto.
Qed.


(** ** Highlight updates *)

Lemma apply_line_highlight_spec (v : view) (line_no : nat) (fmt : char_format)
  (w : MainWindow) :
  exists w',
    _apply_line_highlight blockCount v line_no fmt w = Some (Ok tt, w') /\
    _sync_lock w' = _sync_lock w /\ same_fields w w'.
Proof.
  unfold _apply_line_highlight, bind, get, ret, modify.
  destruct (negb (line_no <? blockCount (widget v w))).
  - exists w. repeat split.
  - eexists. split; [reflexivity|]. destruct v; repeat split.
Qed.

(** A time update that resolves the line already current changes nothing. *)
Lemma update_highlight_same_line (fuel : nat) (t : float) (w : MainWindow) (line_no : nat) :
  lookup (_lrc_index w) t = Some line_no ->
  Z.of_nat line_no = _current_line_no w ->
  update_highlight fuel t w = Some (Ok tt, w).
Proof.
  intros Lk E. unfold update_lrc_highlight, bind, get, ret.
  rewrite Lk, E, Z.eqb_refl. reflexivity.
Qed.

(** Every time update returns; it leaves the index alone; and either it
    changes nothing, or it resolved a line other than the current one and
    made it current. *)
Lemma update_highlight_spec (fuel : nat) (t : float) (w : MainWindow) :
  exists r w',
    update_highlight (S fuel) t w = Some (r, w') /\
    _lrc_index w' = _lrc_index w /\
    ((w' = w /\ r = Ok tt /\
      forall line_no, lookup (_lrc_index w) t = Some line_no ->
                      Z.of_nat line_no = _current_line_no w) \/
     exists line_no, lookup (_lrc_index w) t = Some line_no /\
                     Z.of_nat line_no <> _current_line_no w /\
                     _current_line_no w' = Z.of_nat line_no).
Proof.
  unfold update_lrc_highlight. unfold bind at 1. unfold get at 1.
  destruct (lookup (_lrc_index w) t) as [line_no|] eqn:Lk.
  - unfold bind at 1. unfold get at 1.
    destruct (Z.of_nat line_no =? _current_line_no w)%Z eqn:E.
    + apply Z.eqb_eq in E. exists (Ok tt), w. split; [reflexivity|]. split; [reflexivity|].
      left. repeat split. intros l [= <-]. exact E.
    + apply Z.eqb_neq in E. unfold bind at 1. unfold modify at 1.
      set (w1 := set_current_line_no (Z.of_nat line_no) w).
      assert (exists r w2, scroll_both (S fuel) line_no w1 = Some (r, w2) /\ same_fields w1 w2)
        as (r & w2 & E2 & F2).
      { destruct (_sync_lock w1) eqn:L1.
        - exists (Ok tt), w1. split; [now apply scroll_both_locked | apply same_fields_refl].
        - destruct (scroll_both_unlocked fuel line_no w1 L1) as (r & w2 & E2 & _ & F2 & _).
          eauto. }
      unfold bind at 1. rewrite E2. destruct r as [[]|ex].
      * destruct (apply_line_highlight_spec editor line_no _highlight_format w2)
          as (w3 & E3 & _ & F3).
        unfold bind at 1. rewrite E3.
        destruct (apply_line_highlight_spec editor_original line_no _highlight_format2 w3)
          as (w4 & E4 & _ & F4).
        rewrite E4. exists (Ok tt), w4. split; [reflexivity|].
        pose proof (same_fields_trans _ _ _ F2 (same_fields_trans _ _ _ F3 F4))
          as (Fi & Fc & _).
        split; [exact Fi|]. right. exists line_no. repeat split; auto.
      * exists (Raise ex), w2. split; [reflexivity|]. destruct F2 as (Fi & Fc & _).
        split; [exact Fi|]. right. exists line_no. repeat split; auto.
  - exists (Ok tt), w. split; [reflexivity|]. split; [reflexivity|].
    left. repeat split. intros l [=].
Qed.

(** C8. A time update that resolves the line equal to [current_line_no]
    returns with the window unchanged and no command issued.  Of two
    consecutive updates that resolve the same line, the second is such a
    no-op, so at most the first issues a highlight.  [current_line_no]
    changes only to a newly resolved line that differs from it.  Every update
    returns. *)
Theorem C8_same_line_is_noop :
  (forall fuel t w line_no,
     lookup (_lrc_index w) t = Some line_no ->
     Z.of_nat line_no = _current_line_no w ->
     update_highlight fuel t w = Some (Ok tt, w) /\ emitted w w = []) /\
  (forall fuel fuel' t1 t2 w r w1 line_no,
     update_highlight (S fuel) t1 w = Some (r, w1) ->
     lookup (_lrc_index w) t1 = Some line_no ->
     lookup (_lrc_index w) t2 = Some line_no ->
     update_highlight fuel' t2 w1 = Some (Ok tt, w1) /\ emitted w1 w1 = []) /\
  (forall fuel t w r w',
     update_highlight (S fuel) t w = Some (r, w') ->
     _current_line_no w' <> _current_line_no w ->
     exists line_no, lookup (_lrc_index w) t = Some line_no /\
                     Z.of_nat line_no <> _current_line_no w /\
                     _current_line_no w' = Z.of_nat line_no) /\
  (forall fuel t w, exists r w', update_highlight (S fuel) t w = Some (r, w')).
Proof.
  split; [|split; [|split]].
  - intros fuel t w line_no Lk E. split; [|apply emitted_refl].
    eapply update_highlight_same_line; eassumption.
  - intros fuel fuel' t1 t2 w r w1 line_no U L1 L2. split; [|apply emitted_refl].
    destruct (update_highlight_spec fuel t1 w) as (r0 & w0 & U0 & Ix & C).
    rewrite U0 in U. injection U as -> ->.
    apply (update_highlight_same_line fuel' t2 w1 line_no); [rewrite Ix; exact L2|].
    destruct C as [(-> & _ & C) | (l & Lk & _ & C)].
    + now apply C.
    + rewrite L1 in Lk. injection Lk as <-. now symmetry.
  - intros fuel t w r w' U N.
    destruct (update_highlight_spec fuel t w) as (r0 & w0 & U0 & _ & C).
    rewrite U0 in U. injection U as -> ->.
    destruct C as [(-> & _) | C]; [congruence | exact C].
  - intros fuel t w. destruct (update_highlight_spec fuel t w) as (r & w' & U & _). eauto.
Qed.

(** ** Switching documents *)

(** Replacing the document of a view returns (or raises, if the scroll
    notification does), leaves [current_line_no] and the lock alone, and for
    the editable view leaves the index rebuilt from the new text. *)
Lemma set_plain_text_spec (fuel : nat) (v : view) (content : str) (w : MainWindow) :
  exists r w',
    set_plain_text (S (S fuel)) v content w = Some (r, w') /\
    _current_line_no w' = _current_line_no w /\
    _sync_lock w' = _sync_lock w /\
    plainText (widget v w') = content /\
    plainText (widget (other v) w') = plainText (widget (other v) w) /\
    match v with
    | editor => _lrc_index w' = rebuild_index content
    | editor_original => _lrc_index w' = _lrc_index w
    end.
Proof.
  unfold setPlainText. unfold bind at 1. unfold modify at 1.
  set (w1 := set_text v content w).
  set (w2 := match v with editor => rebuild_lrc_index w1 | editor_original => w1 end).
  assert ((match v with editor => modify rebuild_lrc_index | editor_original => ret tt end) w1
          = Some (Ok tt, w2)) as E2 by (unfold w2; destruct v; reflexivity).
  unfold bind at 1. rewrite E2. unfold bind at 1. unfold get at 1.
  assert (_current_line_no w2 = _current_line_no w /\ _sync_lock w2 = _sync_lock w /\
          plainText (widget v w2) = content /\
          plainText (widget (other v) w2) = plainText (widget (other v) w) /\
          match v with
          | editor => _lrc_index w2 = rebuild_index content
          | editor_original => _lrc_index w2 = _lrc_index w
          end) as (C2 & L2 & T2 & O2 & I2)
    by (unfold w2, w1; destruct v; repeat split).
  destruct (relayout (widget v w2) =? scrollValue (widget v w2))%Z.
  - exists (Ok tt), w2. repeat split; assumption.
  - unfold bind, modify.
    set (w3 := set_scroll v (relayout (widget v w2)) w2).
    assert (same_fields w2 w3 /\ _sync_lock w3 = _sync_lock w2) as ((Fi & Fc & Fe & Fo) & L3)
      by (unfold w3; destruct v; repeat split).
    destruct (value_changed_frame fuel v w3) as (r & w4 & E4 & L4 & (Gi & Gc & Ge & Go)).
    rewrite E4. exists r, w4. split; [reflexivity|].
    split; [congruence|]. split; [congruence|].
    destruct v; cbn [widget other] in *; repeat split; congruence.
Qed.

(** Loading an audio file returns or raises, with [current_line_no] as it
    was; when it returns, the index is that of the lyric file, or empty when
    there is none. *)
Lemma load_audio_spec (fuel : nat) (lrc : option str) (w : MainWindow) :
  exists r w',
    load (S (S fuel)) lrc w = Some (r, w') /\
    _current_line_no w' = _current_line_no w /\
    (r = Ok tt ->
     _lrc_index w' = match lrc with Some content => rebuild_index content | None => [] end).
Proof.
  unfold load_audio.
  assert (forall content (last : MainWindow -> MainWindow),
            (forall x, _current_line_no (last x) = _current_line_no x) ->
            exists r w',
              (set_plain_text (S (S fuel)) editor_original content ;;;
               set_plain_text (S (S fuel)) editor content ;;;
               modify last) w = Some (r, w') /\
              _current_line_no w' = _current_line_no w /\
              (r = Ok tt -> exists w3, w' = last w3 /\
                                       plainText (w_editor w3) = content)) as H.
  { intros content last Hl.
    destruct (set_plain_text_spec fuel editor_original content w)
      as (r1 & w1 & E1 & C1 & _).
    unfold bind at 1. rewrite E1. destruct r1 as [[]|ex].
    - destruct (set_plain_text_spec fuel editor content w1)
        as (r2 & w2 & E2 & C2 & _ & T2 & _).
      unfold bind at 1. rewrite E2. destruct r2 as [[]|ex].
      + unfold modify. exists (Ok tt), (last w2). split; [reflexivity|].
        split; [rewrite Hl; congruence|]. intros _. exists w2. auto.
      + exists (Raise ex), w2. split; [reflexivity|]. split; [congruence|]. discriminate.
    - exists (Raise ex), w1. split; [reflexivity|]. split; [congruence|]. discriminate. }
  destruct lrc as [content|].
  - destruct (H content rebuild_lrc_index) as (r & w' & E & C & I); [reflexivity|].
    exists r, w'. split; [exact E|]. split; [exact C|].
    intros Hr. destruct (I Hr) as (w3 & -> & T). cbn. now rewrite T.
  - destruct (H [] (set_lrc_index [])) as (r & w' & E & C & I); [reflexivity|].
    exists r, w'. split; [exact E|]. split; [exact C|].
    intros Hr. destruct (I Hr) as (w3 & -> & T). reflexivity.
Qed.

(** C10. [current_line_no] is -1 in the window as built; a rebuild of the
    index leaves it as it is, and so does loading another audio file with or
    without a lyric file; a time update never sets it to a negative value.
    So after a document switch, a time update that resolves, in the new
    index, the line number left over from the old document is a no-op: no
    scroll, no highlight. *)
Theorem C10_stale_current_line :
  _current_line_no build_ui = (-1)%Z /\
  (forall w, _current_line_no (rebuild_lrc_index w) = _current_line_no w) /\
  (forall fuel lrc w,
     exists r w', load (S (S fuel)) lrc w = Some (r, w') /\
                  _current_line_no w' = _current_line_no w /\
                  (r = Ok tt ->
                   _lrc_index w' =
                   match lrc with Some content => rebuild_index content | None => [] end)) /\
  (forall fuel t w r w',
     update_highlight (S fuel) t w = Some (r, w') ->
     _current_line_no w' = _current_line_no w \/ (0 <= _current_line_no w')%Z) /\
  (forall fuel fuel' lrc w r w' t line_no,
     load (S (S fuel)) lrc w = Some (r, w') ->
     lookup (_lrc_index w') t = Some line_no ->
     Z.of_nat line_no = _current_line_no w ->
     update_highlight fuel' t w' = Some (Ok tt, w') /\ emitted w' w' = []).
Proof.
  split; [reflexivity|]. split; [reflexivity|]. split; [|split].
  - intros fuel lrc w. apply load_audio_spec.
  - intros fuel t w r w' U.
    destruct (update_highlight_spec fuel t w) as (r0 & w0 & U0 & _ & C).
    rewrite U0 in U. injection U as -> ->.
    destruct C as [(-> & _) | (l & _ & _ & ->)]; [now left | right; lia].
  - intros fuel fuel' lrc w r w' t line_no Ld Lk E. split; [|apply emitted_refl].
    destruct (load_audio_spec fuel lrc w) as (r0 & w0 & Ld0 & C & _).
    rewrite Ld0 in Ld. injection Ld as -> ->.
    apply (update_highlight_same_line fuel' t w' line_no Lk). congruence.
Qed.

End Coupling.

(** ** The handlers on concrete windows *)

Example playing_song_one_line : _current_line_no playing_song_one = 1%Z.
Proof. vm_compute. reflexivity. Qed.

Example auto_follow_commands :
  emitted (window_of song_one) playing_song_one =
  [Scroll editor_original 1; Scroll editor 1;
   Highlight editor 1 _highlight_format; Highlight editor_original 1 _highlight_format2].
Proof. vm_compute. reflexivity. Qed.

(** Mirroring whose look at the source view raises: the exception leaves
    the handler and the lock is free. *)
Example mirroring_raises :
  exists w',
    _sync_scroll_from flat_blockCount flat_scroll_target failing_top_block 2
      editor editor_original (window_of song_one) = Some (Raise PyException, w') /\
    _sync_lock w' = false /\ emitted (window_of song_one) w' = [].
Proof. eexists. split; [vm_compute; reflexivity|]. split; vm_compute; reflexivity. Qed.

Lemma C8_same_line_is_noop_witness :
  update_lrc_highlight flat_blockCount flat_scroll_target flat_top_block 1 2.75
    playing_song_one = Some (Ok tt, playing_song_one) /\
  emitted playing_song_one playing_song_one = [].
Proof.
  apply (proj1 (proj2 (C8_same_line_is_noop flat_blockCount flat_scroll_target flat_top_block))
           0 1 2.5%float 2.75%float (window_of song_one) (Ok tt) playing_song_one 1);
    vm_compute; reflexivity.
Defined.

Lemma C9_coupling_does_not_recurse_witness :
  exists r w',
    _sync_scroll_from flat_blockCount flat_scroll_target failing_top_block 2
      editor editor_original (window_of song_one) = Some (r, w') /\
    _sync_lock w' = false /\
    at_most_one_scroll editor_original (emitted (window_of song_one) w').
Proof.
  apply (proj1 (proj2 (proj2
           (C9_coupling_does_not_recurse flat_blockCount flat_scroll_target failing_top_block)))
           0 editor editor_original (window_of song_one)).
  reflexivity.
Defined.

(** After the switch to song two, 12 seconds resolves line 1 of the new
    text, which is the line number left from song one: nothing is issued. *)
Lemma C10_stale_current_line_witness :
  lookup (_lrc_index switched_to_song_two) 12 = Some 1 /\
  Z.of_nat 1 = _current_line_no playing_song_one /\
  update_lrc_highlight flat_blockCount flat_scroll_target flat_top_block 1 12
    switched_to_song_two = Some (Ok tt, switched_to_song_two) /\
  emitted switched_to_song_two switched_to_song_two = [].
Proof.
  split; [vm_compute; reflexivity|]. split; [vm_compute; reflexivity|].
  apply (proj2 (proj2 (proj2 (proj2
           (C10_stale_current_line flat_blockCount flat_scroll_target flat_top_block
              flat_relayout))))
           0 1 (Some song_two) playing_song_one (Ok tt) switched_to_song_two 12%float 1);
    vm_compute; reflexivity.
Defined.

Lemma C3_rebuild_contents_witness :
  In (parsed_offset (mkTag (py "00") (py "03") (Some (py "000"))), 1)
     (observable (rebuild_final scenario_A stale_state)).
Proof.
  apply (proj1 (proj2 (C3_rebuild_contents scenario_A stale_state))
           1 (py "[00:03.000]World") 0 (mkTag (py "00") (py "03") (Some (py "000"))));
    [reflexivity|].
  apply (leftmost_tag_at_start (mkTag (py "00") (py "03") (Some (py "000"))) (py "World")).
  unfold well_formed. cbn. repeat split; try lia; repeat constructor.
Defined.

(** * Labels, headers and downloads *)

(** ** Decimal formatting *)

Lemma fold_int_shift (s : str) (a : nat) :
  fold_left (fun n c => 10 * n + digit_value c) s a = a * 10 ^ List.length s + int s.
Proof.
  unfold int. revert a. induction s as [|c s IH]; intros a; cbn [fold_left List.length Nat.pow].
  - lia.
  - rewrite IH, (IH (10 * 0 + digit_value c)). nia.
Qed.

Lemma int_cons (c : ascii) (s : str) :
  int (c :: s) = digit_value c * 10 ^ List.length s + int s.
Proof.
  unfold int at 1. cbn [fold_left]. rewrite fold_int_shift. lia.
Qed.

Lemma is_digit_of_nat (d : nat) : d < 10 -> is_digit (ascii_of_nat (48 + d)) = true.
Proof.
  intros H. do 10 (destruct d as [|d]; [reflexivity|]). lia.
Qed.

Lemma digit_value_of_nat (d : nat) : d < 10 -> digit_value (ascii_of_nat (48 + d)) = d.
Proof.
  intros H. do 10 (destruct d as [|d]; [reflexivity|]). lia.
Qed.

Lemma digits_from_spec (fuel n : nat) (acc : str) :
  n < fuel -> digits acc ->
  digits (digits_from fuel n acc) /\
  int (digits_from fuel n acc) = n * 10 ^ List.length acc + int acc /\
  List.length acc < List.length (digits_from fuel n acc).
Proof.
  revert n acc. induction fuel as [|fuel IH]; intros n acc Lt D; [lia|].
  cbn [digits_from].
  assert (n mod 10 < 10) as Hd by (apply Nat.mod_upper_bound; lia).
  assert (digits (ascii_of_nat (48 + n mod 10) :: acc)) as D'
      by (apply digits_cons; split; [now apply is_digit_of_nat | assumption]).
  assert (int (ascii_of_nat (48 + n mod 10) :: acc)
          = (n mod 10) * 10 ^ List.length acc + int acc) as V
      by (rewrite int_cons, digit_value_of_nat by assumption; reflexivity).
  destruct (Nat.ltb_spec n 10) as [Small | Big].
  - split; [assumption|]. split; [|cbn; lia].
    rewrite V, Nat.mod_small by assumption. reflexivity.
  - assert (n / 10 < fuel) as Lt'.
    { pose proof (Nat.div_lt n 10). lia. }
    destruct (IH (n / 10) _ Lt' D') as (I1 & I2 & I3).
    split; [assumption|]. split; [|cbn [List.length] in I3; lia].
    rewrite I2, V. cbn [List.length Nat.pow].
    pose proof (Nat.div_mod_eq n 10). nia.
Qed.

(** Reading back the digits of a number gives the number. *)
Lemma int_str_of_nat (n : nat) :
  digits (str_of_nat n) /\ int (str_of_nat n) = n /\ 1 <= List.length (str_of_nat n).
Proof.
  unfold str_of_nat.
  destruct (digits_from_spec (S n) n [] (Nat.lt_succ_diag_r n) digits_nil) as (D & V & L).
  split; [assumption|]. split; [|change (List.length (@nil ascii)) with 0 in L; lia].
  rewrite V. cbn. lia.
Qed.

Lemma str_of_nat_below_100 (n : nat) : n < 100 -> List.length (str_of_nat n) <= 2.
Proof.
  intros H. unfold str_of_nat. cbn [digits_from].
  destruct (Nat.ltb_spec n 10) as [Small | Big]; [cbn; lia|].
  destruct n as [|n]; [lia|]. cbn [digits_from].
  assert (S n / 10 < 10) as Q by (apply Nat.Div0.div_lt_upper_bound; lia).
  apply Nat.ltb_lt in Q. rewrite Q. cbn. lia.
Qed.

Lemma digits_repeat_zero (k : nat) : digits (repeat (ascii_of_nat 48) k).
Proof. induction k; cbn; [apply digits_nil | apply digits_cons; split; [reflexivity | assumption]]. Qed.

Lemma digits_app (a b : str) : digits a -> digits b -> digits (a ++ b).
Proof. unfold digits. intros. apply Forall_app. split; assumption. Qed.

Lemma int_repeat_zero (k : nat) (s : str) : int (repeat (ascii_of_nat 48) k ++ s) = int s.
Proof.
  induction k as [|k IH]; [reflexivity|]. cbn [repeat app].
  rewrite int_cons, IH. cbn. lia.
Qed.

(** Padding keeps the digits and the value, and reaches the width. *)
Lemma zero_pad_spec (width : nat) (s : str) :
  digits s ->
  digits (zero_pad width s) /\ int (zero_pad width s) = int s /\
  List.length (zero_pad width s) = Nat.max width (List.length s).
Proof.
  intros D. unfold zero_pad. split; [|split].
  - apply digits_app; [apply digits_repeat_zero | assumption].
  - apply int_repeat_zero.
  - rewrite length_app, repeat_length. lia.
Qed.

(** [format_d] of a number that is not negative: digits only, at least
    [width] of them, and they read back as the number. *)
Lemma format_d_nonneg (width : nat) (z : Z) :
  (0 <= z)%Z ->
  digits (format_d width z) /\ Z.of_nat (int (format_d width z)) = z /\
  width <= List.length (format_d width z) /\
  ((z < 100)%Z -> 2 <= width -> List.length (format_d width z) = width).
Proof.
  intros H. unfold format_d.
  destruct (Z.ltb_spec z 0) as [Neg | _]; [lia|].
  destruct (int_str_of_nat (Z.to_nat z)) as (D & V & L).
  destruct (zero_pad_spec width _ D) as (D' & V' & L').
  split; [assumption|]. split; [rewrite V', V; lia|]. split; [lia|].
  intros Lt W. rewrite L'.
  pose proof (str_of_nat_below_100 (Z.to_nat z)). lia.
Qed.

(** X1. For every position, also a negative one, the label part is minutes,
    a colon and seconds: the seconds are exactly two digits and below 60,
    the minutes at least two digits, and read back they give the whole
    seconds of the position, negative positions counting as 0. *)
Theorem X1_fmt_reads_back (ms : Z) :
  exists mm ss,
    fmt ms = mm ++ py ":" ++ ss /\
    digits mm /\ 2 <= List.length mm /\
    digits ss /\ List.length ss = 2 /\ int ss < 60 /\
    Z.of_nat (int mm * 60 + int ss) = Z.max 0 (ms / 1000).
Proof.
  unfold fmt. set (s := Z.max 0 (ms / 1000)).
  assert (0 <= s)%Z as Hs by (unfold s; lia).
  assert (0 <= s / 60)%Z as Hm by (apply Z.div_pos; lia).
  pose proof (Z.mod_pos_bound s 60 ltac:(lia)) as Hss.
  destruct (format_d_nonneg 2 (s / 60) Hm) as (Dm & Vm & Lm & _).
  destruct (format_d_nonneg 2 (s mod 60) ltac:(lia)) as (Ds & Vs & _ & Ls).
  exists (format_d 2 (s / 60)), (format_d 2 (s mod 60)).
  split; [reflexivity|]. split; [assumption|]. split; [assumption|].
  split; [assumption|]. split; [apply Ls; lia|]. split; [lia|].
  pose proof (Z.div_mod s 60 ltac:(lia)). lia.
Qed.

(** ** More on lookup and on texts without tags *)

Lemma rebuild_index_sorted (text : str) : StronglySorted by_offset (rebuild_index text).
Proof.
  eapply StronglySorted_impl; [apply by_offset_then_line_le|].
  apply list_sort_sorted; [apply scan_entries_numbers | apply scan_entries_ascending].
Qed.

(** X2. On the index rebuilt from any text: when some entry has an offset
    at most [t], the line resolved at [t] is that of the last entry of the
    index whose offset is at most [t]; every entry after it has a greater
    offset. *)
Theorem X2_lookup_last_at_most (text : str) (t : float) (k : nat) (e : entry) :
  nth_error (rebuild_index text) k = Some e ->
  (fst e <=? t)%float = true ->
  exists k' e',
    k <= k' /\ nth_error (rebuild_index text) k' = Some e' /\
    (fst e' <=? t)%float = true /\
    lookup (rebuild_index text) t = Some (snd e') /\
    forall j e'', k' < j -> nth_error (rebuild_index text) j = Some e'' ->
                  (fst e'' <=? t)%float = false.
Proof.
  intros N Le. exact (lookup_greatest _ t k e (rebuild_index_sorted text) N Le).
Qed.

Lemma X2_lookup_last_at_most_witness :
  nth_error (rebuild_index scenario_A) 0 = Some (1.5%float, 0) /\
  (1.5 <=? 2)%float = true /\
  exists k' e',
    0 <= k' /\ nth_error (rebuild_index scenario_A) k' = Some e' /\
    (fst e' <=? 2)%float = true /\
    lookup (rebuild_index scenario_A) 2 = Some (snd e') /\
    forall j e'', k' < j -> nth_error (rebuild_index scenario_A) j = Some e'' ->
                  (fst e'' <=? 2)%float = false.
Proof.
  split; [vm_compute; reflexivity|]. split; [reflexivity|].
  apply (X2_lookup_last_at_most scenario_A 2 0 (1.5%float, 0)); vm_compute; reflexivity.
Defined.

(** X3. At or after the greatest offset of a rebuilt index, the line of
    the last entry is resolved. *)
Theorem X3_lookup_at_end (text : str) (t : float) (e : entry) :
  nth_error (rebuild_index text) (pred (List.length (rebuild_index text))) = Some e ->
  (fst e <=? t)%float = true ->
  lookup (rebuild_index text) t = Some (snd e).
Proof.
  intros N Le.
  destruct (lookup_greatest _ t _ e (rebuild_index_sorted text) N Le)
    as (k' & e' & Lk & N' & _ & -> & _).
  assert (k' < List.length (rebuild_index text)) as B
      by (apply nth_error_Some; congruence).
  assert (k' = pred (List.length (rebuild_index text))) as -> by lia.
  rewrite N in N'. injection N' as <-. reflexivity.
Qed.

Lemma X3_lookup_at_end_witness :
  nth_error (rebuild_index scenario_A) (pred (List.length (rebuild_index scenario_A)))
    = Some (3%float, 1) /\
  (3 <=? 3.5)%float = true /\
  lookup (rebuild_index scenario_A) 3.5 = Some 1.
Proof.
  split; [vm_compute; reflexivity|]. split; [reflexivity|].
  apply (X3_lookup_at_end scenario_A 3.5 (3%float, 1)); vm_compute; reflexivity.
Defined.

(** ** Texts without a time tag *)

Lemma line_entry_no_tag (i : nat) (line : str) :
  (forall p t, ~ tag_at line p t) -> line_entry i line = [].
Proof.
  intros H. unfold line_entry.
  destruct (search TAG line) as [[g rest]|] eqn:S; [|reflexivity].
  apply search_TAG_some in S. destruct S as (pre & t & [T _] & _).
  exfalso. exact (H _ _ T).
Qed.

Lemma line_entry_tag (i : nat) (line : str) (p : nat) (t : time_tag) :
  tag_at line p t -> line_entry i line <> [].
Proof.
  intros T. unfold line_entry.
  destruct (search TAG line) as [[g rest]|] eqn:S; [discriminate|].
  exfalso. exact (search_TAG_none line S p t T).
Qed.

Lemma rebuild_index_no_tag (text : str) :
  (forall i line p t, nth_error (splitlines text) i = Some line -> ~ tag_at line p t) ->
  rebuild_index text = [].
Proof.
  intros H. destruct (rebuild_index text) as [|e l] eqn:E; [reflexivity|]. exfalso.
  assert (In e (rebuild_index text)) as I by (rewrite E; now left).
  apply In_rebuild_index in I. destruct I as (i & line & N & I).
  rewrite (line_entry_no_tag i line) in I; [exact I|].
  intros p t. exact (H i line p t N).
Qed.

Lemma no_tag_of_empty_index (text : str) :
  rebuild_index text = [] ->
  forall i line p t, nth_error (splitlines text) i = Some line -> ~ tag_at line p t.
Proof.
  intros E i line p t N T.
  destruct (line_entry i line) as [|e l] eqn:L; [exact (line_entry_tag i line p t T L)|].
  assert (In e (rebuild_index text)) as I.
  { apply In_rebuild_index. exists i, line. split; [exact N|]. rewrite L. now left. }
  rewrite E in I. exact I.
Qed.

(** X4. The rebuilt index is empty exactly when no line of the text holds a
    time tag at any position. *)
Theorem X4_empty_index_iff_no_tag (text : str) :
  rebuild_index text = [] <->
  (forall i line p t, nth_error (splitlines text) i = Some line -> ~ tag_at line p t).
Proof.
  split; [apply no_tag_of_empty_index | apply rebuild_index_no_tag].
Qed.

(** X5. After the document of the editable view is replaced by a text
    without any time tag, a time update at any position returns at once and
    leaves the window as it is: no line becomes current, nothing is scrolled
    or highlighted. *)
Theorem X5_no_tag_no_highlight
  (blockCount : QTextEdit -> nat)
  (scroll_target : QTextEdit -> nat -> align -> Z + raised)
  (top_block : QTextEdit -> Z + raised) (relayout : QTextEdit -> Z)
  (fuel fuel' : nat) (text : str) (w : MainWindow) (r : result unit) (w' : MainWindow)
  (t : float) :
  (forall i line p tg, nth_error (splitlines text) i = Some line -> ~ tag_at line p tg) ->
  setPlainText blockCount scroll_target top_block relayout (S (S fuel)) editor text w
    = Some (r, w') ->
  update_lrc_highlight blockCount scroll_target top_block fuel' t w' = Some (Ok tt, w').
Proof.
  intros H P.
  destruct (set_plain_text_spec blockCount scroll_target top_block relayout fuel editor text w)
    as (r0 & w0 & P0 & _ & _ & _ & _ & I).
  rewrite P0 in P. injection P as -> ->.
  rewrite (rebuild_index_no_tag text H) in I.
  unfold update_lrc_highlight, bind, get. rewrite I. reflexivity.
Qed.

Lemma X5_no_tag_no_highlight_witness :
  update_lrc_highlight flat_blockCount flat_scroll_target flat_top_block 0 2.5
    (run (setPlainText flat_blockCount flat_scroll_target flat_top_block flat_relayout 2
            editor (py "[ar:nobody]"))
         playing_song_one)
  = Some (Ok tt,
          run (setPlainText flat_blockCount flat_scroll_target flat_top_block flat_relayout 2
                 editor (py "[ar:nobody]"))
              playing_song_one).
Proof.
  apply (X5_no_tag_no_highlight flat_blockCount flat_scroll_target flat_top_block
           flat_relayout 0 0 (py "[ar:nobody]") playing_song_one (Ok tt)).
  - apply no_tag_of_empty_index. vm_compute. reflexivity.
  - vm_compute. reflexivity.
Defined.

(** ** The length line: [_format_mmss_cc] *)

Lemma digits_length_chars (s : str) : digits s -> Forall length_char s.
Proof. apply Forall_impl. intros c H. now left. Qed.

Lemma format_d_chars (width : nat) (z : Z) : Forall length_char (format_d width z).
Proof.
  unfold format_d. destruct (z <? 0)%Z.
  - apply Forall_app. split; [constructor; [right; left; reflexivity | constructor]|].
    apply digits_length_chars, zero_pad_spec, int_str_of_nat.
  - apply digits_length_chars, zero_pad_spec, int_str_of_nat.
Qed.

Lemma mmss_cc_chars (s ms : Z) : Forall length_char (mmss_cc s ms).
Proof.
  unfold mmss_cc. repeat (apply Forall_app; split); try apply format_d_chars.
  - constructor; [right; right; left; reflexivity | constructor].
  - constructor; [right; right; right; reflexivity | constructor].
Qed.

Lemma format_mmss_cc_chars (seconds : number) (out : str) :
  _format_mmss_cc seconds = Some out -> Forall length_char out.
Proof.
  destruct seconds as [z|f]; cbn [_format_mmss_cc].
  - intros [= <-]. apply mmss_cc_chars.
  - destruct (int_of_float f) as [s|]; [|discriminate].
    destruct (round _) as [ms|]; [|discriminate].
    intros [= <-]. apply mmss_cc_chars.
Qed.

Lemma mmss_cc_reads_back (s ms : Z) :
  (0 <= s)%Z ->
  exists mm ss cc,
    mmss_cc s ms = mm ++ py ":" ++ ss ++ py "." ++ cc /\
    digits mm /\ 2 <= List.length mm /\
    digits ss /\ List.length ss = 2 /\ int ss < 60 /\
    Z.of_nat (int mm * 60 + int ss) = s /\
    Forall length_char cc /\ (ms = 0%Z -> cc = py "00").
Proof.
  intros Hs. unfold mmss_cc.
  assert (0 <= s / 60)%Z as Hm by (apply Z.div_pos; lia).
  pose proof (Z.mod_pos_bound s 60 ltac:(lia)) as Hss.
  destruct (format_d_nonneg 2 (s / 60) Hm) as (Dm & Vm & Lm & _).
  destruct (format_d_nonneg 2 (s mod 60) ltac:(lia)) as (Ds & Vs & _ & Ls).
  exists (format_d 2 (s / 60)), (format_d 2 (s mod 60)),
         (format_d 2 (if (ms =? 0)%Z then 0%Z else (ms / 10)%Z)).
  split; [reflexivity|]. split; [assumption|]. split; [assumption|].
  split; [assumption|]. split; [apply Ls; lia|]. split; [lia|].
  split; [pose proof (Z.div_mod s 60 ltac:(lia)); lia|].
  split; [apply format_d_chars|]. intros ->. reflexivity.
Qed.

(** X6. The length text of a whole number of seconds that is not negative
    is always produced and ends in [.00]; the length text of a [float]
    whose whole part is not negative, when one is produced, has the same
    shape with some run of digits and signs after the point.  In both, the
    minutes are at least two digits, the seconds exactly two digits and
    below 60, and read back they give the whole part of the argument. *)
Theorem X6_length_reads_back :
  (forall z, (0 <= z)%Z ->
     exists mm ss,
       _format_mmss_cc (PyInt z) = Some (mm ++ py ":" ++ ss ++ py ".00") /\
       digits mm /\ 2 <= List.length mm /\
       digits ss /\ List.length ss = 2 /\ int ss < 60 /\
       Z.of_nat (int mm * 60 + int ss) = z) /\
  (forall f s out, int_of_float f = Some s -> (0 <= s)%Z ->
     _format_mmss_cc (PyFloat f) = Some out ->
     exists mm ss cc,
       out = mm ++ py ":" ++ ss ++ py "." ++ cc /\
       digits mm /\ 2 <= List.length mm /\
       digits ss /\ List.length ss = 2 /\ int ss < 60 /\
       Z.of_nat (int mm * 60 + int ss) = s /\
       Forall length_char cc) /\
  (forall f, int_of_float f = None -> _format_mmss_cc (PyFloat f) = None).
Proof.
  split; [|split].
  - intros z Hz. destruct (mmss_cc_reads_back z 0 Hz)
      as (mm & ss & cc & E & Dm & Lm & Ds & Ls & Bs & V & _ & C).
    exists mm, ss. cbn [_format_mmss_cc]. rewrite E, (C eq_refl).
    repeat split; assumption.
  - intros f s out I Hs. cbn [_format_mmss_cc]. rewrite I.
    destruct (round _) as [ms|]; [|discriminate]. intros [= <-].
    destruct (mmss_cc_reads_back s ms Hs)
      as (mm & ss & cc & E & Dm & Lm & Ds & Ls & Bs & V & Cc & _).
    exists mm, ss, cc. repeat split; assumption.
  - intros f I. cbn [_format_mmss_cc]. rewrite I. reflexivity.
Qed.

(** ** The header: [build_lrc_header] *)

Lemma not_linebreak_not_CR (c : ascii) : is_linebreak c = false -> Ascii.eqb c CR = false.
Proof.
  intros H. destruct (Ascii.eqb c CR) eqn:E; [|reflexivity].
  apply Ascii.eqb_eq in E. subst c. discriminate H.
Qed.

Lemma splitlines_from_line (cur l rest : str) :
  no_linebreak l ->
  splitlines_from cur (l ++ LF :: rest) = rev (rev l ++ cur) :: splitlines_from [] rest.
Proof.
  intros H. revert cur. induction H as [|c l Hc Hl IH]; intros cur.
  - reflexivity.
  - cbn [app splitlines_from]. rewrite (not_linebreak_not_CR c Hc), Hc, IH.
    cbn [rev]. rewrite <- app_assoc. reflexivity.
Qed.

Lemma splitlines_from_last (cur l : str) :
  no_linebreak l -> splitlines_from cur l =
                    match rev l ++ cur with [] => [] | _ => [rev (rev l ++ cur)] end.
Proof.
  intros H. revert cur. induction H as [|c l Hc Hl IH]; intros cur.
  - reflexivity.
  - cbn [splitlines_from]. rewrite (not_linebreak_not_CR c Hc), Hc, IH.
    cbn [rev]. rewrite <- app_assoc. reflexivity.
Qed.

(** A line without line boundary, followed by a line feed, is the first
    line of the text. *)
Lemma splitlines_line (l rest : str) :
  no_linebreak l -> splitlines (l ++ py NL ++ rest) = l :: splitlines rest.
Proof.
  intros H. unfold splitlines. change (py NL ++ rest) with (LF :: rest).
  rewrite splitlines_from_line by assumption. now rewrite app_nil_r, rev_involutive.
Qed.

Lemma splitlines_last (l : str) :
  no_linebreak l -> l <> [] -> splitlines l = [l].
Proof.
  intros H N. unfold splitlines. rewrite splitlines_from_last by assumption.
  rewrite app_nil_r. destruct (rev l) eqn:E.
  - apply (f_equal (@rev ascii)) in E. rewrite rev_involutive in E. contradiction.
  - rewrite <- E, rev_involutive. reflexivity.
Qed.

Lemma join_cons (sep p q : str) (ps : list str) :
  join sep (p :: q :: ps) = p ++ sep ++ join sep (q :: ps).
Proof. reflexivity. Qed.

Lemma splitlines_join (p : str) (ps : list str) :
  Forall no_linebreak (p :: ps) -> Forall (fun l => l <> []) (p :: ps) ->
  splitlines (join (py NL) (p :: ps)) = p :: ps.
Proof.
  revert p. induction ps as [|q qs IH]; intros p B N.
  - apply splitlines_last; [now inversion B | now inversion N].
  - rewrite join_cons, splitlines_line by (now inversion B).
    rewrite IH; [reflexivity | now inversion B | now inversion N].
Qed.

Lemma splitlines_join_app (p : str) (ps : list str) (rest : str) :
  Forall no_linebreak (p :: ps) ->
  splitlines (join (py NL) (p :: ps) ++ py NL ++ rest) = (p :: ps) ++ splitlines rest.
Proof.
  revert p. induction ps as [|q qs IH]; intros p B.
  - apply splitlines_line. now inversion B.
  - rewrite join_cons, <- !app_assoc, splitlines_line by (now inversion B).
    rewrite IH by (now inversion B). reflexivity.
Qed.

Lemma length_chars_no_linebreak (s : str) : Forall length_char s -> no_linebreak s.
Proof.
  apply Forall_impl. intros c [H | [-> | [-> | ->]]]; try reflexivity.
  unfold is_digit in H. unfold is_linebreak.
  apply andb_true_iff in H. destruct H as [H1 H2].
  apply Nat.leb_le in H1. apply Nat.leb_le in H2.
  repeat (apply orb_false_iff; split); apply Nat.eqb_neq; lia.
Qed.

Lemma no_linebreak_app (a b : str) : no_linebreak a -> no_linebreak b -> no_linebreak (a ++ b).
Proof. intros. apply Forall_app. split; assumption. Qed.

Lemma no_linebreak_bracketed (key body : string) (s : str) :
  no_linebreak (py key) -> no_linebreak s -> no_linebreak (py key ++ s ++ py "]").
Proof.
  intros K H. repeat apply no_linebreak_app; try assumption. repeat constructor.
Qed.

Lemma header_parts_no_linebreak (title artist : str) (length : option str) (match_tag : str) :
  no_linebreak title -> no_linebreak artist -> no_linebreak match_tag ->
  match length with Some l => no_linebreak l | None => True end ->
  Forall no_linebreak (header_parts title artist length match_tag).
Proof.
  intros T A M L. unfold header_parts. repeat (apply Forall_app; split).
  - destruct (nonempty title); constructor; [|constructor].
    apply (no_linebreak_bracketed "[ti:" ""); [repeat constructor | assumption].
  - destruct (nonempty artist); constructor; [|constructor].
    apply (no_linebreak_bracketed "[ar:" ""); [repeat constructor | assumption].
  - destruct length as [l|]; constructor; [|constructor].
    apply (no_linebreak_bracketed "[length:" ""); [repeat constructor | assumption].
  - constructor; [repeat constructor|]. constructor; [|constructor].
    apply (no_linebreak_bracketed "[match:" ""); [repeat constructor | assumption].
Qed.

Lemma header_parts_nonempty (title artist : str) (length : option str) (match_tag : str) :
  Forall (fun l => l <> []) (header_parts title artist length match_tag).
Proof.
  unfold header_parts. repeat (apply Forall_app; split).
  - destruct (nonempty title); repeat constructor; discriminate.
  - destruct (nonempty artist); repeat constructor; discriminate.
  - destruct length; repeat constructor; discriminate.
  - repeat constructor; discriminate.
Qed.

Lemma header_parts_length (title artist : str) (length : option str) (match_tag : str) :
  List.length (header_parts title artist length match_tag) =
  (if nonempty title then 1 else 0) + (if nonempty artist then 1 else 0) +
  (match length with Some _ => 1 | None => 0 end) + 2.
Proof.
  unfold header_parts. rewrite !length_app.
  destruct (nonempty title), (nonempty artist), length; reflexivity.
Qed.

(** What [build_lrc_header] returns, in terms of its list [parts]. *)
Lemma build_lrc_header_parts (title artist : str) (length_sec : option number)
  (match_tag header : str) :
  build_lrc_header title artist length_sec match_tag = Some header ->
  exists length,
    option_map Some length = option_map _format_mmss_cc length_sec /\
    header = join (py NL) (header_parts title artist length match_tag).
Proof.
  unfold build_lrc_header. destruct length_sec as [n|].
  - destruct (_format_mmss_cc n) as [l|] eqn:F; [|discriminate].
    intros [= <-]. exists (Some l). cbn. rewrite F. auto.
  - intros [= <-]. exists None. auto.
Qed.

Lemma header_lines (title artist : str) (length_sec : option number)
  (match_tag header : str) :
  no_linebreak title -> no_linebreak artist -> no_linebreak match_tag ->
  build_lrc_header title artist length_sec match_tag = Some header ->
  exists length,
    option_map Some length = option_map _format_mmss_cc length_sec /\
    splitlines header = header_parts title artist length match_tag /\
    forall lrc, splitlines (full_lrc header lrc)
                = header_parts title artist length match_tag ++ splitlines lrc.
Proof.
  intros T A M B.
  destruct (build_lrc_header_parts _ _ _ _ _ B) as (length & F & ->).
  exists length. split; [exact F|].
  assert (Forall no_linebreak (header_parts title artist length match_tag)) as NB.
  { apply header_parts_no_linebreak; try assumption.
    destruct length as [l|]; [|exact I]. destruct length_sec as [n|]; [|discriminate F].
    cbn in F. injection F as F. symmetry in F.
    apply length_chars_no_linebreak, (format_mmss_cc_chars n l F). }
  pose proof (header_parts_nonempty title artist length match_tag) as NE.
  pose proof (header_parts_length title artist length match_tag) as Len.
  destruct (header_parts title artist length match_tag) as [|p ps] eqn:P;
    [cbn in Len; lia|].
  split; [now apply splitlines_join|].
  intros lrc. unfold full_lrc. now apply splitlines_join_app.
Qed.

(** X7. When title, artist and match tag hold no line boundary, the header
    that [build_lrc_header] returns splits into exactly the lines it was
    joined from: the title line if the title is not empty, the artist line
    if the artist is not empty, the length line if a length was given, then
    [[by:LyricSync Pro]] and the match line; that is two to five lines.  In
    the text put in the views, the lines of the lyric follow them
    unchanged. *)
Theorem X7_header_lines (title artist : str) (length_sec : option number)
  (match_tag header : str) :
  no_linebreak title -> no_linebreak artist -> no_linebreak match_tag ->
  build_lrc_header title artist length_sec match_tag = Some header ->
  exists length,
    option_map Some length = option_map _format_mmss_cc length_sec /\
    splitlines header =
      (if nonempty title then [py "[ti:" ++ title ++ py "]"] else []) ++
      (if nonempty artist then [py "[ar:" ++ artist ++ py "]"] else []) ++
      match length with Some l => [py "[length:" ++ l ++ py "]"] | None => [] end ++
      [py "[by:LyricSync Pro]"; py "[match:" ++ match_tag ++ py "]"] /\
    2 <= List.length (splitlines header) <= 5 /\
    forall lrc, splitlines (full_lrc header lrc) = splitlines header ++ splitlines lrc.
Proof.
  intros T A M B.
  destruct (header_lines _ _ _ _ _ T A M B) as (length & F & S1 & S2).
  exists length. split; [exact F|]. split; [exact S1|]. split.
  - rewrite S1. fold (header_parts title artist length match_tag).
    rewrite header_parts_length.
    destruct (nonempty title), (nonempty artist), length; cbn; lia.
  - intros lrc. rewrite S1. apply S2.
Qed.

(** ** The index of a downloaded lyric *)

Lemma plain_no_linebreak (s : str) : plain s -> no_linebreak s.
Proof. apply Forall_impl. now intros c [H _]. Qed.

Lemma plain_no_bracket (s : str) : plain s -> ~ In "["%char s.
Proof.
  intros H I. unfold plain in H. rewrite Forall_forall in H.
  destruct (H _ I) as [_ N]. now apply N.
Qed.

Lemma length_chars_no_bracket (s : str) : Forall length_char s -> ~ In "["%char s.
Proof.
  intros H I. rewrite Forall_forall in H.
  destruct (H _ I) as [D | [E | [E | E]]]; discriminate.
Qed.

(** The text of a tag is an opening bracket and then a digit. *)
Lemma tag_text_head (t : time_tag) :
  well_formed t -> exists d rest, is_digit d = true /\ tag_text t = "["%char :: d :: rest.
Proof.
  destruct t as [mm ss fr]. unfold well_formed, tag_text. cbn [minutes seconds fraction].
  intros (Dm & Lm & _). destruct mm as [|d mm]; [cbn in Lm; lia|].
  exists d. eexists. split; [now inversion Dm | reflexivity].
Qed.

(** A line whose only opening bracket is its first character and stands
    before something other than a digit holds no tag. *)
Lemma no_tag_bracket_line (c : ascii) (rest : str) (p : nat) (t : time_tag) :
  is_digit c = false -> ~ In "["%char (c :: rest) -> ~ tag_at ("["%char :: c :: rest) p t.
Proof.
  intros Hc Hb (Hw & pre & post & E & _).
  destruct (tag_text_head t Hw) as (d & r & Hd & Et). rewrite Et in E.
  destruct pre as [|x pre].
  - cbn in E. injection E as ->. congruence.
  - cbn in E. injection E as _ E. apply Hb. rewrite E.
    apply in_or_app. right. now left.
Qed.

Lemma header_line_no_tag (c : ascii) (key s : str) (i : nat) :
  is_digit c = false -> ~ In "["%char (c :: key) -> ~ In "["%char s ->
  line_entry i ("["%char :: c :: key ++ s ++ py "]") = [].
Proof.
  intros Hc Hk Hs. apply line_entry_no_tag. intros p t.
  apply no_tag_bracket_line; [assumption|].
  change (c :: key ++ s ++ py "]") with ((c :: key) ++ s ++ py "]").
  intros I. apply in_app_or in I. destruct I as [I | I]; [now apply Hk|].
  apply in_app_or in I. destruct I as [I | I]; [now apply Hs|].
  destruct I as [I | []]. discriminate I.
Qed.

Ltac no_bracket := cbn; intros H; repeat destruct H as [H | H]; try discriminate H; exact H.

Lemma entries_of_app (a b : list (nat * str)) :
  entries_of (a ++ b) = entries_of a ++ entries_of b.
Proof. unfold entries_of. apply flat_map_app. Qed.

Lemma enumerate_from_app {A : Type} (k : nat) (a b : list A) :
  enumerate_from k (a ++ b) = enumerate_from k a ++ enumerate_from (List.length a + k) b.
Proof.
  revert k. induction a as [|x a IH]; intros k; [reflexivity|].
  cbn. rewrite IH. repeat f_equal. lia.
Qed.

Lemma entries_of_no_tag (k : nat) (lines : list str) :
  Forall (fun l => forall i, line_entry i l = []) lines ->
  entries_of (enumerate_from k lines) = [].
Proof.
  intros H. revert k. induction H as [|l lines Hl _ IH]; intros k; [reflexivity|].
  cbn. rewrite Hl, IH. reflexivity.
Qed.

Lemma line_entry_shift (n i : nat) (line : str) :
  line_entry (n + i) line = map (shift_line n) (line_entry i line).
Proof. unfold line_entry. destruct (search TAG line) as [[g rest]|]; reflexivity. Qed.

Lemma entries_of_shift (n k : nat) (lines : list str) :
  entries_of (enumerate_from (n + k) lines)
  = map (shift_line n) (entries_of (enumerate_from k lines)).
Proof.
  revert k. induction lines as [|l lines IH]; intros k; [reflexivity|].
  change (entries_of (enumerate_from (n + k) (l :: lines)))
    with (line_entry (n + k) l ++ entries_of (enumerate_from (S (n + k)) lines)).
  change (entries_of (enumerate_from k (l :: lines)))
    with (line_entry k l ++ entries_of (enumerate_from (S k) lines)).
  rewrite map_app, line_entry_shift, <- (IH (S k)).
  replace (n + S k) with (S (n + k)) by lia. reflexivity.
Qed.

Lemma insert_by_key_shift (n : nat) (x : entry) (l : list entry) :
  insert_by_key (shift_line n x) (map (shift_line n) l)
  = map (shift_line n) (insert_by_key x l).
Proof.
  induction l as [|y l IH]; [reflexivity|].
  cbn [map insert_by_key]. cbn [shift_line fst].
  destruct (fst x <? fst y)%float; [reflexivity|].
  cbn [map]. f_equal. exact IH.
Qed.

(** Sorting by offset and moving the line numbers commute. *)
Lemma list_sort_shift (n : nat) (l : list entry) :
  list_sort (map (shift_line n) l) = map (shift_line n) (list_sort l).
Proof.
  unfold list_sort. change (@nil entry) with (map (shift_line n) []) at 1.
  generalize (@nil entry) as acc. induction l as [|x l IH]; intros acc; [reflexivity|].
  cbn [map fold_left]. rewrite insert_by_key_shift. apply IH.
Qed.

Lemma header_parts_no_tag (title artist : str) (length : option str) (match_tag : str) :
  plain title -> plain artist -> plain match_tag ->
  match length with Some l => Forall length_char l | None => True end ->
  Forall (fun l => forall i, line_entry i l = [])
         (header_parts title artist length match_tag).
Proof.
  intros T A M L. unfold header_parts. repeat (apply Forall_app; split).
  - destruct (nonempty title); constructor; [|constructor]. intros i.
    apply (header_line_no_tag "t" (py "i:")); [reflexivity | no_bracket | now apply plain_no_bracket].
  - destruct (nonempty artist); constructor; [|constructor]. intros i.
    apply (header_line_no_tag "a" (py "r:")); [reflexivity | no_bracket | now apply plain_no_bracket].
  - destruct length as [l|]; constructor; [|constructor]. intros i.
    apply (header_line_no_tag "l" (py "ength:"));
      [reflexivity | no_bracket | now apply length_chars_no_bracket].
  - constructor; [intros i; reflexivity|]. constructor; [|constructor]. intros i.
    apply (header_line_no_tag "m" (py "atch:")); [reflexivity | no_bracket | now apply plain_no_bracket].
Qed.

(** The index of a header followed by a lyric is the index of the lyric,
    its line numbers moved down by the number of header lines. *)
Lemma rebuild_index_full_lrc (title artist : str) (length_sec : option number)
  (match_tag header lrc : str) :
  plain title -> plain artist -> plain match_tag ->
  build_lrc_header title artist length_sec match_tag = Some header ->
  rebuild_index (full_lrc header lrc)
  = map (shift_line (List.length (splitlines header))) (rebuild_index lrc).
Proof.
  intros T A M B.
  destruct (header_lines _ _ _ _ _ (plain_no_linebreak _ T) (plain_no_linebreak _ A)
              (plain_no_linebreak _ M) B) as (length & F & S1 & S2).
  unfold rebuild_index. rewrite !scan_entries_flat_map, S2, S1.
  unfold enumerate. rewrite enumerate_from_app, entries_of_app.
  rewrite entries_of_no_tag.
  - cbn [app]. rewrite entries_of_shift, list_sort_shift. reflexivity.
  - apply header_parts_no_tag; try assumption.
    destruct length as [l|]; [|exact I]. destruct length_sec as [n|]; [|discriminate F].
    cbn in F. injection F as F. symmetry in F. exact (format_mmss_cc_chars n l F).
Qed.

(** X8. When title, artist and match tag hold neither a line boundary nor
    an opening bracket, no header line is taken for a time tag: the index
    rebuilt from header and lyric together is the index of the lyric alone
    with every line number raised by the number of header lines, the
    offsets and their order unchanged. *)
Theorem X8_header_shifts_index (title artist : str) (length_sec : option number)
  (match_tag header lrc : str) :
  plain title -> plain artist -> plain match_tag ->
  build_lrc_header title artist length_sec match_tag = Some header ->
  rebuild_index (full_lrc header lrc)
  = map (fun e => (fst e, List.length (splitlines header) + snd e)) (rebuild_index lrc).
Proof. apply rebuild_index_full_lrc. Qed.

Lemma X7_header_lines_witness :
  exists length,
    option_map Some length = option_map _format_mmss_cc (Some (PyFloat 203.5)) /\
    splitlines song_header =
      (if nonempty (py "Song") then [py "[ti:" ++ py "Song" ++ py "]"] else []) ++
      (if nonempty (py "Me") then [py "[ar:" ++ py "Me" ++ py "]"] else []) ++
      match length with Some l => [py "[length:" ++ l ++ py "]"] | None => [] end ++
      [py "[by:LyricSync Pro]"; py "[match:" ++ py "id3" ++ py "]"] /\
    2 <= List.length (splitlines song_header) <= 5 /\
    forall lrc, splitlines (full_lrc song_header lrc) = splitlines song_header ++ splitlines lrc.
Proof.
  apply (X7_header_lines (py "Song") (py "Me") (Some (PyFloat 203.5)) (py "id3") song_header).
  - repeat constructor.
  - repeat constructor.
  - repeat constructor.
  - vm_compute. reflexivity.
Defined.

Lemma X8_header_shifts_index_witness :
  rebuild_index (full_lrc song_header scenario_A)
  = map (fun e => (fst e, List.length (splitlines song_header) + snd e))
        (rebuild_index scenario_A).
Proof.
  apply (X8_header_shifts_index (py "Song") (py "Me") (Some (PyFloat 203.5)) (py "id3")).
  - repeat (constructor; [split; [reflexivity | discriminate]|]). constructor.
  - repeat (constructor; [split; [reflexivity | discriminate]|]). constructor.
  - repeat (constructor; [split; [reflexivity | discriminate]|]). constructor.
  - vm_compute. reflexivity.
Defined.

(** ** The search: [search_songs] *)

Lemma for_each_some {A B : Type} (body : A -> option B) (l : list A) (ys : list B) :
  for_each body l = Some ys ->
  List.length ys = List.length l /\
  forall k x, nth_error l k = Some x ->
              exists y, body x = Some y /\ nth_error ys k = Some y.
Proof.
  revert ys. induction l as [|a l IH]; intros ys H; cbn in H.
  - injection H as <-. split; [reflexivity|]. intros [|k] x N; discriminate N.
  - destruct (body a) as [y|] eqn:Ea; [|discriminate H]. cbn in H.
    destruct (for_each body l) as [ys'|]; [|discriminate H]. cbn in H.
    injection H as <-. destruct (IH ys' eq_refl) as [L N]. split; [cbn; now rewrite L|].
    intros [|k] x Nx; cbn in Nx.
    + injection Nx as <-. exists y. auto.
    + apply N. exact Nx.
Qed.

Lemma for_each_none {A B : Type} (body : A -> option B) (l : list A) (x : A) :
  In x l -> body x = None -> for_each body l = None.
Proof.
  intros I E. induction l as [|a l IH]; [destruct I|]. cbn.
  destruct I as [-> | I].
  - rewrite E. reflexivity.
  - destruct (body a); [|reflexivity]. cbn. rewrite (IH I). reflexivity.
Qed.

(** A record is made from a dict only; it carries the id of the entry and
    its duration when that is an [int] or a [bool]. *)
Lemma song_record_some (s : json) (r : song) :
  song_record s = Some r ->
  exists kv, s = JObj kv /\
    id r = match assoc (py "id") kv with Some v => v | None => JNull end /\
    duration_ms r = match assoc (py "duration") kv with
                    | Some (JInt z) => JInt z
                    | Some (JBool b) => JBool b
                    | _ => JNull
                    end.
Proof.
  destruct s as [| | | | | |kv]; try discriminate. intros H. exists kv.
  split; [reflexivity|]. unfold song_record in H. cbn [dict_get and_then] in H.
  destruct (iterate _) as [items|]; [|discriminate H]. cbn [and_then] in H.
  destruct (for_each artist_name items) as [names|]; [|discriminate H]. cbn [and_then] in H.
  injection H as <-. cbn [id duration_ms]. split; [reflexivity|].
  cbn. destruct (assoc _ kv) as [[]|]; reflexivity.
Qed.

Lemma song_record_not_dict (s : json) : (forall kv, s <> JObj kv) -> song_record s = None.
Proof.
  intros H. destruct s; try reflexivity. exfalso. now apply (H kv).
Qed.

Lemma for_each_song_record_strings {A : Type} (f : A -> str) (l : list A) :
  for_each song_record (map (fun x => JStr (f x)) l) = match l with [] => Some [] | _ => None end.
Proof. destruct l; reflexivity. Qed.

(** What a result that is not empty tells about the response. *)
Lemma search_songs_some (search_get : str -> Z -> response) (keywords : str) (limit : Z) :
  search_songs search_get keywords limit <> [] ->
  exists data entries,
    search_get keywords (Z.max 1 (Z.min limit 50)) = Json data /\
    songs_of data = Some (JArr entries) /\
    for_each song_record entries = Some (search_songs search_get keywords limit).
Proof.
  unfold search_songs.
  destruct (search_get keywords (Z.max 1 (Z.min limit 50))) as [|data]; [congruence|].
  destruct (songs_of data) as [songs|] eqn:S; [|cbn; congruence]. cbn [and_then].
  intros H. exists data.
  destruct songs as [| | | |s|entries|kv]; try (cbn in H; congruence).
  - exfalso. apply H. cbn [iterate and_then].
    rewrite (for_each_song_record_strings (fun c => [c]) s). now destruct s.
  - exists entries. split; [reflexivity|]. split; [exact S|].
    cbn [iterate and_then] in *. destruct (for_each song_record entries); [reflexivity | congruence].
  - exfalso. apply H. cbn [iterate and_then].
    rewrite (for_each_song_record_strings fst kv). now destruct kv.
Qed.

(** X9. [search_songs] returns all or nothing: when its result is not
    empty, the response body holds the songs in a list, every entry of the
    list is a dict, and the result has one record per entry, in the same
    order, the k-th record with the id of the k-th entry and with its
    duration when that is an [int] or a [bool], [None] otherwise. *)
Theorem X9_search_songs_all_or_nothing
  (search_get : str -> Z -> response) (keywords : str) (limit : Z) :
  search_songs search_get keywords limit <> [] ->
  exists data entries,
    search_get keywords (Z.max 1 (Z.min limit 50)) = Json data /\
    songs_of data = Some (JArr entries) /\
    List.length (search_songs search_get keywords limit) = List.length entries /\
    forall k s, nth_error entries k = Some s ->
      exists kv r,
        s = JObj kv /\
        nth_error (search_songs search_get keywords limit) k = Some r /\
        id r = match assoc (py "id") kv with Some v => v | None => JNull end /\
        duration_ms r = match assoc (py "duration") kv with
                        | Some (JInt z) => JInt z
                        | Some (JBool b) => JBool b
                        | _ => JNull
                        end.
Proof.
  intros H. destruct (search_songs_some search_get keywords limit H)
    as (data & entries & G & S & F).
  exists data, entries. split; [exact G|]. split; [exact S|].
  destruct (for_each_some _ _ _ F) as [L N]. split; [exact L|].
  intros k s Ns. destruct (N k s Ns) as (r & R & Nr).
  destruct (song_record_some s r R) as (kv & -> & I & D). exists kv, r. auto.
Qed.

Lemma X9_search_songs_all_or_nothing_witness :
  exists data entries,
    searching three_songs (py "Song") (Z.max 1 (Z.min 20 50)) = Json data /\
    songs_of data = Some (JArr entries) /\
    List.length (search_songs (searching three_songs) (py "Song") 20) = List.length entries /\
    forall k s, nth_error entries k = Some s ->
      exists kv r,
        s = JObj kv /\
        nth_error (search_songs (searching three_songs) (py "Song") 20) k = Some r /\
        id r = match assoc (py "id") kv with Some v => v | None => JNull end /\
        duration_ms r = match assoc (py "duration") kv with
                        | Some (JInt z) => JInt z
                        | Some (JBool b) => JBool b
                        | _ => JNull
                        end.
Proof.
  apply (X9_search_songs_all_or_nothing (searching three_songs) (py "Song") 20).
  vm_compute. discriminate.
Defined.

(** X10. One entry of the song list that is not a dict makes
    [search_songs] return the empty list, whatever the other entries are. *)
Theorem X10_search_songs_one_bad_entry
  (search_get : str -> Z -> response) (keywords : str) (limit : Z)
  (data : json) (entries : list json) (s : json) :
  search_get keywords (Z.max 1 (Z.min limit 50)) = Json data ->
  songs_of data = Some (JArr entries) ->
  In s entries -> (forall kv, s <> JObj kv) ->
  search_songs search_get keywords limit = [].
Proof.
  intros G S I N. unfold search_songs. rewrite G, S. cbn [and_then iterate].
  rewrite (for_each_none song_record entries s I (song_record_not_dict s N)). reflexivity.
Qed.

Lemma X10_search_songs_one_bad_entry_witness :
  search_songs (searching three_songs_and_null) (py "Song") 20 = [].
Proof.
  apply (X10_search_songs_one_bad_entry (searching three_songs_and_null) (py "Song") 20
           three_songs_and_null
           [entry_of 5 "Song (live)" "Me" (JInt 250000);
            entry_of 7 "Song" "Me" (JInt 203000);
            JNull;
            entry_of 9 "Song" "You" (JInt 204000)] JNull).
  - reflexivity.
  - vm_compute. reflexivity.
  - cbn. auto.
  - intros kv. discriminate.
Defined.

(** ** The pick: [auto_pick_song] *)

(** [r], at position [k], is the first element of [l] with the least key. *)
Lemma insert_by_head {A : Type} (key : A -> Z) (x h : A) (t : list A) :
  hd_error (insert_by key x (h :: t)) = Some (if (key x <? key h)%Z then x else h).
Proof. cbn. destruct (key x <? key h)%Z; reflexivity. Qed.

Lemma insert_by_cons {A : Type} (key : A -> Z) (x : A) (l : list A) :
  exists h t, insert_by key x l = h :: t.
Proof.
  destruct l as [|y l]; cbn; [eauto|]. destruct (key x <? key y)%Z; eauto.
Qed.

Lemma fold_insert_by_first_least {A : Type} (key : A -> Z) (l pre acc : list A)
  (h : A) (k : nat) :
  hd_error acc = Some h ->
  nth_error pre k = Some h ->
  (forall j x, j < k -> nth_error pre j = Some x -> (key h < key x)%Z) ->
  (forall j x, nth_error pre j = Some x -> (key h <= key x)%Z) ->
  exists k' r,
    hd_error (fold_left (fun acc x => insert_by key x acc) l acc) = Some r /\
    nth_error (pre ++ l) k' = Some r /\
    (forall j x, j < k' -> nth_error (pre ++ l) j = Some x -> (key r < key x)%Z) /\
    (forall j x, nth_error (pre ++ l) j = Some x -> (key r <= key x)%Z).
Proof.
  revert pre acc h k. induction l as [|x l IH]; intros pre acc h k Hh Hk Hlt Hle.
  - exists k, h. rewrite app_nil_r. auto.
  - cbn [fold_left]. destruct acc as [|h0 t]; [discriminate Hh|].
    cbn in Hh. injection Hh as ->.
    replace (pre ++ x :: l) with ((pre ++ [x]) ++ l) by (rewrite <- app_assoc; reflexivity).
    assert (k < List.length pre) as Bk by (apply nth_error_Some; congruence).
    destruct (insert_by_cons key x (h :: t)) as (h1 & t1 & E1).
    pose proof (insert_by_head key x h t) as Hd. rewrite E1 in Hd. cbn in Hd.
    injection Hd as Hd. rewrite E1.
    destruct (Z.ltb_spec (key x) (key h)) as [Lt | Ge].
    + subst h1. apply (IH (pre ++ [x]) (x :: t1) x (List.length pre)).
      * reflexivity.
      * rewrite nth_error_app2, Nat.sub_diag by lia. reflexivity.
      * intros j y Hj Ny. rewrite nth_error_app1 in Ny by lia.
        specialize (Hle j y Ny). lia.
      * intros j y Ny. destruct (Nat.lt_ge_cases j (List.length pre)) as [Hj | Hj].
        -- rewrite nth_error_app1 in Ny by lia. specialize (Hle j y Ny). lia.
        -- rewrite nth_error_app2 in Ny by lia.
           destruct (j - List.length pre) as [|m]; cbn in Ny.
           ++ injection Ny as <-. lia.
           ++ destruct m; discriminate Ny.
    + subst h1. apply (IH (pre ++ [x]) (h :: t1) h k).
      * reflexivity.
      * rewrite nth_error_app1 by lia. exact Hk.
      * intros j y Hj Ny. rewrite nth_error_app1 in Ny by lia. exact (Hlt j y Hj Ny).
      * intros j y Ny. destruct (Nat.lt_ge_cases j (List.length pre)) as [Hj | Hj].
        -- rewrite nth_error_app1 in Ny by lia. exact (Hle j y Ny).
        -- rewrite nth_error_app2 in Ny by lia.
           destruct (j - List.length pre) as [|m]; cbn in Ny.
           ++ injection Ny as <-. lia.
           ++ destruct m; discriminate Ny.
Qed.

(** The head of a sorted list is the first element with the least key. *)
Lemma sort_by_head {A : Type} (key : A -> Z) (first : A) (rest : list A) :
  exists k r,
    hd_error (sort_by key (first :: rest)) = Some r /\
    nth_error (first :: rest) k = Some r /\
    (forall j x, j < k -> nth_error (first :: rest) j = Some x -> (key r < key x)%Z) /\
    (forall j x, nth_error (first :: rest) j = Some x -> (key r <= key x)%Z).
Proof.
  unfold sort_by. cbn [fold_left insert_by].
  apply (fold_insert_by_first_least key rest [first] [first] first 0).
  - reflexivity.
  - reflexivity.
  - intros j x Hj. lia.
  - intros [|j] x N; cbn in N; [injection N as <-; lia | destruct j; discriminate N].
Qed.

(** X11. With a local duration whose milliseconds convert to an [int], and
    a search result that is not empty, [auto_pick_song] returns the first of
    the results whose duration is closest to the local one: no result is
    closer, and every result before it is farther. *)
Theorem X11_auto_pick_first_closest
  (search_get : str -> Z -> response) (keyword : str) (d : float) (target_ms : Z) :
  int_of_float (d * 1000)%float = Some target_ms ->
  search_songs search_get keyword 20 <> [] ->
  exists k r,
    auto_pick_song search_get keyword (Some d) = Ok (Some r) /\
    nth_error (search_songs search_get keyword 20) k = Some r /\
    (forall j x, j < k -> nth_error (search_songs search_get keyword 20) j = Some x ->
                 (distance target_ms r < distance target_ms x)%Z) /\
    (forall x, In x (search_songs search_get keyword 20) ->
               (distance target_ms r <= distance target_ms x)%Z).
Proof.
  intros T N. unfold auto_pick_song. rewrite T.
  destruct (search_songs search_get keyword 20) as [|first rest]; [congruence|].
  destruct (sort_by_head (distance target_ms) first rest) as (k & r & H & Nk & Lt & Le).
  exists k, r. rewrite H. split; [reflexivity|]. split; [exact Nk|]. split; [exact Lt|].
  intros x I. apply In_nth_error in I. destruct I as [j Nj]. exact (Le j x Nj).
Qed.

Lemma X11_auto_pick_first_closest_witness :
  exists k r,
    auto_pick_song (searching three_songs) (py "Song") (Some 203.5%float) = Ok (Some r) /\
    nth_error (search_songs (searching three_songs) (py "Song") 20) k = Some r /\
    (forall j x, j < k ->
                 nth_error (search_songs (searching three_songs) (py "Song") 20) j = Some x ->
                 (distance 203500 r < distance 203500 x)%Z) /\
    (forall x, In x (search_songs (searching three_songs) (py "Song") 20) ->
               (distance 203500 r <= distance 203500 x)%Z).
Proof.
  apply (X11_auto_pick_first_closest (searching three_songs) (py "Song") 203.5%float 203500).
  - vm_compute. reflexivity.
  - vm_compute. discriminate.
Defined.

Lemma sort_by_head_some {A : Type} (key : A -> Z) (first : A) (rest : list A) :
  hd_error (sort_by key (first :: rest)) <> None.
Proof.
  destruct (sort_by_head key first rest) as (k & r & H & _). congruence.
Qed.

(** X12. The outcomes of [auto_pick_song]: without a local duration it
    returns the first search result; it returns [None] exactly when the
    search returns nothing; it raises exactly when the search returned
    something and converting the duration to milliseconds raises. *)
Theorem X12_auto_pick_outcomes (search_get : str -> Z -> response) (keyword : str) :
  auto_pick_song search_get keyword None = Ok (hd_error (search_songs search_get keyword 20)) /\
  (forall d, auto_pick_song search_get keyword d = Ok None <->
             search_songs search_get keyword 20 = []) /\
  (forall d e, auto_pick_song search_get keyword d = Raise e <->
               search_songs search_get keyword 20 <> [] /\ e = PyException /\
               exists f, d = Some f /\ int_of_float (f * 1000)%float = None).
Proof.
  unfold auto_pick_song.
  destruct (search_songs search_get keyword 20) as [|first rest].
  - split; [reflexivity|]. split.
    + intros d. tauto.
    + intros d e. split; [discriminate | intros [H _]; congruence].
  - split; [reflexivity|]. split.
    + intros [f|]; [|split; discriminate].
      destruct (int_of_float (f * 1000)%float) as [t|]; [|split; discriminate].
      split; [|discriminate]. intros [= H].
      now apply sort_by_head_some in H.
    + intros [f|] e.
      * destruct (int_of_float (f * 1000)%float) as [t|] eqn:T.
        -- split; [discriminate|]. intros (_ & _ & f' & [= <-] & T'). congruence.
        -- split.
           ++ intros [= <-]. split; [discriminate|]. split; [reflexivity|]. eauto.
           ++ intros (_ & -> & _). reflexivity.
      * split; [discriminate|]. intros (_ & _ & f' & D & _). discriminate D.
Qed.

(** ** The download: [download_lrc] and [download_lyric_auto] *)

Section Download.

Variable search_get : str -> Z -> response.
Variable lyric_get : json -> response.
Variable blockCount : QTextEdit -> nat.
Variable scroll_target : QTextEdit -> nat -> align -> Z + raised.
Variable top_block : QTextEdit -> Z + raised.
Variable relayout : QTextEdit -> Z.

Local Abbreviation download :=
  (download_lyric_auto search_get lyric_get blockCount scroll_target top_block relayout).
Local Abbreviation set_plain_text := (setPlainText blockCount scroll_target top_block relayout).

(** [download_lrc] raises nothing but an [Exception]. *)
Lemma download_lrc_raises (title : str) (duration : option float) (e : raised) :
  download_lrc search_get lyric_get title duration = Raise e -> e = PyException.
Proof.
  unfold download_lrc, auto_pick_song.
  destruct (search_songs search_get title 20) as [|first rest]; [discriminate|].
  destruct duration as [f|].
  - destruct (int_of_float (f * 1000)%float); [|now intros [= <-]].
    destruct (hd_error _); discriminate.
  - discriminate.
Qed.

(** X13. When the search finds no song, or the duration of the audio
    cannot be converted to milliseconds (the exception of the download is
    caught), or the lyric service has no lyric for any song,
    [download_lyric_auto] returns with the window exactly as it was: both
    texts, the index and the current line are untouched. *)
Theorem X13_download_nothing_found (fuel : nat) (title artist : str) (duration : option float)
  (fuzzy : bool) (w : MainWindow) :
  search_songs search_get title 20 = [] \/
  (exists f, duration = Some f /\ int_of_float (f * 1000)%float = None) \/
  (forall song_id, truthy (get_lyric_by_id lyric_get song_id) = false) ->
  download fuel (Some (title, artist, duration, fuzzy)) w = Some (Ok tt, w).
Proof.
  intros H. unfold download_lyric_auto.
  destruct (nonempty title); [|reflexivity]. cbn [negb].
  destruct (download_lrc search_get lyric_get title duration) as [[lrc [chosen|]]|e] eqn:D.
  - assert (truthy lrc = false) as ->; [|reflexivity].
    revert D. unfold download_lrc, auto_pick_song.
    destruct (search_songs search_get title 20) as [|first rest];
      [discriminate|].
    destruct H as [H | [(f & -> & H) | H]]; [discriminate H | rewrite H; discriminate |].
    assert (forall c, truthy (if truthy (id c) then get_lyric_by_id lyric_get (id c)
                              else JNull) = false) as G
        by (intros c; destruct (truthy (id c)); [apply H | reflexivity]).
    destruct duration as [f|].
    + destruct (int_of_float (f * 1000)%float); [|discriminate].
      destruct (hd_error _); [|discriminate]. intros [= <- <-]. apply G.
    + intros [= <- <-]. apply G.
  - reflexivity.
  - rewrite (download_lrc_raises _ _ _ D). reflexivity.
Qed.

Lemma plain_match_tag (fuzzy : bool) : plain (if fuzzy then py "fuzzy" else py "id3").
Proof.
  destruct fuzzy; repeat (constructor; [split; [reflexivity | discriminate]|]); constructor.
Qed.

(** X14. When the title is not empty, title and artist hold neither a line
    boundary nor an opening bracket, the download returns a lyric that is a
    text and not empty, and the header is built, [download_lyric_auto]
    returns or raises with the read-only view showing header, line feed and
    lyric and with the current line as it was; when it returns, the
    editable view shows the same text and the index is that of the lyric
    alone with every line number raised by the number of header lines. *)
Theorem X14_download_shown (fuel : nat) (title artist : str) (duration : option float)
  (fuzzy : bool) (l header : str) (chosen : song) (w : MainWindow) :
  nonempty title = true -> plain title -> plain artist ->
  download_lrc search_get lyric_get title duration = Ok (JStr l, Some chosen) ->
  nonempty l = true ->
  build_lrc_header title artist (option_map PyFloat duration)
    (if fuzzy then py "fuzzy" else py "id3") = Some header ->
  exists r w',
    download (S (S fuel)) (Some (title, artist, duration, fuzzy)) w = Some (r, w') /\
    plainText (w_editor_original w') = full_lrc header l /\
    _current_line_no w' = _current_line_no w /\
    (r = Ok tt ->
     plainText (w_editor w') = full_lrc header l /\
     _lrc_index w' = map (shift_line (List.length (splitlines header))) (rebuild_index l)).
Proof.
  intros Ne Pt Pa D Nl B. unfold download_lyric_auto.
  rewrite Ne, D. cbn [negb truthy]. rewrite Nl, B. cbn [negb].
  unfold or_else. cbn [truthy]. rewrite Nl.
  destruct (set_plain_text_spec blockCount scroll_target top_block relayout fuel
              editor_original (full_lrc header l) w)
    as (r1 & w1 & E1 & C1 & _ & T1 & _).
  unfold bind at 1. rewrite E1. destruct r1 as [[]|ex].
  - destruct (set_plain_text_spec blockCount scroll_target top_block relayout fuel
                editor (full_lrc header l) w1)
      as (r2 & w2 & E2 & C2 & _ & T2 & O2 & I2).
    exists r2, w2. split; [exact E2|]. cbn [widget other] in *.
    split; [congruence|]. split; [congruence|]. intros _. split; [exact T2|].
    rewrite I2. exact (rebuild_index_full_lrc _ _ _ _ _ l Pt Pa (plain_match_tag fuzzy) B).
  - exists (Raise ex), w1. split; [reflexivity|]. cbn [widget] in T1.
    split; [exact T1|]. split; [exact C1|]. discriminate.
Qed.

End Download.


Lemma X13_download_nothing_found_witness :
  download_lyric_auto (searching three_songs_and_null) lyric_of_7
    flat_blockCount flat_scroll_target flat_top_block flat_relayout
    2 (Some (py "Song", py "Me", Some 203.5%float, false)) playing_song_one
  = Some (Ok tt, playing_song_one).
Proof.
  apply (X13_download_nothing_found (searching three_songs_and_null) lyric_of_7).
  left. vm_compute. reflexivity.
Defined.


Lemma X14_download_shown_witness :
  exists r w',
    download_lyric_auto (searching three_songs) lyric_of_7
      flat_blockCount flat_scroll_target flat_top_block flat_relayout
      2 (Some (py "Song", py "Me", Some 203.5%float, false)) playing_song_one
      = Some (r, w') /\
    plainText (w_editor_original w') = full_lrc song_header scenario_A /\
    _current_line_no w' = _current_line_no playing_song_one /\
    (r = Ok tt ->
     plainText (w_editor w') = full_lrc song_header scenario_A /\
     _lrc_index w' =
       map (fun e => (fst e, List.length (splitlines song_header) + snd e))
           (rebuild_index scenario_A)).
Proof.
  apply (X14_download_shown (searching three_songs) lyric_of_7
           flat_blockCount flat_scroll_target flat_top_block flat_relayout
           0 (py "Song") (py "Me") (Some 203.5%float) false scenario_A song_header
           (mkSong (JInt 7) (JStr (py "Song")) (py "Me") (JInt 203000))).
  - reflexivity.
  - repeat (constructor; [split; [reflexivity | discriminate]|]). constructor.
  - repeat (constructor; [split; [reflexivity | discriminate]|]). constructor.
  - vm_compute. reflexivity.
  - reflexivity.
  - vm_compute. reflexivity.
Defined.

(** ** Stored flags *)

Lemma lstrip_spaces (pre s : str) :
  Forall (fun c => is_space c = true) pre -> lstrip (pre ++ s) = lstrip s.
Proof.
  intros H. induction H as [|c pre Hc _ IH]; [reflexivity|].
  cbn [app lstrip]. now rewrite Hc.
Qed.

Lemma lstrip_app (s post : str) :
  Forall (fun c => is_space c = true) post ->
  lstrip (s ++ post) = match lstrip s with [] => [] | _ => lstrip s ++ post end.
Proof.
  intros H. induction s as [|c s IH].
  - cbn [app lstrip]. rewrite <- (app_nil_r post), lstrip_spaces by assumption. reflexivity.
  - cbn [app lstrip]. destruct (is_space c); [exact IH | reflexivity].
Qed.

Lemma lstrip_head (s : str) :
  match lstrip s with [] => True | c :: _ => is_space c = false end.
Proof.
  induction s as [|c s IH]; [exact I|]. cbn [lstrip].
  destruct (is_space c) eqn:E; [exact IH | exact E].
Qed.

(** Whitespace around a text does not change what is left of it. *)
Lemma strip_spaces (pre s post : str) :
  Forall (fun c => is_space c = true) pre -> Forall (fun c => is_space c = true) post ->
  strip (pre ++ s ++ post) = strip s.
Proof.
  intros Hpre Hpost. unfold strip. rewrite lstrip_spaces, lstrip_app by assumption.
  destruct (lstrip s) as [|c r] eqn:E; [reflexivity|].
  rewrite rev_app_distr, lstrip_spaces; [reflexivity|].
  now apply Forall_rev.
Qed.

Lemma is_space_lower_char (c : ascii) : is_space (lower_char c) = is_space c.
Proof. destruct c as [[] [] [] [] [] [] [] []]; reflexivity. Qed.

Lemma lstrip_lower (s : str) : lstrip (lower s) = lower (lstrip s).
Proof.
  induction s as [|c s IH]; [reflexivity|]. cbn [lower map lstrip].
  rewrite is_space_lower_char. destruct (is_space c); [exact IH | reflexivity].
Qed.

Lemma strip_lower (s : str) : strip (lower s) = lower (strip s).
Proof.
  unfold strip. rewrite lstrip_lower. unfold lower at 1. rewrite <- map_rev.
  fold (lower (rev (lstrip s))). rewrite lstrip_lower. unfold lower. now rewrite map_rev.
Qed.

(** X15. For a stored text, the flag depends neither on the default, nor on
    whitespace around the text, nor on letter case. *)
Theorem X15_to_bool_text (pre s post s' : str) (d d' : bool) :
  Forall (fun c => is_space c = true) pre ->
  Forall (fun c => is_space c = true) post ->
  same_but_case s s' ->
  _to_bool (SStr (pre ++ s ++ post)) d = _to_bool (SStr s') d'.
Proof.
  intros Hpre Hpost C. unfold _to_bool. cbn [str_of].
  rewrite strip_spaces by assumption.
  rewrite <- !strip_lower. unfold same_but_case in C. rewrite C. reflexivity.
Qed.

Lemma X15_to_bool_text_witness :
  _to_bool (SStr (py " " ++ py "YES" ++ py (NL))) false = _to_bool (SStr (py "yes")) true.
Proof.
  apply (X15_to_bool_text (py " ") (py "YES") (py NL) (py "yes") false true).
  - repeat constructor.
  - repeat constructor.
  - reflexivity.
Defined.

Lemma str_eqb_eq (a b : str) : str_eqb a b = true <-> a = b.
Proof.
  revert b. induction a as [|x a IH]; intros [|y b]; cbn; try (split; [discriminate | discriminate]).
  - tauto.
  - rewrite andb_true_iff, Ascii.eqb_eq, IH. split; [intros [-> ->]; reflexivity | intros [= -> ->]; auto].
Qed.

Lemma sign_or_digit_keeps (c : ascii) :
  is_digit c = true \/ c = "-"%char -> is_space c = false /\ lower_char c = c.
Proof.
  intros [H | ->]; [|split; reflexivity].
  destruct c as [[] [] [] [] [] [] [] []]; try discriminate; split; reflexivity.
Qed.

(** A decimal number, with or without sign, is left as it is. *)
Lemma number_strip_lower (s : str) :
  Forall (fun c => is_digit c = true \/ c = "-"%char) s -> lower (strip s) = s.
Proof.
  intros D. assert (lower s = s) as L.
  { induction D as [|c s Hc _ IH]; [reflexivity|]. cbn [lower map].
    destruct (sign_or_digit_keeps c Hc) as (_ & ->). fold (lower s). now rewrite IH. }
  assert (forall x, Forall (fun c => is_digit c = true \/ c = "-"%char) x -> lstrip x = x) as K.
  { intros x Dx. destruct Dx as [|c x Hc _]; [reflexivity|]. cbn [lstrip].
    destruct (sign_or_digit_keeps c Hc) as (-> & _). reflexivity. }
  unfold strip. rewrite (K s D), K, rev_involutive; [exact L|].
  now apply Forall_rev.
Qed.

(** X16. Without a stored value the flag is the default; a stored [bool] is
    the flag, and so is its text ([True] or [False]), whatever the default;
    a stored [int] gives true for 1 and false for every other number. *)
Theorem X16_to_bool_values (d : bool) :
  _to_bool SNone d = d /\
  (forall b, _to_bool (SBool b) d = b /\ _to_bool (SStr (str_of (SBool b))) d = b) /\
  (forall z, _to_bool (SInt z) d = (z =? 1)%Z).
Proof.
  split; [reflexivity|]. split; [intros []; split; reflexivity|].
  intros z. unfold _to_bool. cbn [str_of]. unfold format_d.
  destruct (Z.ltb_spec z 0) as [Neg | Pos].
  - replace (z =? 1)%Z with false by (symmetry; apply Z.eqb_neq; lia).
    destruct (int_str_of_nat (Z.to_nat (- z))) as (D & _ & _).
    destruct (zero_pad_spec (0 - 1) _ D) as (D' & _ & _).
    rewrite number_strip_lower; [reflexivity|].
    constructor; [now right|]. revert D'. apply Forall_impl. intros c H. now left.
  - destruct (int_str_of_nat (Z.to_nat z)) as (D & V & L).
    destruct (zero_pad_spec 0 _ D) as (D' & V' & L').
    rewrite number_strip_lower by (revert D'; apply Forall_impl; intros c H; now left).
    destruct (Z.eqb_spec z 1) as [-> | Ne]; [reflexivity|].
    remember (zero_pad 0 (str_of_nat (Z.to_nat z))) as t eqn:Et. clear Et.
    assert (int t = Z.to_nat z) as Vt by congruence.
    assert (1 <= List.length t) as Lt by lia.
    clear V V' L L' D.
    { destruct t as [|c t']; [cbn [List.length] in Lt; lia|].
      inversion D' as [|? ? Hc Dt]; subst.
      assert (str_eqb (c :: t') (py "1") = false) as E1.
      { destruct (str_eqb (c :: t') (py "1")) eqn:E; [|reflexivity].
        apply str_eqb_eq in E. rewrite E in Vt. cbn in Vt. lia. }
      cbn [existsb]. rewrite E1.
      destruct c as [[] [] [] [] [] [] [] []]; try discriminate Hc; reflexivity. }
Qed.

(** ** What a highlight update shows *)

Section Highlighting.

Variable blockCount : QTextEdit -> nat.
Variable scroll_target : QTextEdit -> nat -> align -> Z + raised.
Variable top_block : QTextEdit -> Z + raised.

(** The number of blocks of a view is that of its document. *)
Hypothesis blockCount_of_text :
  forall e e', plainText e = plainText e' -> blockCount e = blockCount e'.

Local Abbreviation value_changed := (on_value_changed blockCount scroll_target top_block).
Local Abbreviation scroll_view := (_scroll_editor_view_to_line blockCount scroll_target).
Local Abbreviation scroll_both := (_scroll_both_to_line blockCount scroll_target top_block).
Local Abbreviation update_highlight := (update_lrc_highlight blockCount scroll_target top_block).

(** What one scroll adjustment under the lock touches: the scroll value of
    its view, by one [setValue], and only when the line is in the view. *)
Lemma scroll_view_locked_frame (fuel : nat) (v : view) (line_no : nat) (a : align)
  (w : MainWindow) :
  _sync_lock w = true ->
  exists r w' l,
    scroll_view (value_changed (S fuel)) v line_no a w = Some (r, w') /\
    _sync_lock w' = true /\ _lrc_index w' = _lrc_index w /\
    _current_line_no w' = _current_line_no w /\
    widget (other v) w' = widget (other v) w /\
    plainText (widget v w') = plainText (widget v w) /\
    extraSelection (widget v w') = extraSelection (widget v w) /\
    issued w' = issued w ++ l /\
    (l = [] \/ (line_no < blockCount (widget v w) /\ exists y, l = [Scroll v y])) /\
    (r = Ok tt \/ r = Raise PyBaseException).
Proof.
  intros L. unfold _scroll_editor_view_to_line, try_except_pass, bind, get.
  destruct (Nat.ltb_spec line_no (blockCount (widget v w))) as [In | Out]; cbn [negb].
  - destruct (scroll_target (widget v w) line_no a) as [y | [|]].
    + unfold setValue, bind, modify, get, ret.
      assert (scrollValue (widget v (issue (Scroll v y) w)) = scrollValue (widget v w)) as ->
          by (destruct v; reflexivity).
      destruct (y =? scrollValue (widget v w))%Z.
      * exists (Ok tt), (issue (Scroll v y) w), [Scroll v y].
        split; [reflexivity|]. split; [exact L|].
        repeat (split; [destruct v; reflexivity|]).
        split; [right; eauto | now left].
      * unfold on_value_changed.
        rewrite (sync_scroll_from_locked blockCount scroll_target top_block)
          by (destruct v; exact L).
        exists (Ok tt), (set_scroll v y (issue (Scroll v y) w)), [Scroll v y].
        split; [reflexivity|]. split; [destruct v; exact L|].
        repeat (split; [destruct v; reflexivity|]).
        split; [right; eauto | now left].
    + exists (Ok tt), w, []. cbn. rewrite app_nil_r. repeat split; auto.
    + exists (Raise PyBaseException), w, []. cbn. rewrite app_nil_r. repeat split; auto.
  - exists (Ok tt), w, []. cbn. rewrite app_nil_r. repeat split; auto.
Qed.

(** What auto-follow touches: scroll values only, by [setValue] calls on
    views that hold the line. *)
Lemma scroll_both_frame (fuel : nat) (line_no : nat) (w : MainWindow) :
  exists r w' l,
    scroll_both (S fuel) line_no w = Some (r, w') /\
    _sync_lock w' = _sync_lock w /\ _lrc_index w' = _lrc_index w /\
    _current_line_no w' = _current_line_no w /\
    (forall v, plainText (widget v w') = plainText (widget v w) /\
               extraSelection (widget v w') = extraSelection (widget v w)) /\
    issued w' = issued w ++ l /\
    Forall (fun c => line_no < blockCount (widget (command_view c) w) /\
                     command_for line_no c) l.
Proof.
  destruct (_sync_lock w) eqn:L.
  - exists (Ok tt), w, []. rewrite app_nil_r.
    split; [now apply scroll_both_locked|]. repeat split; auto.
  - unfold _scroll_both_to_line. unfold bind at 1. unfold get at 1. rewrite L.
    unfold bind at 1. unfold modify at 1. unfold try_finally.
    set (w1 := set_sync_lock true w).
    assert (forall v, widget v w1 = widget v w) as W1 by (intros []; reflexivity).
    unfold bind at 1.
    destruct (scroll_view_locked_frame fuel editor_original line_no center w1 eq_refl)
      as (r2 & w2 & l1 & E2 & L2 & I2 & C2 & O2 & T2 & S2 & Q2 & A2 & R2).
    rewrite E2. cbn [other widget] in *.
    change (_lrc_index w1) with (_lrc_index w) in *.
    change (_current_line_no w1) with (_current_line_no w) in *.
    change (issued w1) with (issued w) in *.
    change (w_editor w1) with (w_editor w) in *.
    change (w_editor_original w1) with (w_editor_original w) in *.
    assert (Forall (fun c => line_no < blockCount (widget (command_view c) w) /\
                             command_for line_no c) l1) as F1.
    { destruct A2 as [-> | (B & y & ->)]; [constructor|].
      constructor; [|constructor]. cbn. split; [exact B | exact I]. }
    destruct R2 as [-> | ->].
    + destruct (scroll_view_locked_frame fuel editor line_no center w2 L2)
        as (r3 & w3 & l2 & E3 & L3 & I3 & C3 & O3 & T3 & S3 & Q3 & A3 & R3).
      rewrite E3. cbn [other widget] in *.
      exists r3, (set_sync_lock false w3), (l1 ++ l2).
      split; [reflexivity|]. split; [reflexivity|].
      split; [cbn; congruence|]. split; [cbn; congruence|]. split.
      * intros []; cbn; split; congruence.
      * split; [cbn; rewrite Q3, Q2, app_assoc; reflexivity|].
        apply Forall_app. split; [exact F1|].
        destruct A3 as [-> | (B & y & ->)]; [constructor|].
        constructor; [|constructor]. cbn. rewrite O2 in B. split; [exact B | exact I].
    + exists (Raise PyBaseException), (set_sync_lock false w2), l1.
      split; [reflexivity|]. split; [reflexivity|].
      split; [cbn; congruence|]. split; [cbn; congruence|]. split.
      * intros []; cbn; split; congruence.
      * split; [cbn; exact Q2 | exact F1].
Qed.

(** What one highlight touches: the selection of its view, when the line
    is in the view. *)
Lemma apply_line_highlight_frame (v : view) (line_no : nat) (fmt : char_format)
  (w : MainWindow) :
  exists w' l,
    _apply_line_highlight blockCount v line_no fmt w = Some (Ok tt, w') /\
    _sync_lock w' = _sync_lock w /\ _lrc_index w' = _lrc_index w /\
    _current_line_no w' = _current_line_no w /\
    widget (other v) w' = widget (other v) w /\
    plainText (widget v w') = plainText (widget v w) /\
    extraSelection (widget v w') =
      (if line_no <? blockCount (widget v w) then Some (line_no, fmt)
       else extraSelection (widget v w)) /\
    issued w' = issued w ++ l /\
    (l = [] \/ (line_no < blockCount (widget v w) /\ l = [Highlight v line_no fmt])).
Proof.
  unfold _apply_line_highlight, bind, get, ret, modify.
  destruct (Nat.ltb_spec line_no (blockCount (widget v w))) as [In | Out]; cbn [negb].
  - eexists. exists [Highlight v line_no fmt]. split; [reflexivity|].
    repeat (split; [destruct v; reflexivity|]). right. auto.
  - exists w, []. rewrite app_nil_r. repeat split; auto.
Qed.

(** X17. With the number of blocks of a view a function of its text: a
    time update that resolves a line other than the current one makes it
    current and keeps both texts.  When it returns, each view that
    holds the line has that line, and only it, highlighted in the format of
    the view, and a view too short for the line keeps the highlight it had.
    Every command issued addresses a view that holds the line, and is a
    scroll or the highlight of that line. *)
Theorem X17_update_highlights_both_views (fuel : nat) (t : float) (w : MainWindow) (line_no : nat) :
  lookup (_lrc_index w) t = Some line_no ->
  Z.of_nat line_no <> _current_line_no w ->
  exists r w',
    update_highlight (S fuel) t w = Some (r, w') /\
    _current_line_no w' = Z.of_nat line_no /\
    (forall v, plainText (widget v w') = plainText (widget v w)) /\
    (r = Ok tt ->
     forall v, extraSelection (widget v w') =
               if line_no <? blockCount (widget v w) then Some (line_no, format_of v)
               else extraSelection (widget v w)) /\
    Forall (fun c => line_no < blockCount (widget (command_view c) w) /\
                     command_for line_no c) (emitted w w').
Proof.
  intros Lk Ne. unfold update_lrc_highlight. unfold bind at 1. unfold get at 1.
  rewrite Lk. unfold bind at 1. unfold get at 1.
  apply Z.eqb_neq in Ne. rewrite Ne.
  unfold bind at 1. unfold modify at 1.
  set (w1 := set_current_line_no (Z.of_nat line_no) w).
  assert (forall v, widget v w1 = widget v w) as W1 by (intros []; reflexivity).
  destruct (scroll_both_frame fuel line_no w1)
    as (r2 & w2 & l1 & E2 & L2 & I2 & C2 & T2 & Q2 & F2).
  unfold bind at 1. rewrite E2.
  change (_current_line_no w1) with (Z.of_nat line_no) in *.
  change (issued w1) with (issued w) in *.
  assert (Forall (fun c => line_no < blockCount (widget (command_view c) w) /\
                           command_for line_no c) l1) as F1.
  { revert F2. apply Forall_impl. intros c [B K]. rewrite W1 in B. auto. }
  destruct r2 as [[]|ex].
  - destruct (apply_line_highlight_frame editor line_no _highlight_format w2)
      as (w3 & l2 & E3 & L3 & I3 & C3 & O3 & T3 & S3 & Q3 & A3).
    unfold bind at 1. rewrite E3.
    destruct (apply_line_highlight_frame editor_original line_no _highlight_format2 w3)
      as (w4 & l3 & E4 & L4 & I4 & C4 & O4 & T4 & S4 & Q4 & A4).
    rewrite E4. cbn [other widget] in *.
    pose proof (T2 editor) as [Te Se]. pose proof (T2 editor_original) as [To So].
    cbn [widget] in Te, Se, To, So.
    change (w_editor w1) with (w_editor w) in *.
    change (w_editor_original w1) with (w_editor_original w) in *.
    assert (blockCount (w_editor w2) = blockCount (w_editor w)) as Be
        by (apply blockCount_of_text; exact Te).
    assert (blockCount (w_editor_original w3) = blockCount (w_editor_original w)) as Bo
        by (apply blockCount_of_text; rewrite O3; exact To).
    exists (Ok tt), w4. split; [reflexivity|].
    split; [rewrite C4, C3, C2; reflexivity|]. split; [|split].
    + intros []; cbn [widget]; congruence.
    + intros _ []; cbn [widget format_of].
      * rewrite S4, Bo, O3, So. reflexivity.
      * rewrite O4, S3, Be, Se. reflexivity.
    + assert (issued w4 = issued w ++ l1 ++ l2 ++ l3) as Q
          by (rewrite Q4, Q3, Q2, <- !app_assoc; reflexivity).
      rewrite (emitted_app _ _ _ Q).
      apply Forall_app. split; [exact F1|]. apply Forall_app. split.
      * destruct A3 as [-> | (B & ->)]; [constructor|].
        constructor; [|constructor]. cbn. rewrite Be in B. auto.
      * destruct A4 as [-> | (B & ->)]; [constructor|].
        constructor; [|constructor]. cbn. rewrite Bo in B. auto.
  - exists (Raise ex), w2. split; [reflexivity|]. split; [exact C2|]. split; [|split].
    + intros v. rewrite <- W1. apply T2.
    + discriminate.
    + rewrite (emitted_app _ _ _ Q2). exact F1.
Qed.

End Highlighting.


Lemma X17_update_highlights_both_views_witness :
  exists r w',
    update_lrc_highlight flat_blockCount flat_scroll_target flat_top_block 1 2.5
      (window_of song_one) = Some (r, w') /\
    _current_line_no w' = Z.of_nat 1 /\
    (forall v, plainText (widget v w') = plainText (widget v (window_of song_one))) /\
    (r = Ok tt ->
     forall v, extraSelection (widget v w') =
               if 1 <? flat_blockCount (widget v (window_of song_one))
               then Some (1, format_of v)
               else extraSelection (widget v (window_of song_one))) /\
    Forall (fun c => 1 < flat_blockCount (widget (command_view c) (window_of song_one)) /\
                     command_for 1 c) (emitted (window_of song_one) w').
Proof.
  apply (X17_update_highlights_both_views flat_blockCount flat_scroll_target flat_top_block).
  - intros e e' H. unfold flat_blockCount. rewrite H. reflexivity.
  - vm_compute. reflexivity.
  - vm_compute. discriminate.
Defined.

(** ** The index follows the editable text *)

Section Invariant.

Variable search_get : str -> Z -> response.
Variable lyric_get : json -> response.
Variable blockCount : QTextEdit -> nat.
Variable scroll_target : QTextEdit -> nat -> align -> Z + raised.
Variable top_block : QTextEdit -> Z + raised.
Variable relayout : QTextEdit -> Z.

Local Abbreviation value_changed := (on_value_changed blockCount scroll_target top_block).
Local Abbreviation scroll_both := (_scroll_both_to_line blockCount scroll_target top_block).
Local Abbreviation update_highlight := (update_lrc_highlight blockCount scroll_target top_block).
Local Abbreviation set_plain_text := (setPlainText blockCount scroll_target top_block relayout).
Local Abbreviation load := (load_audio blockCount scroll_target top_block relayout).
Local Abbreviation download :=
  (download_lyric_auto search_get lyric_get blockCount scroll_target top_block relayout).

Lemma in_sync_same_fields (w w' : MainWindow) : same_fields w w' -> in_sync w -> in_sync w'.
Proof. unfold in_sync. intros (I & _ & T & _) H. now rewrite I, T. Qed.

Lemma update_highlight_in_sync (fuel : nat) (t : float) (w : MainWindow) :
  in_sync w ->
  exists r w', update_highlight (S fuel) t w = Some (r, w') /\ in_sync w'.
Proof.
  intros H. unfold update_lrc_highlight. unfold bind at 1. unfold get at 1.
  destruct (lookup (_lrc_index w) t) as [line_no|]; [|exists (Ok tt), w; auto].
  unfold bind at 1. unfold get at 1.
  destruct (Z.of_nat line_no =? _current_line_no w)%Z; [exists (Ok tt), w; auto|].
  unfold bind at 1. unfold modify at 1.
  set (w1 := set_current_line_no (Z.of_nat line_no) w).
  assert (in_sync w1) as H1 by exact H.
  assert (exists r w2, scroll_both (S fuel) line_no w1 = Some (r, w2) /\ same_fields w1 w2)
    as (r & w2 & E2 & F2).
  { destruct (_sync_lock w1) eqn:L1.
    - exists (Ok tt), w1. split; [now apply scroll_both_locked | apply same_fields_refl].
    - destruct (scroll_both_unlocked blockCount scroll_target top_block fuel line_no w1 L1)
        as (r & w2 & E2 & _ & F2 & _).
      eauto. }
  unfold bind at 1. rewrite E2. destruct r as [[]|ex].
  - destruct (apply_line_highlight_spec blockCount editor line_no _highlight_format w2)
      as (w3 & E3 & _ & F3).
    unfold bind at 1. rewrite E3.
    destruct (apply_line_highlight_spec blockCount editor_original line_no _highlight_format2 w3)
      as (w4 & E4 & _ & F4).
    rewrite E4. exists (Ok tt), w4. split; [reflexivity|].
    apply (in_sync_same_fields w1); [|exact H1].
    exact (same_fields_trans _ _ _ F2 (same_fields_trans _ _ _ F3 F4)).
  - exists (Raise ex), w2. split; [reflexivity|].
    exact (in_sync_same_fields w1 w2 F2 H1).
Qed.

Lemma set_plain_text_in_sync (fuel : nat) (v : view) (content : str) (w : MainWindow) :
  in_sync w ->
  exists r w', set_plain_text (S (S fuel)) v content w = Some (r, w') /\ in_sync w'.
Proof.
  intros H.
  destruct (set_plain_text_spec blockCount scroll_target top_block relayout fuel v content w)
    as (r & w' & E & _ & _ & T & O & I).
  exists r, w'. split; [exact E|]. unfold in_sync in *.
  destruct v; cbn [widget other] in *; congruence.
Qed.

Lemma set_both_in_sync (fuel : nat) (content : str) (last : MainWindow -> MainWindow)
  (w : MainWindow) :
  (forall x, plainText (w_editor x) = content -> in_sync (last x)) ->
  in_sync w ->
  exists r w',
    (set_plain_text (S (S fuel)) editor_original content ;;;
     set_plain_text (S (S fuel)) editor content ;;;
     modify last) w = Some (r, w') /\ in_sync w'.
Proof.
  intros Hl H.
  destruct (set_plain_text_in_sync fuel editor_original content w H) as (r1 & w1 & E1 & H1).
  unfold bind at 1. rewrite E1. destruct r1 as [[]|ex]; [|eauto].
  destruct (set_plain_text_spec blockCount scroll_target top_block relayout fuel
              editor content w1) as (r2 & w2 & E2 & _ & _ & T2 & _ & I2).
  unfold bind at 1. rewrite E2. cbn [widget] in T2.
  destruct r2 as [[]|ex].
  - exists (Ok tt), (last w2). split; [reflexivity|]. now apply Hl.
  - exists (Raise ex), w2. split; [reflexivity|]. unfold in_sync. congruence.
Qed.

Lemma load_audio_in_sync (fuel : nat) (lrc : option str) (w : MainWindow) :
  in_sync w -> exists r w', load (S (S fuel)) lrc w = Some (r, w') /\ in_sync w'.
Proof.
  intros H. unfold load_audio. destruct lrc as [content|].
  - apply set_both_in_sync; [|exact H]. intros x Hx. reflexivity.
  - apply set_both_in_sync; [|exact H]. intros x Hx. unfold in_sync. cbn. now rewrite Hx.
Qed.

Lemma download_in_sync (fuel : nat) (current_audio : option (str * str * option float * bool))
  (w : MainWindow) :
  in_sync w -> exists r w', download (S (S fuel)) current_audio w = Some (r, w') /\ in_sync w'.
Proof.
  intros H. unfold download_lyric_auto.
  destruct current_audio as [[[[title artist] duration] fuzzy]|]; [|exists (Ok tt), w; auto].
  destruct (negb (nonempty title)); [exists (Ok tt), w; auto|].
  destruct (download_lrc search_get lyric_get title duration) as [[lrc [chosen|]]|[|]];
    try (exists (Ok tt), w; split; [reflexivity | exact H]).
  - destruct (negb (truthy lrc)); [exists (Ok tt), w; auto|].
    destruct (build_lrc_header _ _ _ _) as [header|];
      [|exists (Raise PyException), w; auto].
    destruct (or_else lrc (JStr [])) as [| | | |l| |];
      try (exists (Raise PyException), w; split; [reflexivity | exact H]).
    destruct (set_plain_text_in_sync fuel editor_original (full_lrc header l) w H)
      as (r1 & w1 & E1 & H1).
    unfold bind at 1. rewrite E1. destruct r1 as [[]|ex]; [|eauto].
    apply set_plain_text_in_sync. exact H1.
  - exists (Raise PyBaseException), w. auto.
Qed.

Lemma value_changed_in_sync (fuel : nat) (v : view) (w : MainWindow) :
  in_sync w -> exists r w', value_changed (S (S fuel)) v w = Some (r, w') /\ in_sync w'.
Proof.
  intros H.
  destruct (value_changed_frame blockCount scroll_target top_block fuel v w)
    as (r & w' & E & _ & F).
  exists r, w'. split; [exact E|]. exact (in_sync_same_fields w w' F H).
Qed.

End Invariant.

(** X18. The index never goes stale with respect to the editable text.
    From a window whose index is the one rebuilt from the text of the
    editable view, each of these runs to its end, returning or raising, and
    leaves such a window again: a time update, a scroll notification of
    either view, the replacement of the document of either view, the
    loading of an audio file with or without a lyric file, and the automatic
    download. *)
Theorem X18_index_follows_text
  (search_get : str -> Z -> response) (lyric_get : json -> response)
  (blockCount : QTextEdit -> nat)
  (scroll_target : QTextEdit -> nat -> align -> Z + raised)
  (top_block : QTextEdit -> Z + raised) (relayout : QTextEdit -> Z)
  (fuel : nat) (w : MainWindow) :
  in_sync w ->
  (forall t, exists r w',
     update_lrc_highlight blockCount scroll_target top_block (S fuel) t w = Some (r, w') /\
     in_sync w') /\
  (forall v, exists r w',
     on_value_changed blockCount scroll_target top_block (S (S fuel)) v w = Some (r, w') /\
     in_sync w') /\
  (forall v content, exists r w',
     setPlainText blockCount scroll_target top_block relayout (S (S fuel)) v content w
       = Some (r, w') /\
     in_sync w') /\
  (forall lrc, exists r w',
     load_audio blockCount scroll_target top_block relayout (S (S fuel)) lrc w
       = Some (r, w') /\
     in_sync w') /\
  (forall current_audio, exists r w',
     download_lyric_auto search_get lyric_get blockCount scroll_target top_block relayout
       (S (S fuel)) current_audio w = Some (r, w') /\
     in_sync w').
Proof.
  intros H. split; [|split; [|split; [|split]]].
  - intros t. now apply update_highlight_in_sync.
  - intros v. now apply value_changed_in_sync.
  - intros v content. now apply set_plain_text_in_sync.
  - intros lrc. now apply load_audio_in_sync.
  - intros ca. now apply download_in_sync.
Qed.

Lemma X18_index_follows_text_witness :
  (forall t, exists r w',
     update_lrc_highlight flat_blockCount flat_scroll_target flat_top_block 1 t build_ui
       = Some (r, w') /\ in_sync w') /\
  (forall v, exists r w',
     on_value_changed flat_blockCount flat_scroll_target flat_top_block 2 v build_ui
       = Some (r, w') /\ in_sync w') /\
  (forall v content, exists r w',
     setPlainText flat_blockCount flat_scroll_target flat_top_block flat_relayout 2 v content
       build_ui = Some (r, w') /\ in_sync w') /\
  (forall lrc, exists r w',
     load_audio flat_blockCount flat_scroll_target flat_top_block flat_relayout 2 lrc build_ui
       = Some (r, w') /\ in_sync w') /\
  (forall current_audio, exists r w',
     download_lyric_auto (searching three_songs) lyric_of_7
       flat_blockCount flat_scroll_target flat_top_block flat_relayout 2 current_audio build_ui
       = Some (r, w') /\ in_sync w').
Proof.
  apply (X18_index_follows_text (searching three_songs) lyric_of_7
           flat_blockCount flat_scroll_target flat_top_block flat_relayout 0 build_ui).
  reflexivity.
Defined.

(** ** The manual search *)









(** ** Mirroring a user scroll *)

(** X20. A scroll notification of one view, with the lock free, the top
    line of that view known and at least one block in the other view: the
    line is clamped into the other view, so it exists there, the other view
    is scrolled by one [setValue] to the position that puts this line on
    top, the notifying view is left as it is, and the lock is free again. *)
Theorem X20_mirror_scrolls_to_clamped_line
  (blockCount : QTextEdit -> nat)
  (scroll_target : QTextEdit -> nat -> align -> Z + raised)
  (top_block : QTextEdit -> Z + raised)
  (fuel : nat) (src : view) (w : MainWindow) (bn y : Z) :
  _sync_lock w = false ->
  top_block (widget src w) = inl bn ->
  1 <= blockCount (widget (other src) w) ->
  scroll_target (widget (other src) w)
    (Z.to_nat (Z.max 0 (Z.min bn (Z.of_nat (blockCount (widget (other src) w)) - 1)))) top
    = inl y ->
  exists w',
    on_value_changed blockCount scroll_target top_block (S (S fuel)) src w = Some (Ok tt, w') /\
    Z.to_nat (Z.max 0 (Z.min bn (Z.of_nat (blockCount (widget (other src) w)) - 1)))
      < blockCount (widget (other src) w) /\
    scrollValue (widget (other src) w') = y /\
    widget src w' = widget src w /\
    _sync_lock w' = false /\
    emitted w w' = [Scroll (other src) y].
Proof.
  intros L Tb Bc St.
  set (n := Z.to_nat (Z.max 0 (Z.min bn (Z.of_nat (blockCount (widget (other src) w)) - 1)))) in *.
  assert (n < blockCount (widget (other src) w)) as Bn by (unfold n; lia).
  unfold on_value_changed. rewrite sync_scroll_from_S.
  unfold bind at 1. unfold get at 1. rewrite L.
  unfold bind at 1. unfold modify at 1. unfold try_finally.
  set (w1 := set_sync_lock true w).
  assert (forall v, widget v w1 = widget v w) as W1 by (intros []; reflexivity).
  unfold bind at 1. unfold get at 1. rewrite W1, Tb.
  unfold bind at 1. unfold get at 1. rewrite W1. cbv zeta. fold n.
  unfold _scroll_editor_view_to_line, try_except_pass.
  unfold bind at 1. unfold get at 1. rewrite W1.
  apply Nat.ltb_lt in Bn. rewrite Bn. cbn [negb]. rewrite St.
  unfold setValue. unfold bind at 1. unfold modify at 1.
  unfold bind at 1. unfold get at 1.
  set (w2 := issue (Scroll (other src) y) w1).
  assert (forall v, widget v w2 = widget v w) as W2 by (intros []; reflexivity).
  rewrite W2.
  destruct (Z.eqb_spec y (scrollValue (widget (other src) w))) as [Eq | Ne].
  - exists (set_sync_lock false w2). split; [reflexivity|].
    split; [now apply Nat.ltb_lt|].
    split; [destruct src; cbn; now rewrite Eq|].
    split; [destruct src; reflexivity|]. split; [reflexivity|].
    apply (emitted_app w _ [Scroll (other src) y]). reflexivity.
  - unfold bind at 1. unfold modify at 1.
    set (w3 := set_scroll (other src) y w2).
    unfold on_value_changed.
    rewrite (sync_scroll_from_locked blockCount scroll_target top_block fuel)
      by (unfold w3; destruct src; reflexivity).
    exists (set_sync_lock false w3). split; [reflexivity|].
    split; [now apply Nat.ltb_lt|].
    split; [destruct src; reflexivity|].
    split; [destruct src; reflexivity|]. split; [reflexivity|].
    apply (emitted_app w _ [Scroll (other src) y]). destruct src; reflexivity.
Qed.


Lemma X20_mirror_scrolls_to_clamped_line_witness :
  exists w',
    on_value_changed flat_blockCount flat_scroll_target flat_top_block 2 editor
      (set_scroll editor 5 (window_of song_one)) = Some (Ok tt, w') /\
    Z.to_nat (Z.max 0 (Z.min 5 (Z.of_nat (flat_blockCount
       (widget (other editor) (set_scroll editor 5 (window_of song_one)))) - 1)))
      < flat_blockCount (widget (other editor) (set_scroll editor 5 (window_of song_one))) /\
    scrollValue (widget (other editor) w') = 2%Z /\
    widget editor w' = widget editor (set_scroll editor 5 (window_of song_one)) /\
    _sync_lock w' = false /\
    emitted (set_scroll editor 5 (window_of song_one)) w' = [Scroll (other editor) 2].
Proof.
  apply (X20_mirror_scrolls_to_clamped_line flat_blockCount flat_scroll_target flat_top_block
           0 editor (set_scroll editor 5 (window_of song_one)) 5 2).
  - reflexivity.
  - reflexivity.
  - vm_compute. lia.
  - vm_compute. reflexivity.
Defined.

(** ** Stamping *)

Lemma digits_from_length (fuel n : nat) (acc : str) (k : nat) :
  n < 10 ^ k -> 1 <= k -> List.length (digits_from fuel n acc) <= List.length acc + k.
Proof.
  revert n acc k. induction fuel as [|fuel IH]; intros n acc k Lt Hk; cbn [digits_from]; [lia|].
  destruct (Nat.ltb_spec n 10) as [Small | Big]; [cbn [List.length]; lia|].
  destruct k as [|[|k]]; [lia | cbn in Lt; lia |].
  assert (n / 10 < 10 ^ S k) as Lt'.
  { apply Nat.Div0.div_lt_upper_bound. cbn [Nat.pow] in *. lia. }
  specialize (IH (n / 10) (ascii_of_nat (48 + n mod 10) :: acc) (S k) Lt' ltac:(lia)).
  cbn [List.length] in IH. lia.
Qed.

(** [format_d] of a number below [10 ^ width]: exactly [width] digits. *)
Lemma format_d_width (width : nat) (z : Z) :
  (0 <= z < Z.of_nat (10 ^ width))%Z -> 1 <= width ->
  digits (format_d width z) /\ Z.of_nat (int (format_d width z)) = z /\
  List.length (format_d width z) = width.
Proof.
  intros [Pos Lt] W. destruct (format_d_nonneg width z Pos) as (D & V & L & _).
  split; [exact D|]. split; [exact V|].
  unfold format_d in *. destruct (Z.ltb_spec z 0) as [Neg | _]; [lia|].
  destruct (int_str_of_nat (Z.to_nat z)) as (Ds & _ & _).
  destruct (zero_pad_spec width _ Ds) as (_ & _ & Lp). rewrite Lp.
  pose proof (digits_from_length (S (Z.to_nat z)) (Z.to_nat z) [] width ltac:(lia) W) as B.
  cbn [List.length] in B. unfold str_of_nat. lia.
Qed.

Lemma timestamp_tag_carry (mm ss ms : Z) :
  (0 <= mm)%Z -> (0 <= ss < 60)%Z -> (0 <= ms <= 1000)%Z ->
  exists mm' ss' ms',
    timestamp_tag mm ss ms =
      py "[" ++ format_d 2 mm' ++ py ":" ++ format_d 2 ss' ++ py "." ++ format_d 3 ms' ++ py "]" /\
    (0 <= mm')%Z /\ (0 <= ss' < 60)%Z /\ (0 <= ms' < 1000)%Z /\
    ((mm' * 60 + ss') * 1000 + ms' = (mm * 60 + ss) * 1000 + ms)%Z.
Proof.
  intros Hm Hs Hms. unfold timestamp_tag.
  destruct (Z.leb_spec 1000 ms) as [Full | Part].
  - destruct (Z.leb_spec 60 (ss + 1)) as [Carry | Keep].
    + exists (mm + 1)%Z, (ss + 1 - 60)%Z, (ms - 1000)%Z. split; [reflexivity|]. lia.
    + exists mm, (ss + 1)%Z, (ms - 1000)%Z. split; [reflexivity|]. lia.
  - exists mm, ss, ms. split; [reflexivity|]. lia.
Qed.

Lemma search_head (r : regex) (s : str) (m : groups * str) :
  match_at r s = Some m -> search r s = Some m.
Proof. intros H. destruct s; cbn [search]; now rewrite H. Qed.

(** X21. Stamping and indexing agree.  From whole minutes that are not
    negative, seconds from 0 to 59 and milliseconds from 0 to 1000 that
    together stay below one hundred minutes, the text that
    [insert_timestamp_line] inserts is a well-formed time tag with a
    fraction of three digits and seconds below 60; read back, its minutes,
    seconds and milliseconds give the same number of milliseconds, a full
    thousand carried into the seconds and the minutes; and a line that
    starts with it is indexed at the offset parsed from it. *)
Theorem X21_stamp_reads_back (mm ss ms : Z) :
  (0 <= mm)%Z -> (0 <= ss < 60)%Z -> (0 <= ms <= 1000)%Z ->
  ((mm * 60 + ss) * 1000 + ms < 6000000)%Z ->
  exists t f,
    timestamp_tag mm ss ms = tag_text t /\ well_formed t /\
    fraction t = Some f /\ List.length f = 3 /\ int (seconds t) < 60 /\
    Z.of_nat ((int (minutes t) * 60 + int (seconds t)) * 1000 + int f)
      = ((mm * 60 + ss) * 1000 + ms)%Z /\
    (forall pre post, tag_at (pre ++ timestamp_tag mm ss ms ++ post) (List.length pre) t) /\
    (forall i post, line_entry i (timestamp_tag mm ss ms ++ post) = [(parsed_offset t, i)]).
Proof.
  intros Hm Hs Hms Lt.
  destruct (timestamp_tag_carry mm ss ms Hm Hs Hms) as (mm' & ss' & ms' & E & Hm' & Hs' & Hms' & V).
  assert (mm' < 100)%Z as Hm100 by lia.
  destruct (format_d_width 2 mm' ltac:(cbn; lia) ltac:(lia)) as (Dm & Vm & Lm).
  destruct (format_d_width 2 ss' ltac:(cbn; lia) ltac:(lia)) as (Ds & Vs & Ls).
  destruct (format_d_width 3 ms' ltac:(cbn; lia) ltac:(lia)) as (Df & Vf & Lf).
  set (t := mkTag (format_d 2 mm') (format_d 2 ss') (Some (format_d 3 ms'))).
  assert (well_formed t) as Hw.
  { unfold well_formed, t. cbn [minutes seconds fraction].
    repeat split; try assumption; lia. }
  assert (timestamp_tag mm ss ms = tag_text t) as Et.
  { rewrite E. unfold tag_text, t. cbn [minutes seconds fraction].
    rewrite <- !app_assoc. reflexivity. }
  exists t, (format_d 3 ms'). split; [exact Et|]. split; [exact Hw|].
  split; [reflexivity|]. split; [exact Lf|]. unfold t at 1 2 3. cbn [minutes seconds].
  split; [lia|]. split; [lia|]. split.
  - intros pre post. split; [exact Hw|]. exists pre, post. rewrite Et. auto.
  - intros i post. unfold line_entry. rewrite Et.
    rewrite (search_head _ _ _ (match_at_TAG_complete t post Hw)). reflexivity.
Qed.


Lemma X21_stamp_reads_back_witness :
  exists t f,
    timestamp_tag 1 59 1000 = tag_text t /\ well_formed t /\
    fraction t = Some f /\ List.length f = 3 /\ int (seconds t) < 60 /\
    Z.of_nat ((int (minutes t) * 60 + int (seconds t)) * 1000 + int f)
      = ((1 * 60 + 59) * 1000 + 1000)%Z /\
    (forall pre post, tag_at (pre ++ timestamp_tag 1 59 1000 ++ post) (List.length pre) t) /\
    (forall i post, line_entry i (timestamp_tag 1 59 1000 ++ post) = [(parsed_offset t, i)]).
Proof.
  apply (X21_stamp_reads_back 1 59 1000); lia.
Defined.

(** A text whose minutes have three digits or more holds no tag. *)
Lemma long_minutes_no_tag (m s f : str) (p : nat) (t : time_tag) :
  digits m -> 3 <= List.length m -> digits s -> digits f ->
  ~ tag_at (py "[" ++ m ++ py ":" ++ s ++ py "." ++ f ++ py "]") p t.
Proof.
  intros Dm Lm Ds Df (Hw & pre & post & E & _).
  destruct (tag_text_head t Hw) as (d & r & Hd & Et).
  destruct pre as [|x pre].
  - clear Et d r Hd. destruct t as [tm ts tf]. unfold well_formed, tag_text in *.
    cbn [minutes seconds fraction] in *. destruct Hw as (Dtm & Ltm & _).
    cbn [app] in E. injection E as E.
    destruct m as [|m1 [|m2 [|m3 m]]]; cbn [List.length] in Lm; try lia.
    apply digits_cons in Dm. destruct Dm as (D1 & Dm).
    apply digits_cons in Dm. destruct Dm as (D2 & Dm).
    apply digits_cons in Dm. destruct Dm as (D3 & _).
    destruct tm as [|a [|b [|c tm]]]; cbn [List.length] in Ltm; try lia.
    + cbn in E. injection E as _ E2 _. subst m2. discriminate D2.
    + cbn in E. injection E as _ _ E3 _. subst m3. discriminate D3.
  - rewrite Et in E. cbn [app] in E. injection E as _ E.
    assert (exists tail, m ++ py ":" ++ s ++ py "." ++ f ++ py "]" = pre ++ "["%char :: tail)
      as [tail E'] by (eexists; exact E).
    assert (In "["%char (m ++ py ":" ++ s ++ py "." ++ f ++ py "]")) as I
        by (rewrite E'; apply in_or_app; right; now left).
    assert (forall x, digits x -> Forall (fun c => c <> "["%char) x) as ND.
    { intros y. apply Forall_impl. intros c Hc ->. discriminate Hc. }
    assert (Forall (fun c => c <> "["%char)
                   (m ++ py ":" ++ s ++ py "." ++ f ++ py "]")) as NB.
    { repeat (apply Forall_app; split); try (now apply ND);
        (constructor; [discriminate | constructor]). }
    rewrite Forall_forall in NB. now apply (NB _ I).
Qed.

(** X22. From one hundred minutes on, stamping writes minutes of three
    digits or more: the inserted text holds no time tag that the index
    recognises, and a line made of it alone is not indexed. *)
Theorem X22_stamp_after_100_minutes (mm ss ms : Z) :
  (0 <= mm)%Z -> (0 <= ss < 60)%Z -> (0 <= ms <= 1000)%Z ->
  (6000000 <= (mm * 60 + ss) * 1000 + ms)%Z ->
  (forall p t, ~ tag_at (timestamp_tag mm ss ms) p t) /\
  (forall i, line_entry i (timestamp_tag mm ss ms) = []).
Proof.
  intros Hm Hs Hms Ge.
  destruct (timestamp_tag_carry mm ss ms Hm Hs Hms) as (mm' & ss' & ms' & E & Hm' & Hs' & Hms' & V).
  assert (100 <= mm')%Z as Hm100 by lia.
  destruct (format_d_nonneg 2 mm' Hm') as (Dm & Vm & _).
  destruct (format_d_nonneg 2 ss' ltac:(lia)) as (Ds & _).
  destruct (format_d_nonneg 3 ms' ltac:(lia)) as (Df & _).
  assert (3 <= List.length (format_d 2 mm')) as Lm.
  { pose proof (int_bound _ Dm) as B.
    destruct (List.length (format_d 2 mm')) as [|[|[|n]]]; cbn in B; lia. }
  assert (forall p t, ~ tag_at (timestamp_tag mm ss ms) p t) as N.
  { intros p t. rewrite E. now apply long_minutes_no_tag. }
  split; [exact N|]. intros i. now apply line_entry_no_tag.
Qed.


Lemma X22_stamp_after_100_minutes_witness :
  (forall p t, ~ tag_at (timestamp_tag 99 59 1000) p t) /\
  (forall i, line_entry i (timestamp_tag 99 59 1000) = []).
Proof.
  apply (X22_stamp_after_100_minutes 99 59 1000); lia.
Defined.
